(** * RSA operations of the OpenSSL backend

    A shallow embedding of [cryptography/hazmat/backends/openssl/rsa.py]:
    padding validation, the encryption and decryption entry points, the
    signature and verification contexts, and the key objects with their
    numbers.  The module is a binding layer: all
    cryptographic work is done by OpenSSL, whose functions are taken here as a
    record of collaborators ([Lib]).  What is modelled in full is the Python
    control flow around them: the order of the checks, the exceptions raised,
    the error-queue handling and the life cycle of the hash context. *)

From Stdlib Require Import ZArith List String Bool Lia.
Import ListNotations.
Local Open Scope Z_scope.

(** ** Python values and exceptions *)

Definition bytes := list Byte.byte.

(** [len(b)] *)
Definition len (b : bytes) : Z := Z.of_nat (List.length b).

(** [b[:k]], with Python's reading of a negative bound. *)
Definition slice_to (b : bytes) (k : Z) : bytes :=
  if 0 <=? k then firstn (Z.to_nat k) b
  else firstn (Z.to_nat (len b + k)) b.

(** [int(math.ceil(x / 8.0))].  The float quotient is exact for the sizes an
    RSA key can have (|x| < 2^53), where it is the ceiling of the rational
    quotient. *)
Definition ceil_div8 (x : Z) : Z := - ((- x) / 8).

(** The members of [_Reasons] this file uses. *)
Inductive Reasons : Type :=
| UNSUPPORTED_HASH
| UNSUPPORTED_MGF
| UNSUPPORTED_PADDING.

(** The exceptions the module raises, with the message where the source gives
    one.  A failed [assert] is [AssertionError]; [errors[0]] on an empty list
    is [IndexError]; reading an attribute an object does not have is
    [AttributeError]. *)
Inductive exn : Type :=
| TypeError (msg : string)
| ValueError (msg : string)
| UnsupportedAlgorithm (msg : string) (reason : Reasons)
| AlreadyFinalized (msg : string)
| InvalidSignature
| AssertionError
| IndexError
| AttributeError.

Inductive result (A : Type) : Type :=
| Ok (a : A)
| Raise (e : exn).
Arguments Ok {A} a.
Arguments Raise {A} e.

(** The error classes of the specification, and the exception each one is. *)
Inductive SpecError : Type :=
| UnsupportedPadding
| UnsupportedMaskGenerationFunction
| UnsupportedHash
| UnsupportedFeature
| KeyTooSmall
| DataTooLarge
| DecryptionFailed
| InvalidSignatureError
| AlreadyFinalizedError.

Definition msg_mgf1_only : string := "Only MGF1 is supported by this backend.".
Definition msg_oaep_mgf1_sha1 : string :=
  "This backend supports only SHA1 inside MGF1 when using OAEP.".
Definition msg_oaep_labels : string :=
  "This backend does not support OAEP labels.".
Definition msg_oaep_sha1 : string :=
  "This backend only supports SHA1 when using OAEP.".
Definition msg_data_too_long : string :=
  "Data too long for key size. Encrypt less data or use a larger key size.".
Definition msg_decryption_failed : string := "Decryption failed.".
Definition msg_digest_too_large : string :=
  "Digest too large for key size. Use a larger key.".
Definition msg_digest_too_large_verify : string :=
  "Digest too large for key size. Check that you have the correct key and digest algorithm.".
Definition msg_mgf1_old_openssl : string :=
  "When OpenSSL is older than 1.0.1 then only SHA1 is supported with MGF1.".
Definition msg_salt_too_long : string :=
  "Salt length too long for key size. Try using MAX_LENGTH instead.".
Definition msg_already_finalized : string :=
  "Context has already been finalized.".
Definition msg_ciphertext_length : string :=
  "Ciphertext length must be equal to key size.".
Definition msg_padding_type : string :=
  "Padding must be an instance of AsymmetricPadding.".
Definition msg_padding_provider : string :=
  "Expected provider of AsymmetricPadding.".

Definition classify (e : exn) : option SpecError :=
  match e with
  | UnsupportedAlgorithm _ UNSUPPORTED_PADDING => Some UnsupportedPadding
  | UnsupportedAlgorithm _ UNSUPPORTED_MGF =>
      Some UnsupportedMaskGenerationFunction
  | UnsupportedAlgorithm _ UNSUPPORTED_HASH => Some UnsupportedHash
  | ValueError m =>
      if String.eqb m msg_oaep_labels then Some UnsupportedFeature
      else if String.eqb m msg_digest_too_large then Some KeyTooSmall
      else if String.eqb m msg_digest_too_large_verify then Some KeyTooSmall
      else if String.eqb m msg_data_too_long then Some DataTooLarge
      else if String.eqb m msg_decryption_failed then Some DecryptionFailed
      else None
  | InvalidSignature => Some InvalidSignatureError
  | AlreadyFinalized _ => Some AlreadyFinalizedError
  | _ => None
  end.

(** ** Hash algorithms and padding descriptors *)

(** Modelled from the spec: the hash classes of [primitives/hashes.py],
    which the module imports.  A hash algorithm is an identifier with a
    fixed digest size in bytes (20 for SHA-1, 32 for SHA-256);
    [CustomHash] stands for any other provider of the [HashAlgorithm]
    interface. *)
Inductive HashAlgorithm : Type :=
| SHA1 | SHA224 | SHA256 | SHA384 | SHA512 | RIPEMD160 | Whirlpool | MD5
| CustomHash (name : string) (digest_size : Z).

(** [h.name], which the module passes to [EVP_get_digestbyname]. *)
Definition hash_name (h : HashAlgorithm) : string :=
  match h with
  | SHA1 => "sha1" | SHA224 => "sha224" | SHA256 => "sha256"
  | SHA384 => "sha384" | SHA512 => "sha512" | RIPEMD160 => "ripemd160"
  | Whirlpool => "whirlpool" | MD5 => "md5"
  | CustomHash n _ => n
  end.

(** [h.digest_size] *)
Definition digest_size (h : HashAlgorithm) : Z :=
  match h with
  | SHA1 => 20 | SHA224 => 28 | SHA256 => 32 | SHA384 => 48 | SHA512 => 64
  | RIPEMD160 => 20 | Whirlpool => 64 | MD5 => 16
  | CustomHash _ d => d
  end.

(** [isinstance(h, hashes.SHA1)] *)
Definition is_SHA1 (h : HashAlgorithm) : bool :=
  match h with SHA1 => true | _ => false end.

(** A mask generation function: [MGF1] over a hash, or some other object. *)
Inductive MGF : Type :=
| MGF1 (_algorithm : HashAlgorithm)
| OtherMGF.

(** The [_salt_length] attribute of a PSS padding: one of the two
    [MAX_LENGTH] sentinels, or an integer. *)
Inductive SaltLength : Type :=
| MGF1_MAX_LENGTH
| PSS_MAX_LENGTH
| SaltInt (n : Z).

Record PSS_t : Type := mkPSS {
  pss_mgf : MGF;
  pss_salt_length : SaltLength
}.

Record OAEP_t : Type := mkOAEP {
  oaep_mgf : MGF;
  oaep_algorithm : HashAlgorithm;
  oaep_label : option bytes
}.

(** The providers of [AsymmetricPadding]: the three classes the module
    imports, and any other provider, known by its [name]. *)
Inductive AsymmetricPadding : Type :=
| PKCS1v15
| OAEP (o : OAEP_t)
| PSS (p : PSS_t)
| OtherPadding (name : string).

(** [padding.name], a class attribute declared in
    [primitives/asymmetric/padding.py]; the module uses it in one message
    only. *)
Definition padding_name (p : AsymmetricPadding) : string :=
  match p with
  | PKCS1v15 => "EMSA-PKCS1-v1_5"
  | OAEP _ => "EME-OAEP"
  | PSS _ => "EMSA-PSS"
  | OtherPadding n => n
  end.

(** What a caller may pass as [padding]: Python does not restrict it to
    providers of the interface, and the module tests for it. *)
Inductive PyPadding : Type :=
| NotAPadding
| Padding (p : AsymmetricPadding).

(** ["{0} is not supported by this backend.".format(padding.name)] *)
Definition msg_not_supported (p : AsymmetricPadding) : string :=
  String.append (padding_name p) " is not supported by this backend.".

(** ** PSS salt length *)

(** [_get_rsa_pss_salt_length(pss, key_size, digest_size)] *)
Definition _get_rsa_pss_salt_length
    (pss : PSS_t) (key_size digest_size : Z) : result Z :=
  match pss_salt_length pss with
  | MGF1_MAX_LENGTH | PSS_MAX_LENGTH =>
      (* bit length - 1 per RFC 3447 *)
      let emlen := ceil_div8 (key_size - 1) in
      let salt_length := emlen - digest_size - 2 in
      if 0 <=? salt_length then Ok salt_length else Raise AssertionError
  | SaltInt salt => Ok salt
  end.

(** ** The OpenSSL collaborator *)

(** An entry of OpenSSL's error queue, as [backend._consume_errors] returns
    it. *)
Record OpenSSLError : Type := mkError {
  err_lib : Z;
  err_func : Z;
  err_reason : Z
}.

(** The [RSA] structure: the BIGNUM fields the module reads ([None] is
    [NULL]). *)
Record RSA : Type := mkRSA {
  rsa_n : option Z;
  rsa_e : option Z;
  rsa_d : option Z;
  rsa_p : option Z;
  rsa_q : option Z;
  rsa_dmp1 : option Z;
  rsa_dmq1 : option Z;
  rsa_iqmp : option Z;
  rsa_blinding : bool
}.

(** An [EVP_PKEY] that holds an RSA key. *)
Record EVP_PKEY : Type := mkPKEY { pkey_rsa : RSA }.

(** A message digest as [EVP_get_digestbyname] finds it. *)
Record EVP_MD : Type := mkMD { md_name : string }.

Inductive PkeyOp : Type :=
| OpEncrypt | OpDecrypt | OpSign | OpVerify.

(** An [EVP_PKEY_CTX] with the settings the module makes on it. *)
Record EVP_PKEY_CTX : Type := mkCTX {
  ctx_pkey : EVP_PKEY;
  ctx_op : option PkeyOp;
  ctx_signature_md : option EVP_MD;
  ctx_rsa_padding : option Z;
  ctx_rsa_pss_saltlen : option Z;
  ctx_rsa_mgf1_md : option EVP_MD
}.

Definition set_op (c : EVP_PKEY_CTX) (o : PkeyOp) : EVP_PKEY_CTX :=
  mkCTX (ctx_pkey c) (Some o) (ctx_signature_md c) (ctx_rsa_padding c)
        (ctx_rsa_pss_saltlen c) (ctx_rsa_mgf1_md c).
Definition set_signature_md (c : EVP_PKEY_CTX) (m : EVP_MD) : EVP_PKEY_CTX :=
  mkCTX (ctx_pkey c) (ctx_op c) (Some m) (ctx_rsa_padding c)
        (ctx_rsa_pss_saltlen c) (ctx_rsa_mgf1_md c).
Definition set_rsa_padding (c : EVP_PKEY_CTX) (p : Z) : EVP_PKEY_CTX :=
  mkCTX (ctx_pkey c) (ctx_op c) (ctx_signature_md c) (Some p)
        (ctx_rsa_pss_saltlen c) (ctx_rsa_mgf1_md c).
Definition set_rsa_pss_saltlen (c : EVP_PKEY_CTX) (n : Z) : EVP_PKEY_CTX :=
  mkCTX (ctx_pkey c) (ctx_op c) (ctx_signature_md c) (ctx_rsa_padding c)
        (Some n) (ctx_rsa_mgf1_md c).
Definition set_rsa_mgf1_md (c : EVP_PKEY_CTX) (m : EVP_MD) : EVP_PKEY_CTX :=
  mkCTX (ctx_pkey c) (ctx_op c) (ctx_signature_md c) (ctx_rsa_padding c)
        (ctx_rsa_pss_saltlen c) (Some m).

(** The state of the backend hash context behind a [hashes.Hash]: its
    algorithm and the data fed to it so far. *)
Record HashCtx : Type := mkHashCtx {
  hc_algorithm : HashAlgorithm;
  hc_data : bytes
}.

(** What a call that fills a buffer leaves behind: its return value, the
    buffer, the length it stored through its length pointer, and the errors
    it queued. *)
Record LibOut : Type := mkOut {
  out_res : Z;
  out_buf : bytes;
  out_len : Z;
  out_errors : list OpenSSLError
}.

(** The part of [backend] the module uses: the feature flags and constants of
    [backend._lib], its functions, and the backend's own
    [_mgf1_hash_supported].  Functions are deterministic in their arguments.
    An allocator's field says whether it returned a pointer other than
    [NULL]; a setter's field is its return value; a function that writes a
    buffer takes the arguments it reads (a [Z] before the data is the value
    of its length pointer on entry, a [bool] says whether the output buffer
    is given) and returns a [LibOut]. *)
Record Lib : Type := mkLib {
  Cryptography_HAS_PKEY_CTX : bool;
  Cryptography_HAS_MGF1_MD : bool;
  Cryptography_HAS_RSA_R_PKCS_DECODING_ERROR : bool;
  ERR_LIB_RSA : Z;
  RSA_R_DATA_TOO_LARGE_FOR_KEY_SIZE : Z;
  RSA_R_BLOCK_TYPE_IS_NOT_01 : Z;
  RSA_R_BLOCK_TYPE_IS_NOT_02 : Z;
  RSA_R_PKCS_DECODING_ERROR : Z;
  RSA_R_DIGEST_TOO_BIG_FOR_RSA_KEY : Z;
  RSA_PKCS1_PADDING : Z;
  RSA_PKCS1_OAEP_PADDING : Z;
  RSA_PKCS1_PSS_PADDING : Z;
  RSA_NO_PADDING : Z;
  _mgf1_hash_supported : HashAlgorithm -> bool;
  hash_digest : HashAlgorithm -> bytes -> bytes;
  EVP_get_digestbyname : string -> option EVP_MD;
  BN_num_bits : option Z -> Z;
  RSA_new : bool;
  RSA_blinding_on : RSA -> Z;
  EVP_PKEY_new : bool;
  EVP_PKEY_set1_RSA : RSA -> Z;
  EVP_PKEY_size : EVP_PKEY -> Z;
  RSA_size : RSA -> Z;
  EVP_PKEY_CTX_new : EVP_PKEY -> bool;
  EVP_PKEY_encrypt_init : EVP_PKEY_CTX -> Z;
  EVP_PKEY_decrypt_init : EVP_PKEY_CTX -> Z;
  EVP_PKEY_sign_init : EVP_PKEY_CTX -> Z;
  EVP_PKEY_verify_init : EVP_PKEY_CTX -> Z;
  EVP_PKEY_CTX_set_signature_md : EVP_PKEY_CTX -> EVP_MD -> Z;
  EVP_PKEY_CTX_set_rsa_padding : EVP_PKEY_CTX -> Z -> Z;
  EVP_PKEY_CTX_set_rsa_pss_saltlen : EVP_PKEY_CTX -> Z -> Z;
  EVP_PKEY_CTX_set_rsa_mgf1_md : EVP_PKEY_CTX -> EVP_MD -> Z;
  Cryptography_EVP_PKEY_encrypt : EVP_PKEY_CTX -> Z -> bytes -> LibOut;
  Cryptography_EVP_PKEY_decrypt : EVP_PKEY_CTX -> Z -> bytes -> LibOut;
  RSA_public_encrypt : bytes -> RSA -> Z -> LibOut;
  RSA_private_decrypt : bytes -> RSA -> Z -> LibOut;
  EVP_PKEY_sign : EVP_PKEY_CTX -> bool -> Z -> bytes -> LibOut;
  EVP_PKEY_verify : EVP_PKEY_CTX -> bytes -> bytes -> LibOut;
  EVP_SignFinal : HashCtx -> EVP_PKEY -> LibOut;
  EVP_VerifyFinal : HashCtx -> bytes -> EVP_PKEY -> LibOut;
  RSA_padding_add_PKCS1_PSS : RSA -> bytes -> EVP_MD -> Z -> LibOut;
  RSA_private_encrypt : Z -> bytes -> RSA -> Z -> LibOut;
  RSA_public_decrypt : bytes -> RSA -> Z -> LibOut;
  RSA_verify_PKCS1_PSS : RSA -> bytes -> EVP_MD -> bytes -> Z -> LibOut
}.

(** ** The store, and the monad of the module's functions *)

(** What the module's functions read and change: OpenSSL's error queue, the
    [_ctx] attribute of every [hashes.Hash] object created so far ([None]
    once finalized), and a log of the calls made to the collaborators, most
    recent last. *)
Record World : Type := mkWorld {
  err_queue : list OpenSSLError;
  heap : list (option HashCtx);
  trace : list string
}.

Definition empty_world : World := mkWorld [] [] [].

Definition M (A : Type) : Type := World -> result A * World.

Definition ret {A} (a : A) : M A := fun w => (Ok a, w).
Definition raise {A} (e : exn) : M A := fun w => (Raise e, w).
Definition bind {A B} (m : M A) (k : A -> M B) : M B :=
  fun w => match m w with
           | (Ok a, w') => k a w'
           | (Raise e, w') => (Raise e, w')
           end.

Declare Scope py_scope.
Delimit Scope py_scope with py.
Notation "x <- m ;; k" := (bind m (fun x => k))
  (at level 100, m at next level, right associativity) : py_scope.
Notation "m ;; k" := (bind m (fun _ => k))
  (at level 100, right associativity) : py_scope.
Local Open Scope py_scope.

(** [assert b] *)
Definition assert_ (b : bool) : M unit :=
  if b then ret tt else raise AssertionError.

(** [if b: body] *)
Definition when (b : bool) (body : M unit) : M unit :=
  if b then body else ret tt.

Definition lift {A} (r : result A) : M A := fun w => (r, w).

Definition log (name : string) : M unit :=
  fun w => (Ok tt, mkWorld (err_queue w) (heap w) (trace w ++ [name])).

(** A call to a collaborator that returns a value and queues no error. *)
Definition call {A} (name : string) (a : A) : M A := log name ;; ret a.

(** A call to a collaborator that may queue errors. *)
Definition call_out (name : string) (o : LibOut) : M LibOut :=
  log name ;;
  fun w => (Ok o, mkWorld (err_queue w ++ out_errors o) (heap w) (trace w)).

(** [backend._consume_errors()]: the queue's entries, oldest first; the queue
    is left empty. *)
Definition _consume_errors : M (list OpenSSLError) :=
  fun w => (Ok (err_queue w), mkWorld [] (heap w) (trace w)).

(** [errors[0]] *)
Definition first_error (errors : list OpenSSLError) : M OpenSSLError :=
  match errors with
  | e :: _ => ret e
  | [] => raise IndexError
  end.

(** The outcome and the final store of a computation. *)
Definition outcome {A} (m : M A) (w : World) : result A := fst (m w).
Definition after {A} (m : M A) (w : World) : World := snd (m w).

(** The [n] bytes of a buffer made by [ffi.new] with size [n], after a call
    wrote [b] to it. *)
Definition buffer (n : Z) (b : bytes) : bytes :=
  firstn (Z.to_nat n) (b ++ repeat Byte.x00 (Z.to_nat n)).

Fixpoint set_nth {A} (n : nat) (x : A) (l : list A) : list A :=
  match l, n with
  | [], _ => []
  | _ :: t, O => x :: t
  | h :: t, S n' => h :: set_nth n' x t
  end.

(** ** [hashes.Hash] *)

(** A [hashes.Hash] object: its algorithm, and where the store keeps its
    [_ctx] attribute. *)
Record Hash : Type := mkHash {
  algorithm : HashAlgorithm;
  hash_ref : nat
}.

(** [h._ctx] ([None] when the context has been finalized). *)
Definition hash__ctx (h : Hash) : M (option HashCtx) :=
  fun w => (Ok (nth (hash_ref h) (heap w) None), w).

Definition set_hash__ctx (h : Hash) (c : option HashCtx) : M unit :=
  fun w => (Ok tt, mkWorld (err_queue w) (set_nth (hash_ref h) c (heap w))
                           (trace w)).

(** The message of [AlreadyFinalized] in [hashes.Hash]. *)
Definition msg_hash_finalized : string := "Context was already finalized.".

(** Modelled from the spec: the class [hashes.Hash] of
    [primitives/hashes.py], which the module imports and whose [_ctx]
    attribute it tests.  A new object is active, with nothing hashed yet. *)
Definition Hash_new (alg : HashAlgorithm) : M Hash :=
  log "hashes.Hash" ;;
  fun w => (Ok (mkHash alg (List.length (heap w))),
            mkWorld (err_queue w) (heap w ++ [Some (mkHashCtx alg [])])
                    (trace w)).

(** Modelled from the spec: [hashes.Hash.update], which appends to the
    running hash of an active object and fails with [AlreadyFinalized] once
    the object is finalized. *)
Definition Hash_update (h : Hash) (data : bytes) : M unit :=
  c <- hash__ctx h ;;
  match c with
  | None => raise (AlreadyFinalized msg_hash_finalized)
  | Some hc =>
      log "Hash.update" ;;
      set_hash__ctx h (Some (mkHashCtx (hc_algorithm hc) (hc_data hc ++ data)))
  end.

(** Modelled from the spec: [hashes.Hash.finalize], which returns the
    digest of an active object and finalizes it, and fails with
    [AlreadyFinalized] when the object is finalized already. *)
Definition Hash_finalize (L : Lib) (h : Hash) : M bytes :=
  c <- hash__ctx h ;;
  match c with
  | None => raise (AlreadyFinalized msg_hash_finalized)
  | Some hc =>
      log "Hash.finalize" ;;
      set_hash__ctx h None ;;
      ret (hash_digest L (hc_algorithm hc) (hc_data hc))
  end.

(** ** Key objects *)

Record _RSAPrivateKey : Type := mkPrivateKey {
  priv_rsa_cdata : RSA;
  priv_evp_pkey : EVP_PKEY;
  priv_key_size : Z
}.

Record _RSAPublicKey : Type := mkPublicKey {
  pub_rsa_cdata : RSA;
  pub_evp_pkey : EVP_PKEY;
  pub_key_size : Z
}.

(** The [key] argument of the module-level functions. *)
Inductive RSAKey : Type :=
| PrivateKey (k : _RSAPrivateKey)
| PublicKey (k : _RSAPublicKey).

(** [isinstance(key, _RSAPublicKey)] *)
Definition is_public (key : RSAKey) : bool :=
  match key with PublicKey _ => true | PrivateKey _ => false end.

Definition _evp_pkey (key : RSAKey) : EVP_PKEY :=
  match key with
  | PrivateKey k => priv_evp_pkey k
  | PublicKey k => pub_evp_pkey k
  end.

Definition _rsa_cdata (key : RSAKey) : RSA :=
  match key with
  | PrivateKey k => priv_rsa_cdata k
  | PublicKey k => pub_rsa_cdata k
  end.

(** The body shared by [_RSAPrivateKey.__init__] and
    [_RSAPublicKey.__init__]: the [EVP_PKEY] of the key and its size in
    bits. *)
Definition key_init (L : Lib) (rsa_cdata : RSA) : M (EVP_PKEY * Z) :=
  ok <- call "EVP_PKEY_new" (EVP_PKEY_new L) ;;
  assert_ ok ;;
  res <- call "EVP_PKEY_set1_RSA" (EVP_PKEY_set1_RSA L rsa_cdata) ;;
  assert_ (res =? 1) ;;
  bits <- call "BN_num_bits" (BN_num_bits L (rsa_n rsa_cdata)) ;;
  ret (mkPKEY rsa_cdata, bits).

Definition new_RSAPrivateKey (L : Lib) (rsa_cdata : RSA) : M _RSAPrivateKey :=
  pk <- key_init L rsa_cdata ;;
  ret (mkPrivateKey rsa_cdata (fst pk) (snd pk)).

Definition new_RSAPublicKey (L : Lib) (rsa_cdata : RSA) : M _RSAPublicKey :=
  pk <- key_init L rsa_cdata ;;
  ret (mkPublicKey rsa_cdata (fst pk) (snd pk)).

(** ** Encryption and decryption *)

Definition nonempty {A} (l : list A) : bool :=
  match l with [] => false | _ => true end.

Definition decoding_errors (L : Lib) : list Z :=
  [RSA_R_BLOCK_TYPE_IS_NOT_01 L; RSA_R_BLOCK_TYPE_IS_NOT_02 L]
  ++ (if Cryptography_HAS_RSA_R_PKCS_DECODING_ERROR L
      then [RSA_R_PKCS_DECODING_ERROR L] else []).

(** [x in l] on integers *)
Definition mem (x : Z) (l : list Z) : bool := existsb (Z.eqb x) l.

(** [_handle_rsa_enc_dec_error(backend, key)] *)
Definition _handle_rsa_enc_dec_error (L : Lib) (key : RSAKey) : M unit :=
  errors <- _consume_errors ;;
  assert_ (nonempty errors) ;;
  e0 <- first_error errors ;;
  assert_ (err_lib e0 =? ERR_LIB_RSA L) ;;
  if is_public key then
    e0 <- first_error errors ;;
    assert_ (err_reason e0 =? RSA_R_DATA_TOO_LARGE_FOR_KEY_SIZE L) ;;
    raise (ValueError msg_data_too_long)
  else
    e0 <- first_error errors ;;
    assert_ (mem (err_reason e0) (decoding_errors L)) ;;
    raise (ValueError msg_decryption_failed).

Definition new_ctx (pkey : EVP_PKEY) : EVP_PKEY_CTX :=
  mkCTX pkey None None None None None.

(** [_enc_dec_rsa_pkey_ctx(backend, key, data, padding_enum)] *)
Definition _enc_dec_rsa_pkey_ctx
    (L : Lib) (key : RSAKey) (data : bytes) (padding_enum : Z) : M bytes :=
  ok <- call "EVP_PKEY_CTX_new" (EVP_PKEY_CTX_new L (_evp_pkey key)) ;;
  assert_ ok ;;
  let pkey_ctx := new_ctx (_evp_pkey key) in
  res <- (if is_public key
          then call "EVP_PKEY_encrypt_init" (EVP_PKEY_encrypt_init L pkey_ctx)
          else call "EVP_PKEY_decrypt_init"
                    (EVP_PKEY_decrypt_init L pkey_ctx)) ;;
  assert_ (res =? 1) ;;
  let pkey_ctx :=
    set_op pkey_ctx (if is_public key then OpEncrypt else OpDecrypt) in
  res <- call "EVP_PKEY_CTX_set_rsa_padding"
              (EVP_PKEY_CTX_set_rsa_padding L pkey_ctx padding_enum) ;;
  assert_ (0 <? res) ;;
  let pkey_ctx := set_rsa_padding pkey_ctx padding_enum in
  buf_size <- call "EVP_PKEY_size" (EVP_PKEY_size L (_evp_pkey key)) ;;
  assert_ (0 <? buf_size) ;;
  o <- (if is_public key
        then call_out "Cryptography_EVP_PKEY_encrypt"
               (Cryptography_EVP_PKEY_encrypt L pkey_ctx buf_size data)
        else call_out "Cryptography_EVP_PKEY_decrypt"
               (Cryptography_EVP_PKEY_decrypt L pkey_ctx buf_size data)) ;;
  when (out_res o <=? 0) (_handle_rsa_enc_dec_error L key) ;;
  ret (slice_to (buffer buf_size (out_buf o)) (out_len o)).

(** [_enc_dec_rsa_098(backend, key, data, padding_enum)] *)
Definition _enc_dec_rsa_098
    (L : Lib) (key : RSAKey) (data : bytes) (padding_enum : Z) : M bytes :=
  key_size <- call "RSA_size" (RSA_size L (_rsa_cdata key)) ;;
  assert_ (0 <? key_size) ;;
  o <- (if is_public key
        then call_out "RSA_public_encrypt"
               (RSA_public_encrypt L data (_rsa_cdata key) padding_enum)
        else call_out "RSA_private_decrypt"
               (RSA_private_decrypt L data (_rsa_cdata key) padding_enum)) ;;
  when (out_res o <? 0) (_handle_rsa_enc_dec_error L key) ;;
  ret (slice_to (buffer key_size (out_buf o)) (out_res o)).

(** [padding._label is not None and padding._label != b""] *)
Definition has_label (label : option bytes) : bool :=
  match label with
  | None => false
  | Some l => nonempty l
  end.

(** The padding checks of [_enc_dec_rsa], which end in the value of
    [padding_enum]. *)
Definition enc_dec_padding_enum (L : Lib) (padding : PyPadding) : M Z :=
  match padding with
  | NotAPadding => raise (TypeError msg_padding_type)
  | Padding PKCS1v15 => ret (RSA_PKCS1_PADDING L)
  | Padding (OAEP o) =>
      match oaep_mgf o with
      | OtherMGF => raise (UnsupportedAlgorithm msg_mgf1_only UNSUPPORTED_MGF)
      | MGF1 mgf_algorithm =>
          when (negb (is_SHA1 mgf_algorithm))
               (raise (UnsupportedAlgorithm msg_oaep_mgf1_sha1
                                            UNSUPPORTED_HASH)) ;;
          when (has_label (oaep_label o))
               (raise (ValueError msg_oaep_labels)) ;;
          when (negb (is_SHA1 (oaep_algorithm o)))
               (raise (UnsupportedAlgorithm msg_oaep_sha1 UNSUPPORTED_HASH)) ;;
          ret (RSA_PKCS1_OAEP_PADDING L)
      end
  | Padding p =>
      raise (UnsupportedAlgorithm (msg_not_supported p) UNSUPPORTED_PADDING)
  end.

(** [_enc_dec_rsa(backend, key, data, padding)] *)
Definition _enc_dec_rsa
    (L : Lib) (key : RSAKey) (data : bytes) (padding : PyPadding) : M bytes :=
  padding_enum <- enc_dec_padding_enum L padding ;;
  if Cryptography_HAS_PKEY_CTX L
  then _enc_dec_rsa_pkey_ctx L key data padding_enum
  else _enc_dec_rsa_098 L key data padding_enum.

(** [_RSAPublicKey.encrypt(plaintext, padding)] *)
Definition encrypt (L : Lib) (self : _RSAPublicKey)
    (plaintext : bytes) (padding : PyPadding) : M bytes :=
  _enc_dec_rsa L (PublicKey self) plaintext padding.

(** [_RSAPrivateKey.decrypt(ciphertext, padding)] *)
Definition decrypt (L : Lib) (self : _RSAPrivateKey)
    (ciphertext : bytes) (padding : PyPadding) : M bytes :=
  let key_size_bytes := ceil_div8 (priv_key_size self) in
  if negb (key_size_bytes =? len ciphertext)
  then raise (ValueError msg_ciphertext_length)
  else _enc_dec_rsa L (PrivateKey self) ciphertext padding.

(** [_RSAPrivateKey.public_key()] *)
Definition public_key (L : Lib) (self : _RSAPrivateKey) : M _RSAPublicKey :=
  ok <- call "RSA_new" (RSA_new L) ;;
  assert_ ok ;;
  e <- call "BN_dup" (rsa_e (priv_rsa_cdata self)) ;;
  n <- call "BN_dup" (rsa_n (priv_rsa_cdata self)) ;;
  let ctx := mkRSA n e None None None None None None false in
  res <- call "RSA_blinding_on" (RSA_blinding_on L ctx) ;;
  assert_ (res =? 1) ;;
  let ctx := mkRSA (rsa_n ctx) (rsa_e ctx) None None None None None None
                   true in
  new_RSAPublicKey L ctx.

(** ** Key numbers *)

(** The objects [rsa.RSAPublicNumbers] and [rsa.RSAPrivateNumbers], as
    records of the integers they are made from. *)
Record RSAPublicNumbers : Type := mkPublicNumbers {
  pn_e : Z;
  pn_n : Z
}.

Record RSAPrivateNumbers : Type := mkPrivateNumbers {
  pn_p : Z;
  pn_q : Z;
  pn_d : Z;
  pn_dmp1 : Z;
  pn_dmq1 : Z;
  pn_iqmp : Z;
  pn_public_numbers : RSAPublicNumbers
}.

(** [_RSAPublicKey.public_numbers()].  [_bn_to_int] is the backend's
    conversion of a BIGNUM to an integer, a function of the BIGNUM. *)
Definition public_numbers (_bn_to_int : option Z -> result Z)
    (self : _RSAPublicKey) : M RSAPublicNumbers :=
  e <- lift (_bn_to_int (rsa_e (pub_rsa_cdata self))) ;;
  n <- lift (_bn_to_int (rsa_n (pub_rsa_cdata self))) ;;
  ret (mkPublicNumbers e n).

(** [_RSAPrivateKey.private_numbers()]: the arguments are evaluated in the
    order in which they are written. *)
Definition private_numbers (_bn_to_int : option Z -> result Z)
    (self : _RSAPrivateKey) : M RSAPrivateNumbers :=
  p <- lift (_bn_to_int (rsa_p (priv_rsa_cdata self))) ;;
  q <- lift (_bn_to_int (rsa_q (priv_rsa_cdata self))) ;;
  d <- lift (_bn_to_int (rsa_d (priv_rsa_cdata self))) ;;
  dmp1 <- lift (_bn_to_int (rsa_dmp1 (priv_rsa_cdata self))) ;;
  dmq1 <- lift (_bn_to_int (rsa_dmq1 (priv_rsa_cdata self))) ;;
  iqmp <- lift (_bn_to_int (rsa_iqmp (priv_rsa_cdata self))) ;;
  e <- lift (_bn_to_int (rsa_e (priv_rsa_cdata self))) ;;
  n <- lift (_bn_to_int (rsa_n (priv_rsa_cdata self))) ;;
  ret (mkPrivateNumbers p q d dmp1 dmq1 iqmp (mkPublicNumbers e n)).

(** ** Signature contexts *)

(** The bound method [__init__] stores in [_finalize_method]. *)
Inductive FinalizeMethod : Type :=
| finalize_pkey_ctx
| finalize_pkcs1
| finalize_pss.

(** The attributes of an [_RSASignatureContext].  [_padding_enum] is set on
    the [EVP_PKEY_CTX] path only. *)
Record _RSASignatureContext : Type := mkSignatureContext {
  s_private_key : _RSAPrivateKey;
  s_pkey_size : Z;
  s_finalize_method : FinalizeMethod;
  s_padding_enum : option Z;
  s_padding : AsymmetricPadding;
  s_algorithm : HashAlgorithm;
  s_hash_ctx : Hash
}.

(** [_RSASignatureContext.__init__(backend, private_key, padding, algorithm)] *)
Definition signature_context_init (L : Lib) (private_key : _RSAPrivateKey)
    (padding : PyPadding) (alg : HashAlgorithm) : M _RSASignatureContext :=
  match padding with
  | NotAPadding => raise (TypeError msg_padding_provider)
  | Padding p =>
      pkey_size <- call "EVP_PKEY_size"
                        (EVP_PKEY_size L (priv_evp_pkey private_key)) ;;
      method <-
        match p with
        | PKCS1v15 =>
            if Cryptography_HAS_PKEY_CTX L
            then ret (finalize_pkey_ctx, Some (RSA_PKCS1_PADDING L))
            else ret (finalize_pkcs1, None)
        | PSS pss =>
            match pss_mgf pss with
            | OtherMGF =>
                raise (UnsupportedAlgorithm msg_mgf1_only UNSUPPORTED_MGF)
            | MGF1 mgf_algorithm =>
                (* Size of key in bytes - 2 is the maximum
                   PSS signature length (salt length is checked later) *)
                assert_ (0 <? pkey_size) ;;
                when (pkey_size - digest_size alg - 2 <? 0)
                     (raise (ValueError msg_digest_too_large)) ;;
                when (negb (_mgf1_hash_supported L mgf_algorithm))
                     (raise (UnsupportedAlgorithm msg_mgf1_old_openssl
                                                  UNSUPPORTED_HASH)) ;;
                if Cryptography_HAS_PKEY_CTX L
                then ret (finalize_pkey_ctx, Some (RSA_PKCS1_PSS_PADDING L))
                else ret (finalize_pss, None)
            end
        | _ =>
            raise (UnsupportedAlgorithm (msg_not_supported p)
                                        UNSUPPORTED_PADDING)
        end ;;
      hash_ctx <- Hash_new alg ;;
      ret (mkSignatureContext private_key pkey_size (fst method) (snd method)
                              p alg hash_ctx)
  end.

(** [_RSAPrivateKey.signer(padding, algorithm)] *)
Definition signer (L : Lib) (self : _RSAPrivateKey)
    (padding : PyPadding) (alg : HashAlgorithm) : M _RSASignatureContext :=
  signature_context_init L self padding alg.

(** [_RSASignatureContext.update(data)] *)
Definition sign_update (self : _RSASignatureContext) (data : bytes) : M unit :=
  Hash_update (s_hash_ctx self) data.

(** [self._padding_enum], an attribute [__init__] sets on the
    [EVP_PKEY_CTX] path only. *)
Definition get_padding_enum (e : option Z) : M Z :=
  match e with
  | Some v => ret v
  | None => raise AttributeError
  end.

(** [EVP_get_digestbyname(name.encode("ascii"))] and the [assert] on it. *)
Definition get_digest (L : Lib) (name : string) : M EVP_MD :=
  md <- call "EVP_get_digestbyname" (EVP_get_digestbyname L name) ;;
  match md with
  | Some m => ret m
  | None => raise AssertionError
  end.

(** The PSS settings that [_finalize_pkey_ctx] and [_verify_pkey_ctx] make
    on the [EVP_PKEY_CTX] when the padding is PSS. *)
Definition pkey_ctx_set_pss (L : Lib) (pkey_ctx : EVP_PKEY_CTX)
    (padding : AsymmetricPadding) (key_size : Z) (hash_ctx : Hash)
    : M EVP_PKEY_CTX :=
  match padding with
  | PSS pss =>
      saltlen <- lift (_get_rsa_pss_salt_length pss key_size
                         (digest_size (algorithm hash_ctx))) ;;
      res <- call "EVP_PKEY_CTX_set_rsa_pss_saltlen"
                  (EVP_PKEY_CTX_set_rsa_pss_saltlen L pkey_ctx saltlen) ;;
      assert_ (0 <? res) ;;
      let pkey_ctx := set_rsa_pss_saltlen pkey_ctx saltlen in
      if Cryptography_HAS_MGF1_MD L then
        (* MGF1 MD is configurable in OpenSSL 1.0.1+ *)
        match pss_mgf pss with
        | MGF1 mgf_algorithm =>
            mgf1_md <- get_digest L (hash_name mgf_algorithm) ;;
            res <- call "EVP_PKEY_CTX_set_rsa_mgf1_md"
                        (EVP_PKEY_CTX_set_rsa_mgf1_md L pkey_ctx mgf1_md) ;;
            assert_ (0 <? res) ;;
            ret (set_rsa_mgf1_md pkey_ctx mgf1_md)
        | OtherMGF => raise AttributeError
        end
      else ret pkey_ctx
  | _ => ret pkey_ctx
  end.

(** [_RSASignatureContext._finalize_pkey_ctx(evp_md)] *)
Definition _finalize_pkey_ctx (L : Lib) (self : _RSASignatureContext)
    (evp_md : EVP_MD) : M bytes :=
  let pkey := priv_evp_pkey (s_private_key self) in
  ok <- call "EVP_PKEY_CTX_new" (EVP_PKEY_CTX_new L pkey) ;;
  assert_ ok ;;
  let pkey_ctx := new_ctx pkey in
  res <- call "EVP_PKEY_sign_init" (EVP_PKEY_sign_init L pkey_ctx) ;;
  assert_ (res =? 1) ;;
  let pkey_ctx := set_op pkey_ctx OpSign in
  res <- call "EVP_PKEY_CTX_set_signature_md"
              (EVP_PKEY_CTX_set_signature_md L pkey_ctx evp_md) ;;
  assert_ (0 <? res) ;;
  let pkey_ctx := set_signature_md pkey_ctx evp_md in
  padding_enum <- get_padding_enum (s_padding_enum self) ;;
  res <- call "EVP_PKEY_CTX_set_rsa_padding"
              (EVP_PKEY_CTX_set_rsa_padding L pkey_ctx padding_enum) ;;
  assert_ (0 <? res) ;;
  let pkey_ctx := set_rsa_padding pkey_ctx padding_enum in
  pkey_ctx <- pkey_ctx_set_pss L pkey_ctx (s_padding self)
                (priv_key_size (s_private_key self)) (s_hash_ctx self) ;;
  data_to_sign <- Hash_finalize L (s_hash_ctx self) ;;
  o <- call_out "EVP_PKEY_sign"
                (EVP_PKEY_sign L pkey_ctx false 0 data_to_sign) ;;
  assert_ (out_res o =? 1) ;;
  let buflen := out_len o in
  o <- call_out "EVP_PKEY_sign"
                (EVP_PKEY_sign L pkey_ctx true buflen data_to_sign) ;;
  if negb (out_res o =? 1) then
    errors <- _consume_errors ;;
    e0 <- first_error errors ;;
    assert_ (err_lib e0 =? ERR_LIB_RSA L) ;;
    if err_reason e0 =? RSA_R_DATA_TOO_LARGE_FOR_KEY_SIZE L
    then raise (ValueError msg_salt_too_long)
    else if err_reason e0 =? RSA_R_DIGEST_TOO_BIG_FOR_RSA_KEY L
    then raise (ValueError msg_digest_too_large)
    else raise AssertionError
  else ret (buffer buflen (out_buf o)).

(** [_RSASignatureContext._finalize_pkcs1(evp_md)] *)
Definition _finalize_pkcs1 (L : Lib) (self : _RSASignatureContext)
    (evp_md : EVP_MD) : M bytes :=
  c <- hash__ctx (s_hash_ctx self) ;;
  match c with
  | None => raise (AlreadyFinalized msg_already_finalized)
  | Some hc =>
      o <- call_out "EVP_SignFinal"
             (EVP_SignFinal L hc (priv_evp_pkey (s_private_key self))) ;;
      Hash_finalize L (s_hash_ctx self) ;;
      if out_res o =? 0 then
        errors <- _consume_errors ;;
        e0 <- first_error errors ;;
        assert_ (err_lib e0 =? ERR_LIB_RSA L) ;;
        assert_ (err_reason e0 =? RSA_R_DIGEST_TOO_BIG_FOR_RSA_KEY L) ;;
        raise (ValueError msg_digest_too_large)
      else ret (slice_to (buffer (s_pkey_size self) (out_buf o)) (out_len o))
  end.

(** The padding as [_get_rsa_pss_salt_length] reads it in the PSS methods,
    which [__init__] selects for a PSS padding only. *)
Definition as_pss (p : AsymmetricPadding) : M PSS_t :=
  match p with
  | PSS pss => ret pss
  | _ => raise AttributeError
  end.

(** [_RSASignatureContext._finalize_pss(evp_md)] *)
Definition _finalize_pss (L : Lib) (self : _RSASignatureContext)
    (evp_md : EVP_MD) : M bytes :=
  let rsa := priv_rsa_cdata (s_private_key self) in
  data_to_sign <- Hash_finalize L (s_hash_ctx self) ;;
  pss <- as_pss (s_padding self) ;;
  saltlen <- lift (_get_rsa_pss_salt_length pss
                     (priv_key_size (s_private_key self))
                     (len data_to_sign)) ;;
  o <- call_out "RSA_padding_add_PKCS1_PSS"
         (RSA_padding_add_PKCS1_PSS L rsa data_to_sign evp_md saltlen) ;;
  let padded := buffer (s_pkey_size self) (out_buf o) in
  if negb (out_res o =? 1) then
    errors <- _consume_errors ;;
    e0 <- first_error errors ;;
    assert_ (err_lib e0 =? ERR_LIB_RSA L) ;;
    assert_ (err_reason e0 =? RSA_R_DATA_TOO_LARGE_FOR_KEY_SIZE L) ;;
    raise (ValueError msg_salt_too_long)
  else
    o <- call_out "RSA_private_encrypt"
           (RSA_private_encrypt L (s_pkey_size self) padded rsa
                                (RSA_NO_PADDING L)) ;;
    let sig_len := out_res o in
    assert_ (negb (sig_len =? -1)) ;;
    ret (slice_to (buffer (s_pkey_size self) (out_buf o)) sig_len).

(** [_RSASignatureContext.finalize()] *)
Definition finalize (L : Lib) (self : _RSASignatureContext) : M bytes :=
  evp_md <- get_digest L (hash_name (s_algorithm self)) ;;
  match s_finalize_method self with
  | finalize_pkey_ctx => _finalize_pkey_ctx L self evp_md
  | finalize_pkcs1 => _finalize_pkcs1 L self evp_md
  | finalize_pss => _finalize_pss L self evp_md
  end.

(** ** Verification contexts *)

(** The bound method [__init__] stores in [_verify_method]. *)
Inductive VerifyMethod : Type :=
| verify_pkey_ctx
| verify_pkcs1
| verify_pss.

Record _RSAVerificationContext : Type := mkVerificationContext {
  v_public_key : _RSAPublicKey;
  v_signature : bytes;
  v_pkey_size : Z;
  v_verify_method : VerifyMethod;
  v_padding_enum : option Z;
  v_padding : AsymmetricPadding;
  v_algorithm : HashAlgorithm;
  v_hash_ctx : Hash
}.

(** [_RSAVerificationContext.__init__(backend, public_key, signature,
    padding, algorithm)] *)
Definition verification_context_init (L : Lib) (public_key : _RSAPublicKey)
    (signature : bytes) (padding : PyPadding) (alg : HashAlgorithm)
    : M _RSAVerificationContext :=
  match padding with
  | NotAPadding => raise (TypeError msg_padding_provider)
  | Padding p =>
      pkey_size <- call "EVP_PKEY_size"
                        (EVP_PKEY_size L (pub_evp_pkey public_key)) ;;
      method <-
        match p with
        | PKCS1v15 =>
            if Cryptography_HAS_PKEY_CTX L
            then ret (verify_pkey_ctx, Some (RSA_PKCS1_PADDING L))
            else ret (verify_pkcs1, None)
        | PSS pss =>
            match pss_mgf pss with
            | OtherMGF =>
                raise (UnsupportedAlgorithm msg_mgf1_only UNSUPPORTED_MGF)
            | MGF1 mgf_algorithm =>
                (* Size of key in bytes - 2 is the maximum
                   PSS signature length (salt length is checked later) *)
                assert_ (0 <? pkey_size) ;;
                when (pkey_size - digest_size alg - 2 <? 0)
                     (raise (ValueError msg_digest_too_large_verify)) ;;
                when (negb (_mgf1_hash_supported L mgf_algorithm))
                     (raise (UnsupportedAlgorithm msg_mgf1_old_openssl
                                                  UNSUPPORTED_HASH)) ;;
                if Cryptography_HAS_PKEY_CTX L
                then ret (verify_pkey_ctx, Some (RSA_PKCS1_PSS_PADDING L))
                else ret (verify_pss, None)
            end
        | _ =>
            raise (UnsupportedAlgorithm (msg_not_supported p)
                                        UNSUPPORTED_PADDING)
        end ;;
      hash_ctx <- Hash_new alg ;;
      ret (mkVerificationContext public_key signature pkey_size
                                 (fst method) (snd method) p alg hash_ctx)
  end.

(** [_RSAPublicKey.verifier(signature, padding, algorithm)] *)
Definition verifier (L : Lib) (self : _RSAPublicKey) (signature : bytes)
    (padding : PyPadding) (alg : HashAlgorithm) : M _RSAVerificationContext :=
  verification_context_init L self signature padding alg.

(** [_RSAVerificationContext.update(data)] *)
Definition verify_update (self : _RSAVerificationContext) (data : bytes)
    : M unit :=
  Hash_update (v_hash_ctx self) data.

(** The end shared by the three verification methods: the queue is consumed,
    it must hold an error, and the signature is reported invalid. *)
Definition raise_invalid_signature : M unit :=
  errors <- _consume_errors ;;
  assert_ (nonempty errors) ;;
  raise InvalidSignature.

(** [_RSAVerificationContext._verify_pkey_ctx(evp_md)] *)
Definition _verify_pkey_ctx (L : Lib) (self : _RSAVerificationContext)
    (evp_md : EVP_MD) : M unit :=
  let pkey := pub_evp_pkey (v_public_key self) in
  ok <- call "EVP_PKEY_CTX_new" (EVP_PKEY_CTX_new L pkey) ;;
  assert_ ok ;;
  let pkey_ctx := new_ctx pkey in
  res <- call "EVP_PKEY_verify_init" (EVP_PKEY_verify_init L pkey_ctx) ;;
  assert_ (res =? 1) ;;
  let pkey_ctx := set_op pkey_ctx OpVerify in
  res <- call "EVP_PKEY_CTX_set_signature_md"
              (EVP_PKEY_CTX_set_signature_md L pkey_ctx evp_md) ;;
  assert_ (0 <? res) ;;
  let pkey_ctx := set_signature_md pkey_ctx evp_md in
  padding_enum <- get_padding_enum (v_padding_enum self) ;;
  res <- call "EVP_PKEY_CTX_set_rsa_padding"
              (EVP_PKEY_CTX_set_rsa_padding L pkey_ctx padding_enum) ;;
  assert_ (0 <? res) ;;
  let pkey_ctx := set_rsa_padding pkey_ctx padding_enum in
  pkey_ctx <- pkey_ctx_set_pss L pkey_ctx (v_padding self)
                (pub_key_size (v_public_key self)) (v_hash_ctx self) ;;
  data_to_verify <- Hash_finalize L (v_hash_ctx self) ;;
  o <- call_out "EVP_PKEY_verify"
         (EVP_PKEY_verify L pkey_ctx (v_signature self) data_to_verify) ;;
  (* The previous call can return negative numbers in the event of an
     error. This is not a signature failure but we need to fail if it
     occurs. *)
  assert_ (0 <=? out_res o) ;;
  when (out_res o =? 0) raise_invalid_signature.

(** [_RSAVerificationContext._verify_pkcs1(evp_md)] *)
Definition _verify_pkcs1 (L : Lib) (self : _RSAVerificationContext)
    (evp_md : EVP_MD) : M unit :=
  c <- hash__ctx (v_hash_ctx self) ;;
  match c with
  | None => raise (AlreadyFinalized msg_already_finalized)
  | Some hc =>
      o <- call_out "EVP_VerifyFinal"
             (EVP_VerifyFinal L hc (v_signature self)
                              (pub_evp_pkey (v_public_key self))) ;;
      Hash_finalize L (v_hash_ctx self) ;;
      assert_ (0 <=? out_res o) ;;
      when (out_res o =? 0) raise_invalid_signature
  end.

(** [_RSAVerificationContext._verify_pss(evp_md)] *)
Definition _verify_pss (L : Lib) (self : _RSAVerificationContext)
    (evp_md : EVP_MD) : M unit :=
  let rsa := pub_rsa_cdata (v_public_key self) in
  o <- call_out "RSA_public_decrypt"
         (RSA_public_decrypt L (v_signature self) rsa (RSA_NO_PADDING L)) ;;
  let buf := buffer (v_pkey_size self) (out_buf o) in
  when (negb (out_res o =? v_pkey_size self)) raise_invalid_signature ;;
  data_to_verify <- Hash_finalize L (v_hash_ctx self) ;;
  pss <- as_pss (v_padding self) ;;
  saltlen <- lift (_get_rsa_pss_salt_length pss
                     (pub_key_size (v_public_key self))
                     (len data_to_verify)) ;;
  o <- call_out "RSA_verify_PKCS1_PSS"
         (RSA_verify_PKCS1_PSS L rsa data_to_verify evp_md buf saltlen) ;;
  when (negb (out_res o =? 1)) raise_invalid_signature.

(** [_RSAVerificationContext.verify()] *)
Definition verify (L : Lib) (self : _RSAVerificationContext) : M unit :=
  evp_md <- get_digest L (hash_name (v_algorithm self)) ;;
  match v_verify_method self with
  | verify_pkey_ctx => _verify_pkey_ctx L self evp_md
  | verify_pkcs1 => _verify_pkcs1 L self evp_md
  | verify_pss => _verify_pss L self evp_md
  end.

(** ** Vocabulary of the specification *)

Definition SpecError_eqb (a b : SpecError) : bool :=
  match a, b with
  | UnsupportedPadding, UnsupportedPadding
  | UnsupportedMaskGenerationFunction, UnsupportedMaskGenerationFunction
  | UnsupportedHash, UnsupportedHash
  | UnsupportedFeature, UnsupportedFeature
  | KeyTooSmall, KeyTooSmall
  | DataTooLarge, DataTooLarge
  | DecryptionFailed, DecryptionFailed
  | InvalidSignatureError, InvalidSignatureError
  | AlreadyFinalizedError, AlreadyFinalizedError => true
  | _, _ => false
  end.

(** The outcome is a failure of the class [c]. *)
Definition fails_with {A} (r : result A) (c : SpecError) : bool :=
  match r with
  | Ok _ => false
  | Raise e =>
      match classify e with
      | Some c' => SpecError_eqb c c'
      | None => false
      end
  end.

(** The paddings the encryption and decryption entry point accepts. *)
Definition enc_dec_padding (p : AsymmetricPadding) : bool :=
  match p with
  | PKCS1v15 | OAEP _ => true
  | _ => false
  end.

(** The paddings a signature or verification context accepts. *)
Definition signature_padding (p : AsymmetricPadding) : bool :=
  match p with
  | PKCS1v15 | PSS _ => true
  | _ => false
  end.

(** The salt-length policy is one of the [MAX_LENGTH] sentinels. *)
Definition is_max_length (s : SaltLength) : bool :=
  match s with
  | MGF1_MAX_LENGTH | PSS_MAX_LENGTH => true
  | SaltInt _ => false
  end.

(** [c] is the ceiling of [x / 8]. *)
Definition is_ceil8 (x c : Z) : Prop := 8 * (c - 1) < x <= 8 * c.

Definition with_trace (w : World) (names : list string) : World :=
  mkWorld (err_queue w) (heap w) (trace w ++ names).

(** The exceptions that can leave the two functions that drive OpenSSL's
    encryption and decryption: a failed assertion, or one of the two
    [ValueError]s of [_handle_rsa_enc_dec_error]. *)
Definition crypt_failure (e : exn) : Prop :=
  e = AssertionError
  \/ e = ValueError msg_data_too_long
  \/ e = ValueError msg_decryption_failed.

(** The checks [__init__] makes on a PSS padding, in their order. *)
Definition pss_check (L : Lib) (pkey_size : Z) (pss : PSS_t)
    (alg : HashAlgorithm) (too_large : string) : option exn :=
  match pss_mgf pss with
  | OtherMGF => Some (UnsupportedAlgorithm msg_mgf1_only UNSUPPORTED_MGF)
  | MGF1 h =>
      if negb (0 <? pkey_size) then Some AssertionError
      else if pkey_size - digest_size alg - 2 <? 0
      then Some (ValueError too_large)
      else if negb (_mgf1_hash_supported L h)
      then Some (UnsupportedAlgorithm msg_mgf1_old_openssl UNSUPPORTED_HASH)
      else None
  end.

(** The store after a context has been created: the size of the key was
    asked for, and a new, active hash object exists. *)
Definition with_hash (w : World) (alg : HashAlgorithm) : World :=
  mkWorld (err_queue w) (heap w ++ [Some (mkHashCtx alg [])])
          ((trace w ++ ["EVP_PKEY_size"%string]) ++ ["hashes.Hash"%string]).

(** The library is reached by a decryption with the private key [self] and
    the padding [padding_enum], and its decryption primitive reports the
    failure [o]. *)
Definition decryption_fails (L : Lib) (self : _RSAPrivateKey) (ct : bytes)
    (padding_enum : Z) (o : LibOut) : Prop :=
  let pkey := priv_evp_pkey self in
  if Cryptography_HAS_PKEY_CTX L then
    EVP_PKEY_CTX_new L pkey = true
    /\ EVP_PKEY_decrypt_init L (new_ctx pkey) = 1
    /\ 0 < EVP_PKEY_CTX_set_rsa_padding L (set_op (new_ctx pkey) OpDecrypt)
                                        padding_enum
    /\ 0 < EVP_PKEY_size L pkey
    /\ o = Cryptography_EVP_PKEY_decrypt L
             (set_rsa_padding (set_op (new_ctx pkey) OpDecrypt) padding_enum)
             (EVP_PKEY_size L pkey) ct
    /\ out_res o <= 0
  else
    0 < RSA_size L (priv_rsa_cdata self)
    /\ o = RSA_private_decrypt L ct (priv_rsa_cdata self) padding_enum
    /\ out_res o < 0.

(** The library is reached by an encryption with the public key [self] and
    the padding [padding_enum], and its encryption primitive reports the
    failure [o]. *)
Definition encryption_fails (L : Lib) (self : _RSAPublicKey) (data : bytes)
    (padding_enum : Z) (o : LibOut) : Prop :=
  let pkey := pub_evp_pkey self in
  if Cryptography_HAS_PKEY_CTX L then
    EVP_PKEY_CTX_new L pkey = true
    /\ EVP_PKEY_encrypt_init L (new_ctx pkey) = 1
    /\ 0 < EVP_PKEY_CTX_set_rsa_padding L (set_op (new_ctx pkey) OpEncrypt)
                                        padding_enum
    /\ 0 < EVP_PKEY_size L pkey
    /\ o = Cryptography_EVP_PKEY_encrypt L
             (set_rsa_padding (set_op (new_ctx pkey) OpEncrypt) padding_enum)
             (EVP_PKEY_size L pkey) data
    /\ out_res o <= 0
  else
    0 < RSA_size L (pub_rsa_cdata self)
    /\ o = RSA_public_encrypt L data (pub_rsa_cdata self) padding_enum
    /\ out_res o < 0.

(** The exceptions a verification can end in: the signature is reported
    invalid, the context was used before, or an assertion or attribute
    access of the module failed. *)
Definition verification_failure (e : exn) : Prop :=
  e = InvalidSignature
  \/ (exists m, e = AlreadyFinalized m)
  \/ e = AssertionError
  \/ e = AttributeError.

(** The library is reached by a verification on the context [self], whose
    hash object is active, and reports the signature invalid, with an error
    in its queue: [EVP_VerifyFinal] or [EVP_PKEY_verify] returns 0, or
    [RSA_public_decrypt] does not return the key size, or
    [RSA_verify_PKCS1_PSS] does not return 1. *)
Definition verification_fails (L : Lib) (self : _RSAVerificationContext)
    (w : World) : Prop :=
  exists md hc,
    EVP_get_digestbyname L (hash_name (v_algorithm self)) = Some md
    /\ nth (hash_ref (v_hash_ctx self)) (heap w) None = Some hc
    /\ let dgst := hash_digest L (hc_algorithm hc) (hc_data hc) in
       let pkey := pub_evp_pkey (v_public_key self) in
       let rsa := pub_rsa_cdata (v_public_key self) in
       match v_verify_method self with
       | verify_pkcs1 =>
           let o := EVP_VerifyFinal L hc (v_signature self) pkey in
           out_res o = 0 /\ err_queue w ++ out_errors o <> []
       | verify_pss =>
           let o := RSA_public_decrypt L (v_signature self) rsa
                      (RSA_NO_PADDING L) in
           (out_res o <> v_pkey_size self
            /\ err_queue w ++ out_errors o <> [])
           \/ (out_res o = v_pkey_size self
               /\ exists pss salt,
                   v_padding self = PSS pss
                   /\ _get_rsa_pss_salt_length pss
                        (pub_key_size (v_public_key self)) (len dgst)
                      = Ok salt
                   /\ let o' := RSA_verify_PKCS1_PSS L rsa dgst md
                                  (buffer (v_pkey_size self) (out_buf o))
                                  salt in
                      out_res o' <> 1
                      /\ (err_queue w ++ out_errors o) ++ out_errors o'
                         <> [])
       | verify_pkey_ctx =>
           exists pe ctx,
             v_padding_enum self = Some pe
             /\ EVP_PKEY_CTX_new L pkey = true
             /\ EVP_PKEY_verify_init L (new_ctx pkey) = 1
             /\ 0 < EVP_PKEY_CTX_set_signature_md L
                      (set_op (new_ctx pkey) OpVerify) md
             /\ 0 < EVP_PKEY_CTX_set_rsa_padding L
                      (set_signature_md (set_op (new_ctx pkey) OpVerify) md)
                      pe
             /\ (forall w',
                    outcome
                      (pkey_ctx_set_pss L
                         (set_rsa_padding
                            (set_signature_md
                               (set_op (new_ctx pkey) OpVerify) md) pe)
                         (v_padding self) (pub_key_size (v_public_key self))
                         (v_hash_ctx self)) w' = Ok ctx)
             /\ let o := EVP_PKEY_verify L ctx (v_signature self) dgst in
                out_res o = 0 /\ err_queue w ++ out_errors o <> []
       end.

(** The paddings with which [_enc_dec_rsa] reaches the library: PKCS#1
    v1.5, and OAEP with MGF1 over SHA-1, SHA-1 and no label. *)
Definition supported_enc_padding (p : AsymmetricPadding) : bool :=
  match p with
  | PKCS1v15 => true
  | OAEP o =>
      match oaep_mgf o with
      | MGF1 h =>
          is_SHA1 h && negb (has_label (oaep_label o))
          && is_SHA1 (oaep_algorithm o)
      | OtherMGF => false
      end
  | _ => false
  end.

Definition padding_enum_of (L : Lib) (p : AsymmetricPadding) : Z :=
  match p with
  | PKCS1v15 => RSA_PKCS1_PADDING L
  | _ => RSA_PKCS1_OAEP_PADDING L
  end.

(** The length bound of a scheme for a key of [k] bytes, as the
    specification gives it: [k - 11] for PKCS#1 v1.5 and
    [k - 2 * hash_size - 2] for OAEP. *)
Definition max_message_length (k : Z) (p : AsymmetricPadding) : Z :=
  match p with
  | OAEP o => k - 2 * digest_size (oaep_algorithm o) - 2
  | _ => k - 11
  end.

(** What the round trip asks of the library on the [EVP_PKEY_CTX] path, for
    a key pair, a padding and a length bound: the contexts can be set up,
    both keys have the size [k] in bytes, and for a message within the
    bound encryption succeeds and writes [k] bytes, from which decryption
    succeeds, stores the length of the message and writes the message at
    the start of its buffer. *)
Definition evp_roundtrip (L : Lib) (priv : _RSAPrivateKey)
    (pub : _RSAPublicKey) (padding_enum bound : Z) : Prop :=
  let k := ceil_div8 (priv_key_size priv) in
  let ctx_e := set_op (new_ctx (pub_evp_pkey pub)) OpEncrypt in
  let ctx_d := set_op (new_ctx (priv_evp_pkey priv)) OpDecrypt in
  EVP_PKEY_CTX_new L (pub_evp_pkey pub) = true
  /\ EVP_PKEY_CTX_new L (priv_evp_pkey priv) = true
  /\ EVP_PKEY_encrypt_init L (new_ctx (pub_evp_pkey pub)) = 1
  /\ EVP_PKEY_decrypt_init L (new_ctx (priv_evp_pkey priv)) = 1
  /\ 0 < EVP_PKEY_CTX_set_rsa_padding L ctx_e padding_enum
  /\ 0 < EVP_PKEY_CTX_set_rsa_padding L ctx_d padding_enum
  /\ EVP_PKEY_size L (pub_evp_pkey pub) = k
  /\ EVP_PKEY_size L (priv_evp_pkey priv) = k
  /\ 0 < k
  /\ forall m,
       len m <= bound ->
       let o := Cryptography_EVP_PKEY_encrypt L
                  (set_rsa_padding ctx_e padding_enum) k m in
       let o' := Cryptography_EVP_PKEY_decrypt L
                   (set_rsa_padding ctx_d padding_enum) k (out_buf o) in
       0 < out_res o /\ out_len o = k /\ len (out_buf o) = k
       /\ 0 < out_res o' /\ out_len o' = len m
       /\ exists rest, out_buf o' = m ++ rest.

(** The same on the path of OpenSSL 0.9.8, where the functions return the
    number of bytes they wrote. *)
Definition rsa_roundtrip (L : Lib) (priv : _RSAPrivateKey)
    (pub : _RSAPublicKey) (padding_enum bound : Z) : Prop :=
  let k := ceil_div8 (priv_key_size priv) in
  RSA_size L (pub_rsa_cdata pub) = k
  /\ RSA_size L (priv_rsa_cdata priv) = k
  /\ 0 < k
  /\ forall m,
       len m <= bound ->
       let o := RSA_public_encrypt L m (pub_rsa_cdata pub) padding_enum in
       let o' := RSA_private_decrypt L (out_buf o) (priv_rsa_cdata priv)
                   padding_enum in
       out_res o = k /\ len (out_buf o) = k
       /\ out_res o' = len m
       /\ exists rest, out_buf o' = m ++ rest.

(** The contract of the RSA primitives: on the path the backend takes, the
    library's decryption inverts its encryption. *)
Definition primitives_invert (L : Lib) (priv : _RSAPrivateKey)
    (pub : _RSAPublicKey) (padding_enum bound : Z) : Prop :=
  if Cryptography_HAS_PKEY_CTX L
  then evp_roundtrip L priv pub padding_enum bound
  else rsa_roundtrip L priv pub padding_enum bound.

(** [finalize] ran to its end: it returned a signature, or it reported with
    a [ValueError] that the key cannot hold the digest or the salt. *)
Definition finalize_concluded {A} (r : result A) : bool :=
  match r with
  | Ok _ => true
  | Raise (ValueError _) => true
  | Raise _ => false
  end.

(** [verify] gave its verdict: the signature was accepted, or reported
    invalid. *)
Definition verify_concluded {A} (r : result A) : bool :=
  match r with
  | Ok _ => true
  | Raise InvalidSignature => true
  | Raise _ => false
  end.

(** ** Settings of a signature or verification

    What the two contexts ask of the library on the [EVP_PKEY_CTX] path,
    and what a signature that verifies asks of the library on each path. *)

(** The padding constant [__init__] stores for a signature padding. *)
Definition signature_padding_enum (L : Lib) (p : AsymmetricPadding) : Z :=
  match p with
  | PSS _ => RSA_PKCS1_PSS_PADDING L
  | _ => RSA_PKCS1_PADDING L
  end.

(** The salt length set for a PSS padding, where it resolves. *)
Definition salt_setting (p : AsymmetricPadding) (key_size dsize : Z)
    : option Z :=
  match p with
  | PSS pss =>
      match _get_rsa_pss_salt_length pss key_size dsize with
      | Ok s => Some s
      | Raise _ => None
      end
  | _ => None
  end.

(** The MGF1 digest set for a PSS padding, on a build where it can be set. *)
Definition mgf1_md_setting (L : Lib) (p : AsymmetricPadding) : option EVP_MD :=
  match p with
  | PSS pss =>
      if Cryptography_HAS_MGF1_MD L then
        match pss_mgf pss with
        | MGF1 h => EVP_get_digestbyname L (hash_name h)
        | OtherMGF => None
        end
      else None
  | _ => None
  end.

(** An [EVP_PKEY_CTX] for the operation [op] with the digest, the padding
    and, for PSS, the salt length and the MGF1 digest set. *)
Definition configured (pkey : EVP_PKEY) (op : PkeyOp) (md : EVP_MD)
    (padding_enum : Z) (saltlen : option Z) (mgf1_md : option EVP_MD)
    : EVP_PKEY_CTX :=
  mkCTX pkey (Some op) (Some md) (Some padding_enum) saltlen mgf1_md.

(** The library makes the context and accepts each setting, in the order
    in which the module makes them. *)
Definition accepts_settings (L : Lib) (pkey : EVP_PKEY) (op : PkeyOp)
    (md : EVP_MD) (padding_enum : Z) (saltlen : option Z)
    (mgf1_md : option EVP_MD) : Prop :=
  EVP_PKEY_CTX_new L pkey = true
  /\ 0 < EVP_PKEY_CTX_set_signature_md L
           (mkCTX pkey (Some op) None None None None) md
  /\ 0 < EVP_PKEY_CTX_set_rsa_padding L
           (mkCTX pkey (Some op) (Some md) None None None) padding_enum
  /\ (forall s,
        saltlen = Some s ->
        0 < EVP_PKEY_CTX_set_rsa_pss_saltlen L
              (mkCTX pkey (Some op) (Some md) (Some padding_enum) None None)
              s)
  /\ (forall m,
        mgf1_md = Some m ->
        0 < EVP_PKEY_CTX_set_rsa_mgf1_md L
              (mkCTX pkey (Some op) (Some md) (Some padding_enum) saltlen
                     None) m).

(** For a PSS padding the salt length resolves, and the MGF1 digest is
    found where the build sets it. *)
Definition pss_resolves (L : Lib) (p : AsymmetricPadding)
    (saltlen : option Z) (mgf1_md : option EVP_MD) : Prop :=
  match p with
  | PSS _ =>
      (exists s, saltlen = Some s)
      /\ (Cryptography_HAS_MGF1_MD L = true -> exists m, mgf1_md = Some m)
  | _ => True
  end.

(** What a signature that verifies asks of the library on the
    [EVP_PKEY_CTX] path: both contexts can be set up alike, the signing
    call announces a length and then writes a signature of that length, and
    the verifying call accepts that signature for the same digest. *)
Definition evp_signature_verifies (L : Lib) (priv : _RSAPrivateKey)
    (pub : _RSAPublicKey) (p : AsymmetricPadding) (alg : HashAlgorithm)
    (data : bytes) : Prop :=
  exists md,
    EVP_get_digestbyname L (hash_name alg) = Some md
    /\ let pe := signature_padding_enum L p in
       let saltlen := salt_setting p (priv_key_size priv) (digest_size alg) in
       let mgf1_md := mgf1_md_setting L p in
       let dgst := hash_digest L alg data in
       let cs := configured (priv_evp_pkey priv) OpSign md pe saltlen
                            mgf1_md in
       let cv := configured (pub_evp_pkey pub) OpVerify md pe saltlen
                            mgf1_md in
       let o0 := EVP_PKEY_sign L cs false 0 dgst in
       let o := EVP_PKEY_sign L cs true (out_len o0) dgst in
       pss_resolves L p saltlen mgf1_md
       /\ EVP_PKEY_sign_init L (new_ctx (priv_evp_pkey priv)) = 1
       /\ EVP_PKEY_verify_init L (new_ctx (pub_evp_pkey pub)) = 1
       /\ accepts_settings L (priv_evp_pkey priv) OpSign md pe saltlen
                           mgf1_md
       /\ accepts_settings L (pub_evp_pkey pub) OpVerify md pe saltlen
                           mgf1_md
       /\ out_res o0 = 1 /\ out_res o = 1 /\ len (out_buf o) = out_len o0
       /\ 0 < out_res (EVP_PKEY_verify L cv (out_buf o) dgst).

(** The same for PKCS#1 v1.5 on the path of OpenSSL 0.9.8, where
    [EVP_SignFinal] and [EVP_VerifyFinal] work on the hash context. *)
Definition evp_final_verifies (L : Lib) (priv : _RSAPrivateKey)
    (pub : _RSAPublicKey) (alg : HashAlgorithm) (data : bytes) : Prop :=
  exists md,
    EVP_get_digestbyname L (hash_name alg) = Some md
    /\ let hc := mkHashCtx alg data in
       let o := EVP_SignFinal L hc (priv_evp_pkey priv) in
       out_res o <> 0
       /\ len (out_buf o) = out_len o
       /\ out_len o <= EVP_PKEY_size L (priv_evp_pkey priv)
       /\ 0 < out_res (EVP_VerifyFinal L hc (out_buf o) (pub_evp_pkey pub)).

(** The same for PSS on the path of OpenSSL 0.9.8: the digest is padded to
    the size of the key, the private-key operation turns the padded block
    into a signature of that size, the public-key operation turns it back,
    and the PSS check accepts the result for the same digest and salt
    length. *)
Definition rsa_pss_verifies (L : Lib) (priv : _RSAPrivateKey)
    (pub : _RSAPublicKey) (pss : PSS_t) (alg : HashAlgorithm)
    (data : bytes) : Prop :=
  exists md s,
    EVP_get_digestbyname L (hash_name alg) = Some md
    /\ let dgst := hash_digest L alg data in
       let k := EVP_PKEY_size L (priv_evp_pkey priv) in
       let o1 := RSA_padding_add_PKCS1_PSS L (priv_rsa_cdata priv) dgst md
                   s in
       let o2 := RSA_private_encrypt L k (out_buf o1) (priv_rsa_cdata priv)
                   (RSA_NO_PADDING L) in
       let o3 := RSA_public_decrypt L (out_buf o2) (pub_rsa_cdata pub)
                   (RSA_NO_PADDING L) in
       _get_rsa_pss_salt_length pss (priv_key_size priv) (len dgst) = Ok s
       /\ out_res o1 = 1 /\ len (out_buf o1) = k
       /\ out_res o2 = k /\ len (out_buf o2) = k
       /\ out_res o3 = k /\ len (out_buf o3) = k
       /\ out_res (RSA_verify_PKCS1_PSS L (pub_rsa_cdata pub) dgst md
                     (out_buf o3) s) = 1.

(** The contract of the signature primitives, on the path the backend
    takes for the padding. *)
Definition signing_inverts (L : Lib) (priv : _RSAPrivateKey)
    (pub : _RSAPublicKey) (p : AsymmetricPadding) (alg : HashAlgorithm)
    (data : bytes) : Prop :=
  if Cryptography_HAS_PKEY_CTX L
  then evp_signature_verifies L priv pub p alg data
  else match p with
       | PKCS1v15 => evp_final_verifies L priv pub alg data
       | PSS pss => rsa_pss_verifies L priv pub pss alg data
       | _ => False
       end.

(** The library is reached by a verification on the context [self], whose
    hash object is active, and accepts the signature for the digest of the
    data fed to the context: [EVP_VerifyFinal] or [EVP_PKEY_verify] returns
    a positive value, or [RSA_public_decrypt] returns the key size and
    [RSA_verify_PKCS1_PSS] returns 1. *)
Definition verification_accepted (L : Lib) (self : _RSAVerificationContext)
    (w : World) : Prop :=
  exists md hc,
    EVP_get_digestbyname L (hash_name (v_algorithm self)) = Some md
    /\ nth (hash_ref (v_hash_ctx self)) (heap w) None = Some hc
    /\ let dgst := hash_digest L (hc_algorithm hc) (hc_data hc) in
       let pkey := pub_evp_pkey (v_public_key self) in
       let rsa := pub_rsa_cdata (v_public_key self) in
       match v_verify_method self with
       | verify_pkcs1 =>
           0 < out_res (EVP_VerifyFinal L hc (v_signature self) pkey)
       | verify_pss =>
           let o := RSA_public_decrypt L (v_signature self) rsa
                      (RSA_NO_PADDING L) in
           out_res o = v_pkey_size self
           /\ exists pss salt,
               v_padding self = PSS pss
               /\ _get_rsa_pss_salt_length pss
                    (pub_key_size (v_public_key self)) (len dgst) = Ok salt
               /\ out_res (RSA_verify_PKCS1_PSS L rsa dgst md
                             (buffer (v_pkey_size self) (out_buf o)) salt)
                  = 1
       | verify_pkey_ctx =>
           exists pe,
             v_padding_enum self = Some pe
             /\ 0 < out_res
                      (EVP_PKEY_verify L
                         (configured pkey OpVerify md pe
                            (salt_setting (v_padding self)
                               (pub_key_size (v_public_key self))
                               (digest_size (algorithm (v_hash_ctx self))))
                            (mgf1_md_setting L (v_padding self)))
                         (v_signature self) dgst)
       end.

(** The library is reached by [finalize] on the context [self], whose hash
    object is active, signs the digest of the data fed to the context, and
    [sig] is what it wrote. *)
Definition signature_obtained (L : Lib) (self : _RSASignatureContext)
    (w : World) (sig : bytes) : Prop :=
  exists md hc,
    EVP_get_digestbyname L (hash_name (s_algorithm self)) = Some md
    /\ nth (hash_ref (s_hash_ctx self)) (heap w) None = Some hc
    /\ let dgst := hash_digest L (hc_algorithm hc) (hc_data hc) in
       let pkey := priv_evp_pkey (s_private_key self) in
       let rsa := priv_rsa_cdata (s_private_key self) in
       let k := s_pkey_size self in
       match s_finalize_method self with
       | finalize_pkey_ctx =>
           exists pe,
             s_padding_enum self = Some pe
             /\ let c := configured pkey OpSign md pe
                           (salt_setting (s_padding self)
                              (priv_key_size (s_private_key self))
                              (digest_size (algorithm (s_hash_ctx self))))
                           (mgf1_md_setting L (s_padding self)) in
                let o0 := EVP_PKEY_sign L c false 0 dgst in
                let o := EVP_PKEY_sign L c true (out_len o0) dgst in
                out_res o0 = 1 /\ out_res o = 1
                /\ sig = buffer (out_len o0) (out_buf o)
       | finalize_pkcs1 =>
           let o := EVP_SignFinal L hc pkey in
           out_res o <> 0
           /\ sig = slice_to (buffer k (out_buf o)) (out_len o)
       | finalize_pss =>
           exists pss salt,
             s_padding self = PSS pss
             /\ _get_rsa_pss_salt_length pss
                  (priv_key_size (s_private_key self)) (len dgst) = Ok salt
             /\ let o1 := RSA_padding_add_PKCS1_PSS L rsa dgst md salt in
                let o2 := RSA_private_encrypt L k (buffer k (out_buf o1)) rsa
                            (RSA_NO_PADDING L) in
                out_res o1 = 1 /\ out_res o2 <> -1
                /\ sig = slice_to (buffer k (out_buf o2)) (out_res o2)
       end.

(** The library is reached by an encryption (with a public key) or a
    decryption (with a private key) of [data] under the padding [p],
    reports success, and [out] is what it wrote, up to the length it
    reported. *)
Definition crypt_obtained (L : Lib) (key : RSAKey) (data : bytes)
    (p : AsymmetricPadding) (out : bytes) : Prop :=
  supported_enc_padding p = true
  /\ let pe := padding_enum_of L p in
     if Cryptography_HAS_PKEY_CTX L then
       let n := EVP_PKEY_size L (_evp_pkey key) in
       let c := mkCTX (_evp_pkey key)
                  (Some (if is_public key then OpEncrypt else OpDecrypt))
                  None (Some pe) None None in
       let o := if is_public key
                then Cryptography_EVP_PKEY_encrypt L c n data
                else Cryptography_EVP_PKEY_decrypt L c n data in
       0 < n /\ 0 < out_res o
       /\ out = slice_to (buffer n (out_buf o)) (out_len o)
     else
       let n := RSA_size L (_rsa_cdata key) in
       let o := if is_public key
                then RSA_public_encrypt L data (_rsa_cdata key) pe
                else RSA_private_decrypt L data (_rsa_cdata key) pe in
       0 < n /\ 0 <= out_res o
       /\ out = slice_to (buffer n (out_buf o)) (out_res o).

(** The library is reached by [finalize] on the context [self], whose hash
    object is active, and its signing primitive reports a failure:
    [EVP_PKEY_sign] does not return 1 when given the buffer, [EVP_SignFinal]
    returns 0, or [RSA_padding_add_PKCS1_PSS] does not return 1.  [errors]
    is the content of the error queue after that call, oldest first. *)
Definition signing_fails (L : Lib) (self : _RSASignatureContext)
    (w : World) (errors : list OpenSSLError) : Prop :=
  exists md hc,
    EVP_get_digestbyname L (hash_name (s_algorithm self)) = Some md
    /\ nth (hash_ref (s_hash_ctx self)) (heap w) None = Some hc
    /\ let dgst := hash_digest L (hc_algorithm hc) (hc_data hc) in
       let pkey := priv_evp_pkey (s_private_key self) in
       let rsa := priv_rsa_cdata (s_private_key self) in
       match s_finalize_method self with
       | finalize_pkey_ctx =>
           exists pe,
             s_padding_enum self = Some pe
             /\ let saltlen := salt_setting (s_padding self)
                                 (priv_key_size (s_private_key self))
                                 (digest_size (algorithm (s_hash_ctx self)))
                in
                let mgf1_md := mgf1_md_setting L (s_padding self) in
                let c := configured pkey OpSign md pe saltlen mgf1_md in
                let o0 := EVP_PKEY_sign L c false 0 dgst in
                let o := EVP_PKEY_sign L c true (out_len o0) dgst in
                pss_resolves L (s_padding self) saltlen mgf1_md
                /\ EVP_PKEY_sign_init L (new_ctx pkey) = 1
                /\ accepts_settings L pkey OpSign md pe saltlen mgf1_md
                /\ out_res o0 = 1 /\ out_res o <> 1
                /\ errors = (err_queue w ++ out_errors o0) ++ out_errors o
       | finalize_pkcs1 =>
           let o := EVP_SignFinal L hc pkey in
           out_res o = 0 /\ errors = err_queue w ++ out_errors o
       | finalize_pss =>
           exists pss salt,
             s_padding self = PSS pss
             /\ _get_rsa_pss_salt_length pss
                  (priv_key_size (s_private_key self)) (len dgst) = Ok salt
             /\ let o1 := RSA_padding_add_PKCS1_PSS L rsa dgst md salt in
                out_res o1 <> 1 /\ errors = err_queue w ++ out_errors o1
       end.

(** What [finalize] raises for a failure of the signing primitive, from
    the reason of the oldest error in the queue, on each path. *)
Definition signing_failure (L : Lib) (method : FinalizeMethod) (reason : Z)
    : exn :=
  let salt := reason =? RSA_R_DATA_TOO_LARGE_FOR_KEY_SIZE L in
  let dgst := reason =? RSA_R_DIGEST_TOO_BIG_FOR_RSA_KEY L in
  match method with
  | finalize_pkey_ctx =>
      if salt then ValueError msg_salt_too_long
      else if dgst then ValueError msg_digest_too_large
      else AssertionError
  | finalize_pkcs1 =>
      if dgst then ValueError msg_digest_too_large else AssertionError
  | finalize_pss =>
      if salt then ValueError msg_salt_too_long else AssertionError
  end.

(** [__init__] of the two contexts has chosen the methods of the same
    path. *)
Definition same_path (f : FinalizeMethod) (v : VerifyMethod) : bool :=
  match f, v with
  | finalize_pkey_ctx, verify_pkey_ctx
  | finalize_pkcs1, verify_pkcs1
  | finalize_pss, verify_pss => true
  | _, _ => false
  end.

(** The outcome is the failure of an attribute access, which no check of
    the module raises itself. *)
Definition is_attribute_error {A} (r : result A) : bool :=
  match r with
  | Raise AttributeError => true
  | _ => false
  end.

(** ** OpenSSL constants

    The values OpenSSL's headers give the constants the module uses. *)
Module OpenSSL.

Definition ERR_LIB_RSA : Z := 4.
Definition RSA_R_BAD_SIGNATURE : Z := 104.
Definition RSA_R_BLOCK_TYPE_IS_NOT_01 : Z := 106.
Definition RSA_R_BLOCK_TYPE_IS_NOT_02 : Z := 107.
Definition RSA_R_DATA_GREATER_THAN_MOD_LEN : Z := 108.
Definition RSA_R_DATA_TOO_LARGE_FOR_KEY_SIZE : Z := 110.
Definition RSA_R_DIGEST_TOO_BIG_FOR_RSA_KEY : Z := 112.
Definition RSA_R_PADDING_CHECK_FAILED : Z := 114.
Definition RSA_R_OAEP_DECODING_ERROR : Z := 121.
Definition RSA_R_PKCS_DECODING_ERROR : Z := 159.
Definition RSA_PKCS1_PADDING : Z := 1.
Definition RSA_NO_PADDING : Z := 3.
Definition RSA_PKCS1_OAEP_PADDING : Z := 4.
Definition RSA_PKCS1_PSS_PADDING : Z := 6.

End OpenSSL.

(** ** A reference library

    A small deterministic stand-in for OpenSSL, on which the module can be
    run on concrete inputs.  It keeps OpenSSL's constants, sizes and return
    conventions; the RSA transformation itself is replaced by a block format
    without arithmetic ([00 .. 00 01 || data]), which is enough for the
    control flow this file is about. *)
Module Ref.


Definition err (reason : Z) : OpenSSLError :=
  mkError OpenSSL.ERR_LIB_RSA 0 reason.

Definition failed (res reason : Z) : LibOut := mkOut res [] 0 [err reason].

Definition num_bits (n : option Z) : Z :=
  match n with
  | Some v => if 0 <? v then Z.log2 v + 1 else 0
  | None => 0
  end.

Definition size (r : RSA) : Z := ceil_div8 (num_bits (rsa_n r)).

Fixpoint bytes_eqb (a b : bytes) : bool :=
  match a, b with
  | [], [] => true
  | x :: a', y :: b' => Byte.eqb x y && bytes_eqb a' b'
  | _, _ => false
  end.

(** The block of [k] bytes that carries [m]. *)
Definition pad_block (k : Z) (m : bytes) : bytes :=
  repeat Byte.x00 (Z.to_nat (k - len m - 1)) ++ Byte.x01 :: m.

Fixpoint unpad_block (b : bytes) : option bytes :=
  match b with
  | [] => None
  | x :: t =>
      if Byte.eqb x Byte.x00 then unpad_block t
      else if Byte.eqb x Byte.x01 then Some t
      else None
  end.

(** The bytes a padding scheme needs besides the message: 11 for PKCS#1
    v1.5, twice the SHA-1 digest size and 2 for OAEP. *)
Definition overhead (padding : Z) : Z :=
  if padding =? OpenSSL.RSA_PKCS1_OAEP_PADDING then 2 * 20 + 2 else 11.

Definition decoding_error (padding : Z) : Z :=
  if padding =? OpenSSL.RSA_PKCS1_OAEP_PADDING
  then OpenSSL.RSA_R_OAEP_DECODING_ERROR
  else OpenSSL.RSA_R_BLOCK_TYPE_IS_NOT_02.

Definition padding_of (c : EVP_PKEY_CTX) : Z :=
  match ctx_rsa_padding c with
  | Some p => p
  | None => OpenSSL.RSA_PKCS1_PADDING
  end.

Definition public_encrypt (m : bytes) (r : RSA) (padding : Z) : LibOut :=
  let k := size r in
  if len m + overhead padding <=? k
  then mkOut k (pad_block k m) k []
  else failed (-1) OpenSSL.RSA_R_DATA_TOO_LARGE_FOR_KEY_SIZE.

(** A block that does not decode: the padding check queues its own error,
    and the decryption function the error of a failed padding check. *)
Definition decoding_failed (padding : Z) : LibOut :=
  mkOut (-1) [] 0
        [err (decoding_error padding); err OpenSSL.RSA_R_PADDING_CHECK_FAILED].

Definition private_decrypt (c : bytes) (r : RSA) (padding : Z) : LibOut :=
  let k := size r in
  if len c =? k then
    match unpad_block c with
    | Some m => mkOut (len m) m (len m) []
    | None => decoding_failed padding
    end
  else failed (-1) OpenSSL.RSA_R_DATA_GREATER_THAN_MOD_LEN.

(** The [EVP_PKEY] forms return 1 on success and store the length. *)
Definition evp_result (o : LibOut) : LibOut :=
  if 0 <=? out_res o then mkOut 1 (out_buf o) (out_len o) (out_errors o)
  else o.

Definition pkey_encrypt (c : EVP_PKEY_CTX) (buf_size : Z) (m : bytes)
    : LibOut :=
  evp_result (public_encrypt m (pkey_rsa (ctx_pkey c)) (padding_of c)).

Definition pkey_decrypt (c : EVP_PKEY_CTX) (buf_size : Z) (m : bytes)
    : LibOut :=
  evp_result (private_decrypt m (pkey_rsa (ctx_pkey c)) (padding_of c)).

Definition digest (alg : HashAlgorithm) (data : bytes) : bytes :=
  buffer (digest_size alg) data.

(** A signature block over a digest; [room] is what the scheme needs
    besides the digest. *)
Definition sign_block (r : RSA) (room : Z) (dgst : bytes) : LibOut :=
  let k := size r in
  if len dgst + room <=? k
  then mkOut 1 (pad_block k dgst) k []
  else failed 0 OpenSSL.RSA_R_DIGEST_TOO_BIG_FOR_RSA_KEY.

Definition check_block (r : RSA) (dgst sig : bytes) : LibOut :=
  if bytes_eqb sig (pad_block (size r) dgst)
  then mkOut 1 [] 0 []
  else failed 0 OpenSSL.RSA_R_BAD_SIGNATURE.

Definition pkey_sign (c : EVP_PKEY_CTX) (has_buf : bool) (siglen : Z)
    (dgst : bytes) : LibOut :=
  let r := pkey_rsa (ctx_pkey c) in
  if has_buf then
    match ctx_rsa_pss_saltlen c with
    | Some salt =>
        if len dgst + salt + 2 <=? size r
        then sign_block r 2 dgst
        else failed 0 OpenSSL.RSA_R_DATA_TOO_LARGE_FOR_KEY_SIZE
    | None => sign_block r 11 dgst
    end
  else mkOut 1 [] (size r) [].

Definition pkey_verify (c : EVP_PKEY_CTX) (sig dgst : bytes) : LibOut :=
  check_block (pkey_rsa (ctx_pkey c)) dgst sig.

Definition sign_final (hc : HashCtx) (pkey : EVP_PKEY) : LibOut :=
  sign_block (pkey_rsa pkey) 11 (digest (hc_algorithm hc) (hc_data hc)).

Definition verify_final (hc : HashCtx) (sig : bytes) (pkey : EVP_PKEY)
    : LibOut :=
  check_block (pkey_rsa pkey) (digest (hc_algorithm hc) (hc_data hc)) sig.

Definition padding_add_pss (r : RSA) (dgst : bytes) (md : EVP_MD)
    (salt : Z) : LibOut :=
  if len dgst + salt + 2 <=? size r
  then sign_block r 2 dgst
  else failed 0 OpenSSL.RSA_R_DATA_TOO_LARGE_FOR_KEY_SIZE.

Definition private_encrypt (flen : Z) (from : bytes) (r : RSA)
    (padding : Z) : LibOut :=
  mkOut (size r) from (size r) [].

Definition public_decrypt (sig : bytes) (r : RSA) (padding : Z) : LibOut :=
  if len sig =? size r then mkOut (size r) sig (size r) []
  else failed (-1) OpenSSL.RSA_R_DATA_GREATER_THAN_MOD_LEN.

Definition verify_pss_block (r : RSA) (dgst : bytes) (md : EVP_MD)
    (em : bytes) (salt : Z) : LibOut :=
  check_block r dgst em.

(** [backend.hash_supported]: the hashes OpenSSL has. *)
Definition hash_supported (h : HashAlgorithm) : bool :=
  match h with CustomHash _ _ => false | _ => true end.

(** The library, for a build with or without [EVP_PKEY_CTX] and with or
    without a configurable MGF1 digest.  [_mgf1_hash_supported] is the
    backend's: every supported hash where the MGF1 digest can be set, and
    SHA-1 only elsewhere. *)
Definition lib (has_pkey_ctx has_mgf1_md : bool) : Lib :=
  {| Cryptography_HAS_PKEY_CTX := has_pkey_ctx;
     Cryptography_HAS_MGF1_MD := has_mgf1_md;
     Cryptography_HAS_RSA_R_PKCS_DECODING_ERROR := true;
     ERR_LIB_RSA := OpenSSL.ERR_LIB_RSA;
     RSA_R_DATA_TOO_LARGE_FOR_KEY_SIZE :=
       OpenSSL.RSA_R_DATA_TOO_LARGE_FOR_KEY_SIZE;
     RSA_R_BLOCK_TYPE_IS_NOT_01 := OpenSSL.RSA_R_BLOCK_TYPE_IS_NOT_01;
     RSA_R_BLOCK_TYPE_IS_NOT_02 := OpenSSL.RSA_R_BLOCK_TYPE_IS_NOT_02;
     RSA_R_PKCS_DECODING_ERROR := OpenSSL.RSA_R_PKCS_DECODING_ERROR;
     RSA_R_DIGEST_TOO_BIG_FOR_RSA_KEY :=
       OpenSSL.RSA_R_DIGEST_TOO_BIG_FOR_RSA_KEY;
     RSA_PKCS1_PADDING := OpenSSL.RSA_PKCS1_PADDING;
     RSA_PKCS1_OAEP_PADDING := OpenSSL.RSA_PKCS1_OAEP_PADDING;
     RSA_PKCS1_PSS_PADDING := OpenSSL.RSA_PKCS1_PSS_PADDING;
     RSA_NO_PADDING := OpenSSL.RSA_NO_PADDING;
     _mgf1_hash_supported :=
       (fun h => if has_mgf1_md then hash_supported h else is_SHA1 h);
     hash_digest := digest;
     EVP_get_digestbyname := (fun name => Some (mkMD name));
     BN_num_bits := num_bits;
     RSA_new := true;
     RSA_blinding_on := (fun _ => 1);
     EVP_PKEY_new := true;
     EVP_PKEY_set1_RSA := (fun _ => 1);
     EVP_PKEY_size := (fun k => size (pkey_rsa k));
     RSA_size := size;
     EVP_PKEY_CTX_new := (fun _ => true);
     EVP_PKEY_encrypt_init := (fun _ => 1);
     EVP_PKEY_decrypt_init := (fun _ => 1);
     EVP_PKEY_sign_init := (fun _ => 1);
     EVP_PKEY_verify_init := (fun _ => 1);
     EVP_PKEY_CTX_set_signature_md := (fun _ _ => 1);
     EVP_PKEY_CTX_set_rsa_padding := (fun _ _ => 1);
     EVP_PKEY_CTX_set_rsa_pss_saltlen := (fun _ _ => 1);
     EVP_PKEY_CTX_set_rsa_mgf1_md := (fun _ _ => 1);
     Cryptography_EVP_PKEY_encrypt := pkey_encrypt;
     Cryptography_EVP_PKEY_decrypt := pkey_decrypt;
     RSA_public_encrypt := public_encrypt;
     RSA_private_decrypt := private_decrypt;
     EVP_PKEY_sign := pkey_sign;
     EVP_PKEY_verify := pkey_verify;
     EVP_SignFinal := sign_final;
     EVP_VerifyFinal := verify_final;
     RSA_padding_add_PKCS1_PSS := padding_add_pss;
     RSA_private_encrypt := private_encrypt;
     RSA_public_decrypt := public_decrypt;
     RSA_verify_PKCS1_PSS := verify_pss_block |}.

(** An RSA structure with a modulus of [bits] bits (its private fields do
    not matter to the reference library). *)
Definition rsa_of_bits (bits : Z) : RSA :=
  mkRSA (Some (2 ^ (bits - 1) + 1)) (Some 65537) (Some 3) None None None
        None None false.

Definition private_key (bits : Z) : _RSAPrivateKey :=
  mkPrivateKey (rsa_of_bits bits) (mkPKEY (rsa_of_bits bits)) bits.

Definition public_key_of (k : _RSAPrivateKey) : _RSAPublicKey :=
  mkPublicKey
    (mkRSA (rsa_n (priv_rsa_cdata k)) (rsa_e (priv_rsa_cdata k))
           None None None None None None true)
    (mkPKEY (mkRSA (rsa_n (priv_rsa_cdata k)) (rsa_e (priv_rsa_cdata k))
                   None None None None None None true))
    (priv_key_size k).

End Ref.

(** * Properties *)

(** ** Arithmetic of sizes *)

Lemma ceil_div8_spec : forall x, is_ceil8 x (ceil_div8 x).
Proof.
  intros x. unfold is_ceil8, ceil_div8.
  pose proof (Z.div_mod (- x) 8 ltac:(lia)) as Hdm.
  pose proof (Z.mod_pos_bound (- x) 8 ltac:(lia)) as Hb.
  lia.
Qed.

Lemma is_ceil8_unique : forall x c c', is_ceil8 x c -> is_ceil8 x c' -> c = c'.
Proof. unfold is_ceil8. intros. lia. Qed.

Lemma is_ceil8_ceil_div8 : forall x c, is_ceil8 x c -> ceil_div8 x = c.
Proof.
  intros x c H. apply (is_ceil8_unique x); [apply ceil_div8_spec | exact H].
Qed.

Lemma len_nonneg : forall b, 0 <= len b.
Proof. intros b. unfold len. lia. Qed.

(** ** The monad *)

Lemma bind_ok : forall A B (m : M A) (k : A -> M B) w a w',
  m w = (Ok a, w') -> bind m k w = k a w'.
Proof. intros * H. unfold bind. now rewrite H. Qed.

Lemma bind_raise : forall A B (m : M A) (k : A -> M B) w e w',
  m w = (Raise e, w') -> bind m k w = (Raise e, w').
Proof. intros * H. unfold bind. now rewrite H. Qed.

Lemma bind_ret : forall A B (a : A) (k : A -> M B) w,
  bind (ret a) k w = k a w.
Proof. reflexivity. Qed.

Lemma bind_call : forall A B name (a : A) (k : A -> M B) w,
  bind (call name a) k w = k a (with_trace w [name]).
Proof. reflexivity. Qed.

Lemma bind_call_out : forall B name o (k : LibOut -> M B) w,
  bind (call_out name o) k w =
    k o (mkWorld (err_queue w ++ out_errors o) (heap w) (trace w ++ [name])).
Proof. reflexivity. Qed.

Lemma bind_assert_true : forall B (k : unit -> M B) w,
  bind (assert_ true) k w = k tt w.
Proof. reflexivity. Qed.

(** Unfolds the plumbing of the monad, leaving the module's tests. *)
Ltac run :=
  unfold outcome, after, when, assert_, call, call_out, log, lift,
         _consume_errors, first_error, bind, ret, raise, with_trace in *;
  cbn [fst snd err_queue heap trace] in *.

(** ** PSS salt length *)

Lemma salt_length_max : forall pss key_size digest_size,
  is_max_length (pss_salt_length pss) = true ->
  _get_rsa_pss_salt_length pss key_size digest_size =
    if 0 <=? ceil_div8 (key_size - 1) - digest_size - 2
    then Ok (ceil_div8 (key_size - 1) - digest_size - 2)
    else Raise AssertionError.
Proof.
  intros pss ks ds H. unfold _get_rsa_pss_salt_length.
  destruct (pss_salt_length pss); simpl in H; try discriminate; reflexivity.
Qed.



(** C4, at an input where the code departs from it.  A 521-bit key has 66
    bytes, and SHA-512 a digest of 64.  The check at creation is on the
    size in bytes, [66 - 64 - 2 = 0], so [signer] and [verifier] create a
    PSS context with a [MAX_LENGTH] salt.  The resolution works on the bit
    length less one, [ceil(520 / 8) = 65], and [65 - 64 - 2 = -1]: no salt
    length is resolved, [_get_rsa_pss_salt_length] stops on its own
    assertion, and with it [finalize] and [verify], with [EVP_PKEY_CTX] and
    on the path of OpenSSL 0.9.8. *)
Theorem max_length_salt_not_resolved :
  exists sctx ws vctx wv sctx' ws',
    signer (Ref.lib true true) (Ref.private_key 521)
           (Padding (PSS (mkPSS (MGF1 SHA1) PSS_MAX_LENGTH))) SHA512
           empty_world = (Ok sctx, ws)
    /\ verifier (Ref.lib true true)
                (Ref.public_key_of (Ref.private_key 521))
                (repeat Byte.x00 66)
                (Padding (PSS (mkPSS (MGF1 SHA1) PSS_MAX_LENGTH))) SHA512
                empty_world = (Ok vctx, wv)
    /\ signer (Ref.lib false false) (Ref.private_key 521)
              (Padding (PSS (mkPSS (MGF1 SHA1) PSS_MAX_LENGTH))) SHA512
              empty_world = (Ok sctx', ws')
    /\ s_pkey_size sctx - digest_size SHA512 - 2 = 0
    /\ ceil_div8 (priv_key_size (Ref.private_key 521) - 1)
       - digest_size SHA512 - 2 = -1
    /\ _get_rsa_pss_salt_length (mkPSS (MGF1 SHA1) PSS_MAX_LENGTH)
         (priv_key_size (Ref.private_key 521)) (digest_size SHA512)
       = Raise AssertionError
    /\ outcome (finalize (Ref.lib true true) sctx) ws = Raise AssertionError
    /\ outcome (verify (Ref.lib true true) vctx) wv = Raise AssertionError
    /\ outcome (finalize (Ref.lib false false) sctx') ws'
       = Raise AssertionError.
Proof.
  do 6 eexists.
  split; [reflexivity |]. split; [reflexivity |]. split; [reflexivity |].
  repeat split.
Qed.

(** ** The hash object *)

Lemma get_digest_found : forall L name md w,
  EVP_get_digestbyname L name = Some md ->
  get_digest L name w = (Ok md, with_trace w ["EVP_get_digestbyname"%string]).
Proof. intros * H. unfold get_digest. run. rewrite H. reflexivity. Qed.

Lemma Hash_finalize_active : forall L h hc w,
  nth (hash_ref h) (heap w) None = Some hc ->
  Hash_finalize L h w =
    (Ok (hash_digest L (hc_algorithm hc) (hc_data hc)),
     mkWorld (err_queue w) (set_nth (hash_ref h) None (heap w))
             (trace w ++ ["Hash.finalize"%string])).
Proof.
  intros * H. unfold Hash_finalize, hash__ctx, set_hash__ctx. run.
  rewrite H. reflexivity.
Qed.

Lemma Hash_update_finalized : forall h data w,
  nth (hash_ref h) (heap w) None = None ->
  Hash_update h data w = (Raise (AlreadyFinalized msg_hash_finalized), w).
Proof.
  intros * H. unfold Hash_update, hash__ctx. run. rewrite H. reflexivity.
Qed.

(** C5 (amended).  Under a fixed policy the resolution returns the given
    count unchanged, whatever the key and digest sizes: it applies no bound.
    The count reaches OpenSSL's PSS padding as it is, and when that call
    rejects it with [RSA_R_DATA_TOO_LARGE_FOR_KEY_SIZE], [finalize] raises
    the [ValueError] for a salt that is too long. *)
Theorem fixed_salt_length_unbounded :
  (forall mgf n key_size dsize,
      _get_rsa_pss_salt_length (mkPSS mgf (SaltInt n)) key_size dsize = Ok n)
  /\ (forall L self w mgf n hc md e q,
        s_finalize_method self = finalize_pss ->
        s_padding self = PSS (mkPSS mgf (SaltInt n)) ->
        nth (hash_ref (s_hash_ctx self)) (heap w) None = Some hc ->
        EVP_get_digestbyname L (hash_name (s_algorithm self)) = Some md ->
        err_queue w = [] ->
        let o := RSA_padding_add_PKCS1_PSS L
                   (priv_rsa_cdata (s_private_key self))
                   (hash_digest L (hc_algorithm hc) (hc_data hc)) md n in
        out_res o <> 1 ->
        out_errors o = e :: q ->
        err_lib e = ERR_LIB_RSA L ->
        err_reason e = RSA_R_DATA_TOO_LARGE_FOR_KEY_SIZE L ->
        outcome (finalize L self) w = Raise (ValueError msg_salt_too_long)).
Proof.
  split; [reflexivity |].
  intros L self w mgf n hc md e q Hm Hp Hh Hmd Hq o Hres Herr Hlib Hreason.
  unfold outcome, finalize.
  rewrite (bind_ok _ _ _ _ _ _ _ (get_digest_found _ _ _ _ Hmd)).
  rewrite Hm. unfold _finalize_pss.
  rewrite (bind_ok _ _ _ _ _ _ _
             (Hash_finalize_active L _ hc (with_trace w _) Hh)).
  rewrite Hp. unfold as_pss, _get_rsa_pss_salt_length. run.
  cbn [pss_salt_length]. fold o.
  apply Z.eqb_neq in Hres. rewrite Hres. cbn [negb].
  cbn [err_queue with_trace]. rewrite Hq, Herr. cbn [app fst].
  rewrite Hlib, Hreason, !Z.eqb_refl. reflexivity.
Qed.

(** A fixed salt length of 1000 bytes for a 1024-bit key and SHA-1 is
    resolved to 1000, above the 106 bytes that [MAX_LENGTH] resolves to. *)
Lemma fixed_salt_length_exceeds_maximum :
  _get_rsa_pss_salt_length (mkPSS (MGF1 SHA1) (SaltInt 1000)) 1024
                           (digest_size SHA1) = Ok 1000
  /\ _get_rsa_pss_salt_length (mkPSS (MGF1 SHA1) PSS_MAX_LENGTH) 1024
                              (digest_size SHA1) = Ok 106
  /\ 106 < 1000.
Proof. repeat split. Qed.

(** With the same fixed salt length the reference library rejects the
    padding, and [finalize] reports the salt as too long. *)
Lemma fixed_salt_length_unbounded_witness :
  outcome
    (finalize (Ref.lib false false)
       (mkSignatureContext (Ref.private_key 1024) 128 finalize_pss None
          (PSS (mkPSS (MGF1 SHA1) (SaltInt 1000))) SHA1 (mkHash SHA1 0)))
    (mkWorld [] [Some (mkHashCtx SHA1 [])] [])
  = Raise (ValueError msg_salt_too_long).
Proof.
  eapply (proj2 fixed_salt_length_unbounded) with
    (mgf := MGF1 SHA1) (n := 1000) (hc := mkHashCtx SHA1 [])
    (md := mkMD "sha1")
    (e := Ref.err OpenSSL.RSA_R_DATA_TOO_LARGE_FOR_KEY_SIZE) (q := []).
  - reflexivity.
  - reflexivity.
  - reflexivity.
  - reflexivity.
  - reflexivity.
  - vm_compute. discriminate.
  - reflexivity.
  - reflexivity.
  - reflexivity.
Defined.

(** ** Decryption *)

(** C10.  A ciphertext whose length is not the key size in bytes,
    [ceil(key_size / 8)], makes [decrypt] fail at once with the [ValueError]
    for a wrong ciphertext length, whatever the padding and the backend: the
    store is unchanged, so no padding is examined and no collaborator is
    called.  Whenever [decrypt] does call a collaborator, the ciphertext has
    exactly the key's byte length. *)
Theorem decrypt_rejects_wrong_length :
  forall L self ciphertext padding w key_size_bytes,
    is_ceil8 (priv_key_size self) key_size_bytes ->
    (len ciphertext <> key_size_bytes ->
     decrypt L self ciphertext padding w =
       (Raise (ValueError msg_ciphertext_length), w))
    /\ (trace (after (decrypt L self ciphertext padding) w) <> trace w ->
        len ciphertext = key_size_bytes).
Proof.
  intros L self ct padding w k Hk.
  apply is_ceil8_ceil_div8 in Hk.
  assert (Hwrong : len ct <> k ->
                   decrypt L self ct padding w =
                     (Raise (ValueError msg_ciphertext_length), w)).
  { intros Hne. unfold decrypt. rewrite Hk.
    destruct (k =? len ct) eqn:E.
    - apply Z.eqb_eq in E. congruence.
    - reflexivity. }
  split; [exact Hwrong |].
  intros Htrace. destruct (Z.eq_dec (len ct) k) as [Heq | Hne]; [exact Heq |].
  exfalso. apply Htrace. unfold after. rewrite (Hwrong Hne). reflexivity.
Qed.

(** Three bytes for a 512-bit key. *)
Lemma decrypt_rejects_wrong_length_witness :
  decrypt (Ref.lib true true) (Ref.private_key 512)
          [Byte.x00; Byte.x01; Byte.x02] (Padding PKCS1v15) empty_world
  = (Raise (ValueError msg_ciphertext_length), empty_world).
Proof.
  apply (decrypt_rejects_wrong_length (Ref.lib true true)
           (Ref.private_key 512) [Byte.x00; Byte.x01; Byte.x02]
           (Padding PKCS1v15) empty_world 64).
  - unfold is_ceil8. simpl. lia.
  - vm_compute. discriminate.
Defined.

(** ** Padding validation *)

Lemma padding_enum_unsupported : forall L p w,
  enc_dec_padding p = false ->
  enc_dec_padding_enum L (Padding p) w =
    (Raise (UnsupportedAlgorithm (msg_not_supported p) UNSUPPORTED_PADDING), w).
Proof. intros L [| o | pss | name] w H; try discriminate H; reflexivity. Qed.

Lemma padding_enum_store : forall L p w,
  snd (enc_dec_padding_enum L p w) = w.
Proof.
  intros L [| [| o | pss | name]] w; try reflexivity.
  unfold enc_dec_padding_enum.
  destruct (oaep_mgf o) as [h |]; [| reflexivity].
  run. destruct (is_SHA1 h), (has_label (oaep_label o)),
         (is_SHA1 (oaep_algorithm o)); reflexivity.
Qed.

Lemma enc_dec_padding_raise : forall L key data p w e,
  outcome (enc_dec_padding_enum L p) w = Raise e ->
  _enc_dec_rsa L key data p w = (Raise e, w).
Proof.
  intros L key data p w e H. unfold _enc_dec_rsa.
  apply bind_raise. unfold outcome in H.
  pose proof (padding_enum_store L p w) as Hs.
  destruct (enc_dec_padding_enum L p w) as [r w']. simpl in *. congruence.
Qed.

Lemma decrypt_right_length : forall L self ct p w,
  is_ceil8 (priv_key_size self) (len ct) ->
  decrypt L self ct p w = _enc_dec_rsa L (PrivateKey self) ct p w.
Proof.
  intros L self ct p w H. apply is_ceil8_ceil_div8 in H.
  unfold decrypt. rewrite H, Z.eqb_refl. reflexivity.
Qed.

Lemma signer_unsupported : forall L self p alg w,
  signature_padding p = false ->
  signer L self (Padding p) alg w =
    (Raise (UnsupportedAlgorithm (msg_not_supported p) UNSUPPORTED_PADDING),
     with_trace w ["EVP_PKEY_size"%string]).
Proof.
  intros L self [| o | pss | name] alg w H; try discriminate H; reflexivity.
Qed.

Lemma verifier_unsupported : forall L self sig p alg w,
  signature_padding p = false ->
  verifier L self sig (Padding p) alg w =
    (Raise (UnsupportedAlgorithm (msg_not_supported p) UNSUPPORTED_PADDING),
     with_trace w ["EVP_PKEY_size"%string]).
Proof.
  intros L self sig [| o | pss | name] alg w H; try discriminate H; reflexivity.
Qed.

(** C7 (amended).  A provider of [AsymmetricPadding] that is neither
    PKCS#1 v1.5 nor OAEP makes [encrypt] fail with [UnsupportedAlgorithm]
    and the reason [UNSUPPORTED_PADDING], and [decrypt] too when the
    ciphertext has the key's byte length; one that is neither PKCS#1 v1.5
    nor PSS makes the creation of a signature or verification context fail
    the same way.  A value that is not a provider of [AsymmetricPadding] is
    refused with [TypeError]. *)
Theorem unsupported_padding_rejected :
  forall L w,
    (forall self data p,
        enc_dec_padding p = false ->
        encrypt L self data (Padding p) w =
          (Raise (UnsupportedAlgorithm (msg_not_supported p)
                                       UNSUPPORTED_PADDING), w))
    /\ (forall self ct p,
        enc_dec_padding p = false ->
        is_ceil8 (priv_key_size self) (len ct) ->
        decrypt L self ct (Padding p) w =
          (Raise (UnsupportedAlgorithm (msg_not_supported p)
                                       UNSUPPORTED_PADDING), w))
    /\ (forall self p alg,
        signature_padding p = false ->
        outcome (signer L self (Padding p) alg) w =
          Raise (UnsupportedAlgorithm (msg_not_supported p)
                                      UNSUPPORTED_PADDING))
    /\ (forall self sig p alg,
        signature_padding p = false ->
        outcome (verifier L self sig (Padding p) alg) w =
          Raise (UnsupportedAlgorithm (msg_not_supported p)
                                      UNSUPPORTED_PADDING))
    /\ (forall self data,
        encrypt L self data NotAPadding w =
          (Raise (TypeError msg_padding_type), w))
    /\ (forall self ct,
        is_ceil8 (priv_key_size self) (len ct) ->
        decrypt L self ct NotAPadding w =
          (Raise (TypeError msg_padding_type), w))
    /\ (forall self alg,
        signer L self NotAPadding alg w =
          (Raise (TypeError msg_padding_provider), w))
    /\ (forall self sig alg,
        verifier L self sig NotAPadding alg w =
          (Raise (TypeError msg_padding_provider), w)).
Proof.
  intros L w. repeat split.
  - intros self data p H. unfold encrypt.
    apply enc_dec_padding_raise. unfold outcome.
    now rewrite padding_enum_unsupported.
  - intros self ct p H Hlen. rewrite decrypt_right_length by assumption.
    apply enc_dec_padding_raise. unfold outcome.
    now rewrite padding_enum_unsupported.
  - intros self p alg H. unfold outcome. now rewrite signer_unsupported.
  - intros self sig p alg H. unfold outcome. now rewrite verifier_unsupported.
  - intros self ct Hlen. rewrite decrypt_right_length by assumption.
    reflexivity.
Qed.

(** PSS is not a padding for encryption. *)
Lemma unsupported_padding_rejected_witness :
  encrypt (Ref.lib true true) (Ref.public_key_of (Ref.private_key 512))
          [Byte.x41]
          (Padding (PSS (mkPSS (MGF1 SHA1) PSS_MAX_LENGTH))) empty_world
  = (Raise (UnsupportedAlgorithm "EMSA-PSS is not supported by this backend."
                                 UNSUPPORTED_PADDING), empty_world).
Proof.
  apply (proj1 (unsupported_padding_rejected (Ref.lib true true) empty_world)).
  reflexivity.
Defined.

(** With PSS, a ciphertext of one byte for a 512-bit key is refused for its
    length, not for the padding; and a value that is no padding at all is
    not refused as an unsupported padding either. *)
Lemma unsupported_padding_other_failures :
  outcome
    (decrypt (Ref.lib true true) (Ref.private_key 512) [Byte.x41]
             (Padding (PSS (mkPSS (MGF1 SHA1) PSS_MAX_LENGTH))))
    empty_world
  = Raise (ValueError msg_ciphertext_length)
  /\ fails_with
       (outcome
          (decrypt (Ref.lib true true) (Ref.private_key 512) [Byte.x41]
                   (Padding (PSS (mkPSS (MGF1 SHA1) PSS_MAX_LENGTH))))
          empty_world)
       UnsupportedPadding = false
  /\ fails_with
       (outcome
          (encrypt (Ref.lib true true)
                   (Ref.public_key_of (Ref.private_key 512)) [Byte.x41]
                   NotAPadding)
          empty_world)
       UnsupportedPadding = false.
Proof. repeat split. Qed.

(** Case analysis on an innermost test of the goal. *)
Ltac break_match :=
  match goal with
  | |- context [match ?x with _ => _ end] =>
      lazymatch x with
      | context [match _ with _ => _ end] => fail
      | _ => destruct x eqn:?
      end
  end.

Ltac crypt_cases :=
  repeat (cbn [fst snd err_queue heap trace] in *;
          first [ discriminate
                | match goal with
                  | H : Raise _ = Raise _ |- _ => inversion H; subst; clear H
                  | H : (_, _) = (_, _) |- _ => inversion H; subst; clear H
                  end
                | solve [unfold crypt_failure; auto]
                | break_match ]).

Lemma handle_error_raises : forall L key w,
  exists e, outcome (_handle_rsa_enc_dec_error L key) w = Raise e
            /\ crypt_failure e.
Proof.
  intros L key w. unfold _handle_rsa_enc_dec_error, nonempty. run.
  repeat first
    [ solve [eexists; split; [reflexivity | unfold crypt_failure; auto]]
    | break_match; cbn ].
Qed.

Lemma when_handle_error : forall L key b (k : M bytes) w e,
  outcome (when b (_handle_rsa_enc_dec_error L key) ;; k) w = Raise e ->
  (b = true /\ crypt_failure e) \/ (b = false /\ outcome k w = Raise e).
Proof.
  intros L key b k w e H. destruct b.
  - left. split; [reflexivity |].
    destruct (handle_error_raises L key w) as [e' [He' Hc]].
    unfold outcome, when, bind in *.
    destruct (_handle_rsa_enc_dec_error L key w) as [r w']. simpl in He'.
    subst r. simpl in H. congruence.
  - right. split; [reflexivity | exact H].
Qed.

Lemma enc_dec_pkey_ctx_raises : forall L key data padding_enum w e,
  outcome (_enc_dec_rsa_pkey_ctx L key data padding_enum) w = Raise e ->
  crypt_failure e.
Proof.
  intros L key data pe w e. unfold _enc_dec_rsa_pkey_ctx.
  set (h := _handle_rsa_enc_dec_error L key).
  unfold outcome, assert_, call, call_out, log, bind, ret, raise.
  cbn [fst snd err_queue heap trace].
  destruct (EVP_PKEY_CTX_new L (_evp_pkey key)); cbn; [| intros; crypt_cases].
  destruct (is_public key); cbn.
  all: repeat match goal with
       | |- context [if ?c then _ else _] =>
           lazymatch c with
           | context [out_res] => fail
           | _ => destruct c; cbn; [| intros; crypt_cases]
           end
       end.
  all: intros H; apply (when_handle_error L key _ (ret _) _ e) in H;
       subst h;
       destruct H as [[_ Hc] | [_ Hk]]; [exact Hc | discriminate Hk].
Qed.

Lemma enc_dec_098_raises : forall L key data padding_enum w e,
  outcome (_enc_dec_rsa_098 L key data padding_enum) w = Raise e ->
  crypt_failure e.
Proof.
  intros L key data pe w e. unfold _enc_dec_rsa_098.
  set (h := _handle_rsa_enc_dec_error L key).
  unfold outcome, assert_, call, call_out, log, bind, ret, raise.
  cbn [fst snd err_queue heap trace].
  destruct (0 <? RSA_size L (_rsa_cdata key)); cbn; [| intros; crypt_cases].
  destruct (is_public key); cbn.
  all: intros H; apply (when_handle_error L key _ (ret _) _ e) in H;
       subst h;
       destruct H as [[_ Hc] | [_ Hk]]; [exact Hc | discriminate Hk].
Qed.

Lemma enc_dec_raises : forall L key data p w e,
  outcome (_enc_dec_rsa L key data p) w = Raise e ->
  outcome (enc_dec_padding_enum L p) w = Raise e \/ crypt_failure e.
Proof.
  intros L key data p w e. unfold _enc_dec_rsa, outcome, bind.
  pose proof (padding_enum_store L p w) as Hs.
  destruct (enc_dec_padding_enum L p w) as [[pe | e'] w']; simpl in *; subst w'.
  - intros H. right.
    destruct (Cryptography_HAS_PKEY_CTX L).
    + exact (enc_dec_pkey_ctx_raises L key data pe w e H).
    + exact (enc_dec_098_raises L key data pe w e H).
  - intros H. left. inversion H. reflexivity.
Qed.

Lemma crypt_failure_class : forall A e c,
  crypt_failure e ->
  c <> DataTooLarge -> c <> DecryptionFailed ->
  fails_with (Raise e : result A) c = false.
Proof.
  intros A e c [-> | [-> | ->]] H1 H2; destruct c; try reflexivity; congruence.
Qed.

Lemma padding_enum_oaep : forall L o w,
  outcome (enc_dec_padding_enum L (Padding (OAEP o))) w =
    match oaep_mgf o with
    | OtherMGF => Raise (UnsupportedAlgorithm msg_mgf1_only UNSUPPORTED_MGF)
    | MGF1 h =>
        if negb (is_SHA1 h)
        then Raise (UnsupportedAlgorithm msg_oaep_mgf1_sha1 UNSUPPORTED_HASH)
        else if has_label (oaep_label o)
        then Raise (ValueError msg_oaep_labels)
        else if negb (is_SHA1 (oaep_algorithm o))
        then Raise (UnsupportedAlgorithm msg_oaep_sha1 UNSUPPORTED_HASH)
        else Ok (RSA_PKCS1_OAEP_PADDING L)
    end.
Proof.
  intros L o w. unfold enc_dec_padding_enum.
  destruct (oaep_mgf o) as [h |]; [| reflexivity].
  run. destruct (is_SHA1 h), (has_label (oaep_label o)),
         (is_SHA1 (oaep_algorithm o)); reflexivity.
Qed.

(** The class of failure of the padding checks decides the class of failure
    of the whole operation, for the classes that only those checks raise. *)
Lemma enc_dec_class : forall L key data p w c,
  c <> DataTooLarge -> c <> DecryptionFailed ->
  fails_with (outcome (_enc_dec_rsa L key data p) w) c =
  fails_with (outcome (enc_dec_padding_enum L p) w) c.
Proof.
  intros L key data p w c H1 H2.
  destruct (outcome (enc_dec_padding_enum L p) w) as [pe | e] eqn:E.
  - destruct (outcome (_enc_dec_rsa L key data p) w) as [b | e] eqn:E'.
    + reflexivity.
    + apply enc_dec_raises in E'. destruct E' as [E' | E'].
      * congruence.
      * rewrite (crypt_failure_class _ e c) by assumption. reflexivity.
  - unfold outcome at 1. rewrite (enc_dec_padding_raise L key data p w e E).
    reflexivity.
Qed.

(** C8 (amended).  An OAEP padding whose MGF is MGF1 over SHA-1 and whose
    label is not empty makes [encrypt], and [decrypt] of a ciphertext of the
    key's byte length, fail with the [ValueError] for OAEP labels (the
    specification's [UnsupportedFeature]), before any collaborator is
    called.  With an absent or empty label neither operation fails with
    that error. *)
Theorem oaep_label_rejected :
  forall L w o,
    (forall h,
        oaep_mgf o = MGF1 h -> is_SHA1 h = true ->
        has_label (oaep_label o) = true ->
        (forall self data,
            encrypt L self data (Padding (OAEP o)) w =
              (Raise (ValueError msg_oaep_labels), w))
        /\ (forall self ct,
            is_ceil8 (priv_key_size self) (len ct) ->
            decrypt L self ct (Padding (OAEP o)) w =
              (Raise (ValueError msg_oaep_labels), w))
        /\ fails_with (Raise (ValueError msg_oaep_labels) : result bytes)
                      UnsupportedFeature = true)
    /\ (has_label (oaep_label o) = false ->
        (forall self data,
            fails_with (outcome (encrypt L self data (Padding (OAEP o))) w)
                       UnsupportedFeature = false)
        /\ (forall self ct,
            fails_with (outcome (decrypt L self ct (Padding (OAEP o))) w)
                       UnsupportedFeature = false)).
Proof.
  intros L w o. split.
  - intros h Hmgf Hsha Hlabel.
    assert (Hp : outcome (enc_dec_padding_enum L (Padding (OAEP o))) w =
                 Raise (ValueError msg_oaep_labels)).
    { rewrite padding_enum_oaep, Hmgf, Hsha, Hlabel. reflexivity. }
    split; [| split].
    + intros self data. unfold encrypt.
      apply enc_dec_padding_raise. exact Hp.
    + intros self ct Hlen. rewrite decrypt_right_length by assumption.
      apply enc_dec_padding_raise. exact Hp.
    + reflexivity.
  - intros Hlabel.
    assert (Hp : forall key data,
               fails_with (outcome (_enc_dec_rsa L key data
                                      (Padding (OAEP o))) w)
                          UnsupportedFeature = false).
    { intros key data. rewrite enc_dec_class by discriminate.
      rewrite padding_enum_oaep, Hlabel.
      destruct (oaep_mgf o) as [h |]; [| reflexivity].
      destruct (is_SHA1 h), (is_SHA1 (oaep_algorithm o)); reflexivity. }
    split.
    + intros self data. apply Hp.
    + intros self ct. unfold decrypt.
      destruct (negb (ceil_div8 (priv_key_size self) =? len ct)).
      * reflexivity.
      * apply Hp.
Qed.

(** A one-byte label. *)
Lemma oaep_label_rejected_witness :
  encrypt (Ref.lib true true) (Ref.public_key_of (Ref.private_key 1024))
          [Byte.x41]
          (Padding (OAEP (mkOAEP (MGF1 SHA1) SHA1 (Some [Byte.x6c]))))
          empty_world
  = (Raise (ValueError msg_oaep_labels), empty_world).
Proof.
  apply (proj1 (oaep_label_rejected (Ref.lib true true) empty_world
                  (mkOAEP (MGF1 SHA1) SHA1 (Some [Byte.x6c]))) SHA1).
  - reflexivity.
  - reflexivity.
  - reflexivity.
Defined.

(** With a label and MGF1 over SHA-256, or an MGF that is not MGF1, the
    failure is the one of the MGF check, which comes first. *)
Lemma oaep_label_other_failure :
  outcome
    (encrypt (Ref.lib true true) (Ref.public_key_of (Ref.private_key 1024))
             [Byte.x41]
             (Padding (OAEP (mkOAEP (MGF1 SHA256) SHA1 (Some [Byte.x6c])))))
    empty_world
  = Raise (UnsupportedAlgorithm msg_oaep_mgf1_sha1 UNSUPPORTED_HASH)
  /\ fails_with
       (outcome
          (encrypt (Ref.lib true true)
                   (Ref.public_key_of (Ref.private_key 1024)) [Byte.x41]
                   (Padding (OAEP (mkOAEP (MGF1 SHA256) SHA1
                                          (Some [Byte.x6c])))))
          empty_world)
       UnsupportedFeature = false
  /\ fails_with
       (outcome
          (encrypt (Ref.lib true true)
                   (Ref.public_key_of (Ref.private_key 1024)) [Byte.x41]
                   (Padding (OAEP (mkOAEP OtherMGF SHA1 (Some [Byte.x6c])))))
          empty_world)
       UnsupportedFeature = false.
Proof. repeat split. Qed.

(** ** Creation of signature and verification contexts *)

Lemma signer_pss : forall L self pss alg w,
  let pkey_size := EVP_PKEY_size L (priv_evp_pkey self) in
  signer L self (Padding (PSS pss)) alg w =
    match pss_check L pkey_size pss alg msg_digest_too_large with
    | Some e => (Raise e, with_trace w ["EVP_PKEY_size"%string])
    | None =>
        (Ok (mkSignatureContext self pkey_size
               (if Cryptography_HAS_PKEY_CTX L
                then finalize_pkey_ctx else finalize_pss)
               (if Cryptography_HAS_PKEY_CTX L
                then Some (RSA_PKCS1_PSS_PADDING L) else None)
               (PSS pss) alg (mkHash alg (List.length (heap w)))),
         with_hash w alg)
    end.
Proof.
  intros L self pss alg w pkey_size.
  unfold signer, signature_context_init, pss_check, Hash_new. run.
  fold pkey_size.
  destruct (pss_mgf pss) as [h |]; [| reflexivity].
  destruct (0 <? pkey_size); [| reflexivity].
  destruct (pkey_size - digest_size alg - 2 <? 0); [reflexivity |].
  destruct (_mgf1_hash_supported L h); [| reflexivity].
  destruct (Cryptography_HAS_PKEY_CTX L); reflexivity.
Qed.

Lemma verifier_pss : forall L self sig pss alg w,
  let pkey_size := EVP_PKEY_size L (pub_evp_pkey self) in
  verifier L self sig (Padding (PSS pss)) alg w =
    match pss_check L pkey_size pss alg msg_digest_too_large_verify with
    | Some e => (Raise e, with_trace w ["EVP_PKEY_size"%string])
    | None =>
        (Ok (mkVerificationContext self sig pkey_size
               (if Cryptography_HAS_PKEY_CTX L
                then verify_pkey_ctx else verify_pss)
               (if Cryptography_HAS_PKEY_CTX L
                then Some (RSA_PKCS1_PSS_PADDING L) else None)
               (PSS pss) alg (mkHash alg (List.length (heap w)))),
         with_hash w alg)
    end.
Proof.
  intros L self sig pss alg w pkey_size.
  unfold verifier, verification_context_init, pss_check, Hash_new. run.
  fold pkey_size.
  destruct (pss_mgf pss) as [h |]; [| reflexivity].
  destruct (0 <? pkey_size); [| reflexivity].
  destruct (pkey_size - digest_size alg - 2 <? 0); [reflexivity |].
  destruct (_mgf1_hash_supported L h); [| reflexivity].
  destruct (Cryptography_HAS_PKEY_CTX L); reflexivity.
Qed.

Lemma signer_pkcs1 : forall L self alg w,
  signer L self (Padding PKCS1v15) alg w =
    (Ok (mkSignatureContext self (EVP_PKEY_size L (priv_evp_pkey self))
           (if Cryptography_HAS_PKEY_CTX L
            then finalize_pkey_ctx else finalize_pkcs1)
           (if Cryptography_HAS_PKEY_CTX L
            then Some (RSA_PKCS1_PADDING L) else None)
           PKCS1v15 alg (mkHash alg (List.length (heap w)))),
     with_hash w alg).
Proof.
  intros L self alg w.
  unfold signer, signature_context_init, Hash_new. run.
  destruct (Cryptography_HAS_PKEY_CTX L); reflexivity.
Qed.

Lemma verifier_pkcs1 : forall L self sig alg w,
  verifier L self sig (Padding PKCS1v15) alg w =
    (Ok (mkVerificationContext self sig (EVP_PKEY_size L (pub_evp_pkey self))
           (if Cryptography_HAS_PKEY_CTX L
            then verify_pkey_ctx else verify_pkcs1)
           (if Cryptography_HAS_PKEY_CTX L
            then Some (RSA_PKCS1_PADDING L) else None)
           PKCS1v15 alg (mkHash alg (List.length (heap w)))),
     with_hash w alg).
Proof.
  intros L self sig alg w.
  unfold verifier, verification_context_init, Hash_new. run.
  destruct (Cryptography_HAS_PKEY_CTX L); reflexivity.
Qed.

(** C2 (amended).  For a PSS padding over MGF1, creating a signature or a
    verification context fails with the [ValueError] for a digest too large
    for the key (the specification's [KeyTooSmall]) whenever
    [key_size_bytes - digest_size - 2 < 0]; it does so at creation, when
    nothing but the key's size has been asked of the library and no hash
    object exists yet.  For PKCS#1 v1.5 a context is created whatever the
    two sizes are. *)
Theorem key_too_small_at_creation :
  forall L alg w,
    (forall self pss h,
        pss_mgf pss = MGF1 h ->
        0 < EVP_PKEY_size L (priv_evp_pkey self) ->
        EVP_PKEY_size L (priv_evp_pkey self) - digest_size alg - 2 < 0 ->
        signer L self (Padding (PSS pss)) alg w =
          (Raise (ValueError msg_digest_too_large),
           with_trace w ["EVP_PKEY_size"%string])
        /\ fails_with (Raise (ValueError msg_digest_too_large)
                       : result _RSASignatureContext) KeyTooSmall = true)
    /\ (forall self sig pss h,
        pss_mgf pss = MGF1 h ->
        0 < EVP_PKEY_size L (pub_evp_pkey self) ->
        EVP_PKEY_size L (pub_evp_pkey self) - digest_size alg - 2 < 0 ->
        verifier L self sig (Padding (PSS pss)) alg w =
          (Raise (ValueError msg_digest_too_large_verify),
           with_trace w ["EVP_PKEY_size"%string])
        /\ fails_with (Raise (ValueError msg_digest_too_large_verify)
                       : result _RSAVerificationContext) KeyTooSmall = true)
    /\ (forall self,
        exists ctx, signer L self (Padding PKCS1v15) alg w
                    = (Ok ctx, with_hash w alg))
    /\ (forall self sig,
        exists ctx, verifier L self sig (Padding PKCS1v15) alg w
                    = (Ok ctx, with_hash w alg)).
Proof.
  intros L alg w. split; [| split; [| split]].
  - intros self pss h Hmgf Hpos Hsmall. split; [| reflexivity].
    rewrite signer_pss. unfold pss_check. rewrite Hmgf.
    apply Z.ltb_lt in Hpos, Hsmall. rewrite Hpos, Hsmall. reflexivity.
  - intros self sig pss h Hmgf Hpos Hsmall. split; [| reflexivity].
    rewrite verifier_pss. unfold pss_check. rewrite Hmgf.
    apply Z.ltb_lt in Hpos, Hsmall. rewrite Hpos, Hsmall. reflexivity.
  - intros self. eexists. apply signer_pkcs1.
  - intros self sig. eexists. apply verifier_pkcs1.
Qed.

(** PSS with SHA-512 on a 512-bit key: 64 - 64 - 2 < 0. *)
Lemma key_too_small_at_creation_witness :
  signer (Ref.lib true true) (Ref.private_key 512)
         (Padding (PSS (mkPSS (MGF1 SHA1) PSS_MAX_LENGTH))) SHA512 empty_world
  = (Raise (ValueError msg_digest_too_large),
     with_trace empty_world ["EVP_PKEY_size"%string]).
Proof.
  apply (proj1 (key_too_small_at_creation (Ref.lib true true) SHA512
                  empty_world) (Ref.private_key 512)
               (mkPSS (MGF1 SHA1) PSS_MAX_LENGTH) SHA1).
  - reflexivity.
  - vm_compute. reflexivity.
  - vm_compute. reflexivity.
Defined.

(** PKCS#1 v1.5 with SHA-512 on a 512-bit key: the same sizes, and a
    context is created. *)
Lemma pkcs1_context_for_small_key :
  Ref.size (priv_rsa_cdata (Ref.private_key 512)) - digest_size SHA512 - 2 = -2
  /\ outcome (signer (Ref.lib false false) (Ref.private_key 512)
                     (Padding PKCS1v15) SHA512) empty_world
     = Ok (mkSignatureContext (Ref.private_key 512) 64 finalize_pkcs1 None
             PKCS1v15 SHA512 (mkHash SHA512 0))
  /\ fails_with (outcome (signer (Ref.lib false false) (Ref.private_key 512)
                                 (Padding PKCS1v15) SHA512) empty_world)
                KeyTooSmall = false
  /\ fails_with (outcome (verifier (Ref.lib true true)
                            (Ref.public_key_of (Ref.private_key 512))
                            [Byte.x00] (Padding PKCS1v15) SHA512) empty_world)
                KeyTooSmall = false.
Proof. repeat split. Qed.

(** C9 (amended).  OAEP, for [encrypt] and for [decrypt] of a ciphertext of
    the key's byte length: an MGF that is not MGF1 fails with
    [UNSUPPORTED_MGF]; MGF1 over a hash other than SHA-1 fails with
    [UNSUPPORTED_HASH]; with MGF1 over SHA-1 the operation never fails with
    [UNSUPPORTED_MGF], and it fails with [UNSUPPORTED_HASH] exactly when the
    label is absent or empty and the hash of the OAEP padding itself is not
    SHA-1.  PSS, for the creation of a signature or verification context: an
    MGF that is not MGF1 fails with [UNSUPPORTED_MGF]; MGF1 over a hash the
    backend does not support fails with [UNSUPPORTED_HASH] when the key is
    large enough for the digest; MGF1 over a supported hash raises neither
    error. *)
Theorem mgf_validation :
  forall L w,
    (forall o pub data,
        oaep_mgf o = OtherMGF ->
        encrypt L pub data (Padding (OAEP o)) w =
          (Raise (UnsupportedAlgorithm msg_mgf1_only UNSUPPORTED_MGF), w))
    /\ (forall o self ct,
        oaep_mgf o = OtherMGF ->
        is_ceil8 (priv_key_size self) (len ct) ->
        decrypt L self ct (Padding (OAEP o)) w =
          (Raise (UnsupportedAlgorithm msg_mgf1_only UNSUPPORTED_MGF), w))
    /\ (forall o h pub self data ct,
        oaep_mgf o = MGF1 h -> is_SHA1 h = false ->
        is_ceil8 (priv_key_size self) (len ct) ->
        encrypt L pub data (Padding (OAEP o)) w =
          (Raise (UnsupportedAlgorithm msg_oaep_mgf1_sha1 UNSUPPORTED_HASH), w)
        /\ decrypt L self ct (Padding (OAEP o)) w =
          (Raise (UnsupportedAlgorithm msg_oaep_mgf1_sha1 UNSUPPORTED_HASH), w))
    /\ (forall o h pub self data ct,
        oaep_mgf o = MGF1 h -> is_SHA1 h = true ->
        is_ceil8 (priv_key_size self) (len ct) ->
        fails_with (outcome (encrypt L pub data (Padding (OAEP o))) w)
                   UnsupportedMaskGenerationFunction = false
        /\ fails_with (outcome (decrypt L self ct (Padding (OAEP o))) w)
                      UnsupportedMaskGenerationFunction = false
        /\ fails_with (outcome (encrypt L pub data (Padding (OAEP o))) w)
                      UnsupportedHash
           = negb (has_label (oaep_label o))
             && negb (is_SHA1 (oaep_algorithm o))
        /\ fails_with (outcome (decrypt L self ct (Padding (OAEP o))) w)
                      UnsupportedHash
           = negb (has_label (oaep_label o))
             && negb (is_SHA1 (oaep_algorithm o)))
    /\ (forall pss self pub sig alg,
        pss_mgf pss = OtherMGF ->
        outcome (signer L self (Padding (PSS pss)) alg) w =
          Raise (UnsupportedAlgorithm msg_mgf1_only UNSUPPORTED_MGF)
        /\ outcome (verifier L pub sig (Padding (PSS pss)) alg) w =
          Raise (UnsupportedAlgorithm msg_mgf1_only UNSUPPORTED_MGF))
    /\ (forall pss h self alg,
        pss_mgf pss = MGF1 h -> _mgf1_hash_supported L h = false ->
        0 <= EVP_PKEY_size L (priv_evp_pkey self) - digest_size alg - 2 ->
        0 < EVP_PKEY_size L (priv_evp_pkey self) ->
        outcome (signer L self (Padding (PSS pss)) alg) w =
          Raise (UnsupportedAlgorithm msg_mgf1_old_openssl UNSUPPORTED_HASH))
    /\ (forall pss h pub sig alg,
        pss_mgf pss = MGF1 h -> _mgf1_hash_supported L h = false ->
        0 <= EVP_PKEY_size L (pub_evp_pkey pub) - digest_size alg - 2 ->
        0 < EVP_PKEY_size L (pub_evp_pkey pub) ->
        outcome (verifier L pub sig (Padding (PSS pss)) alg) w =
          Raise (UnsupportedAlgorithm msg_mgf1_old_openssl UNSUPPORTED_HASH))
    /\ (forall pss h self pub sig alg,
        pss_mgf pss = MGF1 h -> _mgf1_hash_supported L h = true ->
        fails_with (outcome (signer L self (Padding (PSS pss)) alg) w)
                   UnsupportedMaskGenerationFunction = false
        /\ fails_with (outcome (signer L self (Padding (PSS pss)) alg) w)
                      UnsupportedHash = false
        /\ fails_with (outcome (verifier L pub sig (Padding (PSS pss)) alg) w)
                      UnsupportedMaskGenerationFunction = false
        /\ fails_with (outcome (verifier L pub sig (Padding (PSS pss)) alg) w)
                      UnsupportedHash = false).
Proof.
  intros L w.
  assert (Hraise : forall o e key data,
             outcome (enc_dec_padding_enum L (Padding (OAEP o))) w = Raise e ->
             _enc_dec_rsa L key data (Padding (OAEP o)) w = (Raise e, w)).
  { intros. now apply enc_dec_padding_raise. }
  split; [| split; [| split; [| split; [| split; [| split; [| split]]]]]].
  - intros o pub data Hmgf. unfold encrypt. apply Hraise.
    rewrite padding_enum_oaep, Hmgf. reflexivity.
  - intros o self ct Hmgf Hlen.
    rewrite decrypt_right_length by assumption. apply Hraise.
    rewrite padding_enum_oaep, Hmgf. reflexivity.
  - intros o h pub self data ct Hmgf Hsha Hlen.
    assert (Hp : outcome (enc_dec_padding_enum L (Padding (OAEP o))) w =
                 Raise (UnsupportedAlgorithm msg_oaep_mgf1_sha1
                                             UNSUPPORTED_HASH)).
    { rewrite padding_enum_oaep, Hmgf, Hsha. reflexivity. }
    split.
    + unfold encrypt. now apply Hraise.
    + rewrite decrypt_right_length by assumption. now apply Hraise.
  - intros o h pub self data ct Hmgf Hsha Hlen.
    unfold outcome at 2 4. rewrite !decrypt_right_length by assumption.
    fold (outcome (_enc_dec_rsa L (PrivateKey self) ct (Padding (OAEP o))) w).
    unfold encrypt. rewrite !enc_dec_class by discriminate.
    rewrite padding_enum_oaep, Hmgf, Hsha. cbn [negb].
    destruct (has_label (oaep_label o)), (is_SHA1 (oaep_algorithm o));
      repeat split.
  - intros pss self pub sig alg Hmgf. unfold outcome.
    rewrite signer_pss, verifier_pss. unfold pss_check. rewrite Hmgf.
    split; reflexivity.
  - intros pss h self alg Hmgf Hsup Hsize Hpos. unfold outcome.
    rewrite signer_pss. unfold pss_check. rewrite Hmgf, Hsup.
    apply Z.ltb_lt in Hpos. apply Z.ltb_ge in Hsize.
    rewrite Hpos, Hsize. reflexivity.
  - intros pss h pub sig alg Hmgf Hsup Hsize Hpos. unfold outcome.
    rewrite verifier_pss. unfold pss_check. rewrite Hmgf, Hsup.
    apply Z.ltb_lt in Hpos. apply Z.ltb_ge in Hsize.
    rewrite Hpos, Hsize. reflexivity.
  - intros pss h self pub sig alg Hmgf Hsup. unfold outcome.
    rewrite signer_pss, verifier_pss. unfold pss_check. rewrite Hmgf, Hsup.
    destruct (0 <? EVP_PKEY_size L (priv_evp_pkey self)),
             (EVP_PKEY_size L (priv_evp_pkey self) - digest_size alg - 2 <? 0),
             (0 <? EVP_PKEY_size L (pub_evp_pkey pub)),
             (EVP_PKEY_size L (pub_evp_pkey pub) - digest_size alg - 2 <? 0);
      repeat split.
Qed.

(** MGF1 over SHA-256 where the MGF1 digest cannot be configured. *)
Lemma mgf_validation_witness :
  outcome (signer (Ref.lib true false) (Ref.private_key 1024)
                  (Padding (PSS (mkPSS (MGF1 SHA256) PSS_MAX_LENGTH))) SHA1)
          empty_world
  = Raise (UnsupportedAlgorithm msg_mgf1_old_openssl UNSUPPORTED_HASH).
Proof.
  apply (proj1 (proj2 (proj2 (proj2 (proj2 (proj2
           (mgf_validation (Ref.lib true false) empty_world)))))))
    with (h := SHA256).
  - reflexivity.
  - reflexivity.
  - vm_compute. discriminate.
  - vm_compute. reflexivity.
Defined.

(** OAEP with MGF1 over SHA-1 and SHA-256 as its own hash fails with
    [UNSUPPORTED_HASH] although the MGF is supported; PSS with MGF1 over an
    unsupported hash, on a key too small for the digest, fails for the key
    size and not for the hash. *)
Lemma mgf_validation_other_failures :
  is_SHA1 SHA1 = true
  /\ fails_with
       (outcome
          (encrypt (Ref.lib true true)
                   (Ref.public_key_of (Ref.private_key 1024)) [Byte.x41]
                   (Padding (OAEP (mkOAEP (MGF1 SHA1) SHA256 None))))
          empty_world)
       UnsupportedHash = true
  /\ _mgf1_hash_supported (Ref.lib true true) (CustomHash "custom" 20) = false
  /\ outcome
       (signer (Ref.lib true true) (Ref.private_key 512)
               (Padding (PSS (mkPSS (MGF1 (CustomHash "custom" 20))
                                    PSS_MAX_LENGTH))) SHA512)
       empty_world
     = Raise (ValueError msg_digest_too_large)
  /\ fails_with
       (outcome
          (signer (Ref.lib true true) (Ref.private_key 512)
                  (Padding (PSS (mkPSS (MGF1 (CustomHash "custom" 20))
                                       PSS_MAX_LENGTH))) SHA512)
          empty_world)
       UnsupportedHash = false.
Proof. repeat split. Qed.

(** ** Failure of decryption and verification *)

Lemma mem_In : forall x l, mem x l = true <-> In x l.
Proof.
  intros x l. unfold mem. rewrite existsb_exists. split.
  - intros [y [Hy Heq]]. apply Z.eqb_eq in Heq. now subst.
  - intros H. exists x. split; [exact H | apply Z.eqb_refl].
Qed.

(** A first error of the RSA library whose reason is one of the backend's
    decoding errors is reported as a failed decryption. *)
Lemma handle_decoding_error : forall L self w e q,
  err_queue w = e :: q ->
  err_lib e = ERR_LIB_RSA L ->
  In (err_reason e) (decoding_errors L) ->
  outcome (_handle_rsa_enc_dec_error L (PrivateKey self)) w =
    Raise (ValueError msg_decryption_failed).
Proof.
  intros L self w e q Hq Hlib Hin. apply mem_In in Hin.
  unfold _handle_rsa_enc_dec_error. run. rewrite Hq.
  cbn -[mem decoding_errors].
  rewrite Hlib, Z.eqb_refl. cbn -[mem decoding_errors].
  rewrite Hin. reflexivity.
Qed.

(** A first error whose reason is not one of the backend's decoding errors
    stops the handler on its assertion. *)
Lemma handle_other_error : forall L self w e q,
  err_queue w = e :: q ->
  ~ In (err_reason e) (decoding_errors L) ->
  outcome (_handle_rsa_enc_dec_error L (PrivateKey self)) w =
    Raise AssertionError.
Proof.
  intros L self w e q Hq Hin.
  assert (Hm : mem (err_reason e) (decoding_errors L) = false).
  { destruct (mem (err_reason e) (decoding_errors L)) eqn:E;
      [apply mem_In in E; contradiction | reflexivity]. }
  unfold _handle_rsa_enc_dec_error. run. rewrite Hq.
  cbn -[mem decoding_errors].
  destruct (err_lib e =? ERR_LIB_RSA L); cbn -[mem decoding_errors];
    [| reflexivity].
  rewrite Hm. reflexivity.
Qed.

Lemma handle_error_queue : forall L key w w',
  err_queue w = err_queue w' ->
  outcome (_handle_rsa_enc_dec_error L key) w =
  outcome (_handle_rsa_enc_dec_error L key) w'.
Proof.
  intros L key w w' H. unfold _handle_rsa_enc_dec_error. run. rewrite H.
  cbn -[mem decoding_errors]. repeat break_match; reflexivity.
Qed.

Lemma when_handle_error_raise : forall L key (k : M bytes) w x,
  outcome (_handle_rsa_enc_dec_error L key) w = Raise x ->
  outcome (when true (_handle_rsa_enc_dec_error L key) ;; k) w = Raise x.
Proof.
  intros L key k w x H. unfold outcome, when, bind in *.
  destruct (_handle_rsa_enc_dec_error L key w) as [r w']. simpl in H.
  subst r. reflexivity.
Qed.

Lemma decrypt_reported_failure : forall L self ct p pe w o e q x,
  is_ceil8 (priv_key_size self) (len ct) ->
  outcome (enc_dec_padding_enum L p) w = Ok pe ->
  decryption_fails L self ct pe o ->
  err_queue w ++ out_errors o = e :: q ->
  outcome (_handle_rsa_enc_dec_error L (PrivateKey self))
          (mkWorld (e :: q) (heap w) (trace w)) = Raise x ->
  outcome (decrypt L self ct p) w = Raise x.
Proof.
  intros L self ct p pe w o e q x Hlen Hp Hfail Hq Hx.
  unfold outcome at 1. rewrite decrypt_right_length by assumption.
  unfold _enc_dec_rsa. unfold outcome in Hp.
  pose proof (padding_enum_store L p w) as Hs.
  destruct (enc_dec_padding_enum L p w) as [r w'] eqn:E.
  simpl in Hp, Hs. subst r w'.
  rewrite (bind_ok _ _ _ _ _ _ _ E).
  unfold decryption_fails in Hfail.
  destruct (Cryptography_HAS_PKEY_CTX L).
  - destruct Hfail as (Hnew & Hinit & Hpad & Hsize & Ho & Hres).
    unfold _enc_dec_rsa_pkey_ctx.
    set (h := _handle_rsa_enc_dec_error L (PrivateKey self)).
    unfold assert_, call, call_out, log, bind, ret, raise.
    cbn [fst snd err_queue heap trace _evp_pkey is_public].
    rewrite Hnew. cbn. rewrite Hinit. cbn.
    apply Z.ltb_lt in Hpad, Hsize. rewrite Hpad. cbn. rewrite Hsize. cbn.
    rewrite <- Ho, Hq. apply Z.leb_le in Hres. rewrite Hres. subst h.
    apply (when_handle_error_raise L (PrivateKey self) (ret _)).
    rewrite <- Hx. apply handle_error_queue. reflexivity.
  - destruct Hfail as (Hsize & Ho & Hres).
    unfold _enc_dec_rsa_098.
    set (h := _handle_rsa_enc_dec_error L (PrivateKey self)).
    unfold assert_, call, call_out, log, bind, ret, raise.
    cbn [fst snd err_queue heap trace _rsa_cdata is_public].
    apply Z.ltb_lt in Hsize. rewrite Hsize. cbn.
    rewrite <- Ho, Hq. apply Z.ltb_lt in Hres. rewrite Hres. subst h.
    apply (when_handle_error_raise L (PrivateKey self) (ret _)).
    rewrite <- Hx. apply handle_error_queue. reflexivity.
Qed.

Lemma handle_private_error : forall L self w x,
  outcome (_handle_rsa_enc_dec_error L (PrivateKey self)) w = Raise x ->
  x = AssertionError \/ x = ValueError msg_decryption_failed.
Proof.
  intros L self w x. unfold _handle_rsa_enc_dec_error, nonempty. run.
  cbn -[mem decoding_errors].
  repeat (break_match; cbn -[mem decoding_errors]);
    intros H; inversion H; auto.
Qed.

Lemma when_handle_private_error : forall L self b (k : M bytes) w e,
  outcome (when b (_handle_rsa_enc_dec_error L (PrivateKey self)) ;; k) w
    = Raise e ->
  (e = AssertionError \/ e = ValueError msg_decryption_failed)
  \/ outcome k w = Raise e.
Proof.
  intros L self b k w e H. destruct b.
  - left.
    destruct (handle_error_raises L (PrivateKey self) w) as [e' [He' _]].
    pose proof (handle_private_error L self w e' He') as Hp.
    unfold outcome, when, bind in *.
    destruct (_handle_rsa_enc_dec_error L (PrivateKey self) w) as [r w'].
    simpl in He'. subst r. simpl in H. inversion H. subst. exact Hp.
  - right. exact H.
Qed.

(** Past the checks on the ciphertext length and on the padding, a
    decryption fails with a failed assertion or with the one [ValueError]
    of a failed decryption. *)
Lemma private_decrypt_failures : forall L self ct padding_enum w e,
  outcome (if Cryptography_HAS_PKEY_CTX L
           then _enc_dec_rsa_pkey_ctx L (PrivateKey self) ct padding_enum
           else _enc_dec_rsa_098 L (PrivateKey self) ct padding_enum) w
    = Raise e ->
  e = AssertionError \/ e = ValueError msg_decryption_failed.
Proof.
  intros L self ct pe w e.
  destruct (Cryptography_HAS_PKEY_CTX L).
  - unfold _enc_dec_rsa_pkey_ctx.
    set (h := _handle_rsa_enc_dec_error L (PrivateKey self)).
    unfold outcome, assert_, call, call_out, log, bind, ret, raise.
    cbn [fst snd err_queue heap trace is_public].
    repeat match goal with
      | |- context [if ?c then _ else _] =>
          lazymatch c with
          | context [out_res] => fail
          | _ => destruct c; cbn;
                 [| let H := fresh in intros H; inversion H; auto]
          end
      end.
    intros H. subst h.
    apply (when_handle_private_error L self _ (ret _) _ e) in H.
    destruct H as [H | H]; [exact H | discriminate H].
  - unfold _enc_dec_rsa_098.
    set (h := _handle_rsa_enc_dec_error L (PrivateKey self)).
    unfold outcome, assert_, call, call_out, log, bind, ret, raise.
    cbn [fst snd err_queue heap trace is_public].
    destruct (0 <? RSA_size L (_rsa_cdata (PrivateKey self))); cbn;
      [| intros H; inversion H; auto].
    intros H. subst h.
    apply (when_handle_private_error L self _ (ret _) _ e) in H.
    destruct H as [H | H]; [exact H | discriminate H].
Qed.

Ltac verification_cases :=
  repeat (cbn [fst snd err_queue heap trace];
          first [ match goal with
                  | |- _ = Raise _ -> _ =>
                      let H := fresh in
                      intros H; inversion H; subst;
                      solve [unfold verification_failure; eauto 6]
                  | |- fst (Ok _, _) = Raise _ -> _ =>
                      let H := fresh in intros H; discriminate H
                  end
                | break_match ]).

Lemma verify_failures : forall L self w e,
  outcome (verify L self) w = Raise e -> verification_failure e.
Proof.
  intros L self w e.
  unfold verify, _verify_pkey_ctx, _verify_pkcs1, _verify_pss,
         pkey_ctx_set_pss, get_digest, get_padding_enum, as_pss,
         raise_invalid_signature, Hash_finalize, hash__ctx, set_hash__ctx,
         _get_rsa_pss_salt_length, nonempty.
  run. verification_cases.
Qed.

Lemma raise_invalid_signature_nonempty : forall w,
  err_queue w <> [] ->
  raise_invalid_signature w =
    (Raise InvalidSignature, mkWorld [] (heap w) (trace w)).
Proof.
  intros w H. unfold raise_invalid_signature, nonempty. run.
  destruct (err_queue w); [contradiction | reflexivity].
Qed.

Lemma pkey_ctx_set_pss_store : forall L ctx p ks h w,
  err_queue (after (pkey_ctx_set_pss L ctx p ks h) w) = err_queue w
  /\ heap (after (pkey_ctx_set_pss L ctx p ks h) w) = heap w.
Proof.
  intros L ctx p ks h w.
  unfold pkey_ctx_set_pss, get_digest, _get_rsa_pss_salt_length. run.
  repeat (cbn [fst snd err_queue heap trace];
          first [ solve [split; reflexivity] | break_match ]).
Qed.

Lemma verify_pkcs1_invalid : forall L self w md hc,
  v_verify_method self = verify_pkcs1 ->
  EVP_get_digestbyname L (hash_name (v_algorithm self)) = Some md ->
  nth (hash_ref (v_hash_ctx self)) (heap w) None = Some hc ->
  let o := EVP_VerifyFinal L hc (v_signature self)
             (pub_evp_pkey (v_public_key self)) in
  out_res o = 0 ->
  err_queue w ++ out_errors o <> [] ->
  outcome (verify L self) w = Raise InvalidSignature.
Proof.
  intros L self w md hc Hm Hmd Hh o Hres Herr.
  unfold outcome, verify.
  rewrite (bind_ok _ _ _ _ _ _ _ (get_digest_found _ _ _ _ Hmd)).
  rewrite Hm. unfold _verify_pkcs1, Hash_finalize, hash__ctx, set_hash__ctx.
  run. cbn [with_trace heap err_queue trace]. rewrite Hh. fold o.
  cbn [fst snd err_queue heap trace]. rewrite ?Hh.
  cbn [fst snd err_queue heap trace]. rewrite Hres. cbn [Z.leb Z.eqb Z.compare].
  rewrite raise_invalid_signature_nonempty by exact Herr. reflexivity.
Qed.

Lemma verify_pss_wrong_size : forall L self w md,
  v_verify_method self = verify_pss ->
  EVP_get_digestbyname L (hash_name (v_algorithm self)) = Some md ->
  let o := RSA_public_decrypt L (v_signature self)
             (pub_rsa_cdata (v_public_key self)) (RSA_NO_PADDING L) in
  out_res o <> v_pkey_size self ->
  err_queue w ++ out_errors o <> [] ->
  verify L self w =
    (Raise InvalidSignature,
     mkWorld [] (heap w)
       ((trace w ++ ["EVP_get_digestbyname"%string])
        ++ ["RSA_public_decrypt"%string])).
Proof.
  intros L self w md Hm Hmd o Hres Herr.
  unfold verify.
  rewrite (bind_ok _ _ _ _ _ _ _ (get_digest_found _ _ _ _ Hmd)).
  rewrite Hm. unfold _verify_pss.
  run. cbn [with_trace heap err_queue trace]. fold o.
  apply Z.eqb_neq in Hres. rewrite Hres. cbn [negb].
  rewrite raise_invalid_signature_nonempty by exact Herr. reflexivity.
Qed.

Lemma verify_pss_invalid : forall L self w md hc pss salt,
  v_verify_method self = verify_pss ->
  v_padding self = PSS pss ->
  EVP_get_digestbyname L (hash_name (v_algorithm self)) = Some md ->
  nth (hash_ref (v_hash_ctx self)) (heap w) None = Some hc ->
  let rsa := pub_rsa_cdata (v_public_key self) in
  let o := RSA_public_decrypt L (v_signature self) rsa (RSA_NO_PADDING L) in
  let dgst := hash_digest L (hc_algorithm hc) (hc_data hc) in
  out_res o = v_pkey_size self ->
  _get_rsa_pss_salt_length pss (pub_key_size (v_public_key self)) (len dgst)
    = Ok salt ->
  let o' := RSA_verify_PKCS1_PSS L rsa dgst md
              (buffer (v_pkey_size self) (out_buf o)) salt in
  out_res o' <> 1 ->
  (err_queue w ++ out_errors o) ++ out_errors o' <> [] ->
  outcome (verify L self) w = Raise InvalidSignature.
Proof.
  intros L self w md hc pss salt Hm Hp Hmd Hh rsa o dgst Hres Hsalt o' Hres'
         Herr.
  unfold outcome, verify.
  rewrite (bind_ok _ _ _ _ _ _ _ (get_digest_found _ _ _ _ Hmd)).
  rewrite Hm. unfold _verify_pss, Hash_finalize, hash__ctx, set_hash__ctx,
                as_pss.
  run. cbn [with_trace heap err_queue trace]. fold rsa. fold o.
  rewrite Hres, Z.eqb_refl. cbn [negb fst snd err_queue heap trace].
  rewrite Hh. cbn [fst snd err_queue heap trace]. rewrite Hp. fold dgst.
  rewrite Hsalt. fold o'.
  apply Z.eqb_neq in Hres'. rewrite Hres'. cbn [negb].
  rewrite raise_invalid_signature_nonempty by exact Herr. reflexivity.
Qed.

Lemma verify_pkey_ctx_invalid : forall L self w md hc pe ctx,
  v_verify_method self = verify_pkey_ctx ->
  v_padding_enum self = Some pe ->
  EVP_get_digestbyname L (hash_name (v_algorithm self)) = Some md ->
  nth (hash_ref (v_hash_ctx self)) (heap w) None = Some hc ->
  let pkey := pub_evp_pkey (v_public_key self) in
  EVP_PKEY_CTX_new L pkey = true ->
  EVP_PKEY_verify_init L (new_ctx pkey) = 1 ->
  0 < EVP_PKEY_CTX_set_signature_md L (set_op (new_ctx pkey) OpVerify) md ->
  0 < EVP_PKEY_CTX_set_rsa_padding L
        (set_signature_md (set_op (new_ctx pkey) OpVerify) md) pe ->
  (forall w',
      outcome (pkey_ctx_set_pss L
                 (set_rsa_padding
                    (set_signature_md (set_op (new_ctx pkey) OpVerify) md) pe)
                 (v_padding self) (pub_key_size (v_public_key self))
                 (v_hash_ctx self)) w' = Ok ctx) ->
  let o := EVP_PKEY_verify L ctx (v_signature self)
             (hash_digest L (hc_algorithm hc) (hc_data hc)) in
  out_res o = 0 ->
  err_queue w ++ out_errors o <> [] ->
  outcome (verify L self) w = Raise InvalidSignature.
Proof.
  intros L self w md hc pe ctx Hm Hpe Hmd Hh pkey Hnew Hinit Hsmd Hpad Hpss
         o Hres Herr.
  unfold outcome, verify.
  rewrite (bind_ok _ _ _ _ _ _ _ (get_digest_found _ _ _ _ Hmd)).
  rewrite Hm. unfold _verify_pkey_ctx, get_padding_enum. cbv zeta.
  fold pkey. apply Z.ltb_lt in Hsmd, Hpad.
  rewrite Hpe.
  repeat first [ rewrite bind_call | rewrite bind_ret
               | rewrite bind_assert_true
               | rewrite Hnew | rewrite Hinit | rewrite Z.eqb_refl
               | rewrite Hsmd | rewrite Hpad ].
  match goal with
  | |- context [bind (pkey_ctx_set_pss L ?c ?p ?k ?h) ?f ?W] =>
      pose proof (Hpss W) as Hc;
      pose proof (pkey_ctx_set_pss_store L c p k h W) as [Hq Hhp];
      unfold outcome, after in Hc, Hq, Hhp; unfold bind at 1;
      destruct (pkey_ctx_set_pss L c p k h W) as [r W'] eqn:E
  end.
  cbn [fst snd] in Hc, Hq, Hhp. subst r.
  unfold with_trace in Hq, Hhp. cbn [err_queue heap trace] in Hq, Hhp.
  unfold Hash_finalize, hash__ctx, set_hash__ctx. run.
  rewrite Hhp, Hh. cbn [fst snd err_queue heap trace]. fold o.
  rewrite Hres. cbn [Z.leb Z.eqb Z.compare].
  rewrite raise_invalid_signature_nonempty; [reflexivity |].
  cbn [err_queue]. rewrite Hq. exact Herr.
Qed.

(** Failures are reported without their cause where the backend knows the
    cause.  A decryption that reaches the library and fails there with,
    first in the queue, an error of the RSA library whose reason is one of
    the backend's decoding errors ([RSA_R_BLOCK_TYPE_IS_NOT_01],
    [RSA_R_BLOCK_TYPE_IS_NOT_02] and, where the library has it,
    [RSA_R_PKCS_DECODING_ERROR]) raises the one [ValueError] of a failed
    decryption, whichever of these reasons it is; past the checks on length
    and padding a decryption raises nothing else but a failed assertion.  A
    verification that the library reports as failed raises
    [InvalidSignature] whatever the errors in the queue are, and a
    verification raises no other exception but [AlreadyFinalized] or a
    failed assertion or attribute access. *)
Theorem failures_undifferentiated :
  forall L,
    (forall self ct p padding_enum w o e q,
        is_ceil8 (priv_key_size self) (len ct) ->
        outcome (enc_dec_padding_enum L p) w = Ok padding_enum ->
        decryption_fails L self ct padding_enum o ->
        err_queue w ++ out_errors o = e :: q ->
        err_lib e = ERR_LIB_RSA L ->
        In (err_reason e) (decoding_errors L) ->
        outcome (decrypt L self ct p) w =
          Raise (ValueError msg_decryption_failed))
    /\ (forall self ct padding_enum w e,
        outcome (if Cryptography_HAS_PKEY_CTX L
                 then _enc_dec_rsa_pkey_ctx L (PrivateKey self) ct padding_enum
                 else _enc_dec_rsa_098 L (PrivateKey self) ct padding_enum) w
          = Raise e ->
        e = AssertionError \/ e = ValueError msg_decryption_failed)
    /\ (forall self w,
        verification_fails L self w ->
        outcome (verify L self) w = Raise InvalidSignature)
    /\ (forall self w e,
        outcome (verify L self) w = Raise e -> verification_failure e).
Proof.
  intros L. split; [| split; [| split]].
  - intros self ct p pe w o e q Hlen Hp Hfail Hq Hlib Hin.
    apply (decrypt_reported_failure L self ct p pe w o e q); try assumption.
    apply (handle_decoding_error L self _ e q); [reflexivity | assumption ..].
  - apply private_decrypt_failures.
  - intros self w (md & hc & Hmd & Hh & H).
    destruct (v_verify_method self) eqn:Hm.
    + destruct H as (pe & ctx & Hpe & Hnew & Hinit & Hsmd & Hpad & Hpss & Hres
                     & Herr).
      now apply (verify_pkey_ctx_invalid L self w md hc pe ctx).
    + destruct H as (Hres & Herr).
      now apply (verify_pkcs1_invalid L self w md hc).
    + destruct H as [(Hres & Herr) | (Hres & pss & salt & Hp & Hsalt & Hres'
                                      & Herr)].
      * unfold outcome. now rewrite (verify_pss_wrong_size L self w md).
      * now apply (verify_pss_invalid L self w md hc pss salt).
  - apply verify_failures.
Qed.

(** A block of 64 bytes [02] decrypted under PKCS#1 v1.5 with a 512-bit
    key. *)
Lemma failures_undifferentiated_witness :
  outcome (decrypt (Ref.lib true true) (Ref.private_key 512)
                   (repeat Byte.x02 64) (Padding PKCS1v15)) empty_world
  = Raise (ValueError msg_decryption_failed).
Proof.
  apply (proj1 (failures_undifferentiated (Ref.lib true true)))
    with (padding_enum := OpenSSL.RSA_PKCS1_PADDING)
         (o := Ref.decoding_failed OpenSSL.RSA_PKCS1_PADDING)
         (e := Ref.err OpenSSL.RSA_R_BLOCK_TYPE_IS_NOT_02)
         (q := [Ref.err OpenSSL.RSA_R_PADDING_CHECK_FAILED]).
  - unfold is_ceil8. vm_compute. split; [reflexivity | discriminate].
  - reflexivity.
  - vm_compute. repeat split; try reflexivity; discriminate.
  - reflexivity.
  - reflexivity.
  - vm_compute. auto.
Defined.

(** C1, at an input where the code departs from it.  A ciphertext of the
    key's length that does not decode is decrypted with the same private
    key under OAEP and under PKCS#1 v1.5.  The library queues
    [RSA_R_OAEP_DECODING_ERROR] for the first and
    [RSA_R_BLOCK_TYPE_IS_NOT_02] for the second.  The second is one of the
    backend's decoding errors and [decrypt] raises the [ValueError] of a
    failed decryption; the first is not, and [decrypt] stops on the
    assertion of [_handle_rsa_enc_dec_error]: the caller can tell the two
    failures apart. *)
Theorem decryption_failures_distinguished :
  outcome (decrypt (Ref.lib true true) (Ref.private_key 1024)
                   (repeat Byte.x02 128)
                   (Padding (OAEP (mkOAEP (MGF1 SHA1) SHA1 None))))
          empty_world
  = Raise AssertionError
  /\ outcome (decrypt (Ref.lib true true) (Ref.private_key 1024)
                      (repeat Byte.x02 128) (Padding PKCS1v15))
             empty_world
     = Raise (ValueError msg_decryption_failed)
  /\ fails_with
       (outcome (decrypt (Ref.lib true true) (Ref.private_key 1024)
                         (repeat Byte.x02 128)
                         (Padding (OAEP (mkOAEP (MGF1 SHA1) SHA1 None))))
                empty_world)
       DecryptionFailed = false.
Proof. repeat split. Qed.

(** ** Round trip *)

(** Buffers and slices. *)

Lemma len_app : forall a b, len (a ++ b) = len a + len b.
Proof. intros a b. unfold len. rewrite length_app. lia. Qed.

Lemma len_repeat : forall x n, len (repeat x n) = Z.of_nat n.
Proof. intros x n. unfold len. now rewrite repeat_length. Qed.

Lemma buffer_exact : forall k b, len b = k -> buffer k b = b.
Proof.
  intros k b H. unfold buffer, len in *.
  rewrite <- H, Nat2Z.id, firstn_app, Nat.sub_diag, firstn_all.
  cbn [firstn]. apply app_nil_r.
Qed.

Lemma slice_to_exact : forall b, slice_to b (len b) = b.
Proof.
  intros b. unfold slice_to. pose proof (len_nonneg b) as H.
  apply Z.leb_le in H. rewrite H. unfold len. rewrite Nat2Z.id.
  apply firstn_all.
Qed.

Lemma slice_to_len : forall b k, len b = k -> slice_to b k = b.
Proof. intros b k H. subst k. apply slice_to_exact. Qed.

Lemma slice_buffer_start : forall k m rest,
  len m <= k -> slice_to (buffer k (m ++ rest)) (len m) = m.
Proof.
  intros k m rest H. unfold slice_to, buffer.
  pose proof (len_nonneg m) as Hm. apply Z.leb_le in Hm. rewrite Hm.
  unfold len in *. rewrite Nat2Z.id.
  rewrite firstn_firstn, Nat.min_l by lia.
  rewrite <- app_assoc, firstn_app, Nat.sub_diag, firstn_all. cbn [firstn].
  apply app_nil_r.
Qed.

Lemma padding_enum_supported : forall L p w,
  supported_enc_padding p = true ->
  enc_dec_padding_enum L (Padding p) w = (Ok (padding_enum_of L p), w).
Proof.
  intros L [| o | pss | name] w H; try discriminate H; [reflexivity |].
  unfold supported_enc_padding in H. unfold enc_dec_padding_enum.
  destruct (oaep_mgf o) as [h |]; [| discriminate H].
  apply andb_prop in H. destruct H as [H Ha].
  apply andb_prop in H. destruct H as [Hh Hl].
  apply negb_true_iff in Hl. run. rewrite Hh, Hl, Ha. reflexivity.
Qed.

(** C6.  For PKCS#1 v1.5 and for OAEP as the backend supports it, with a
    library whose decryption inverts its encryption for the key pair, and
    a message within the length bound of the scheme: [encrypt] with the
    public key returns a ciphertext, and [decrypt] with the private key and
    the same padding returns the message from it. *)
Theorem decrypt_encrypt_roundtrip :
  forall L priv pub p m w0 w,
    supported_enc_padding p = true ->
    outcome (public_key L priv) w0 = Ok pub ->
    primitives_invert L priv pub (padding_enum_of L p)
      (max_message_length (ceil_div8 (priv_key_size priv)) p) ->
    len m <= max_message_length (ceil_div8 (priv_key_size priv)) p ->
    exists c,
      outcome (encrypt L pub m (Padding p)) w = Ok c
      /\ outcome (decrypt L priv c (Padding p))
                 (after (encrypt L pub m (Padding p)) w) = Ok m.
Proof.
  intros L priv pub p m w0 w Hp _ Hlib Hm.
  unfold primitives_invert in Hlib.
  set (k := ceil_div8 (priv_key_size priv)) in *.
  assert (Hslice : forall b, len b = k -> slice_to (buffer k b) k = b).
  { intros b Hb. rewrite (buffer_exact k b Hb). apply slice_to_len.
    exact Hb. }
  assert (Hback : forall rest,
             len m <= k -> slice_to (buffer k (m ++ rest)) (len m) = m).
  { intros rest Hle. apply slice_buffer_start. exact Hle. }
  assert (Hbound : len m <= k).
  { pose proof (len_nonneg m).
    destruct p as [| o | pss | name]; try discriminate Hp;
      unfold max_message_length in Hm; [lia |].
    unfold supported_enc_padding in Hp.
    destruct (oaep_mgf o); [| discriminate Hp].
    apply andb_prop in Hp. destruct Hp as [_ Ha].
    destruct (oaep_algorithm o); try discriminate Ha.
    cbn [digest_size] in Hm. lia. }
  subst k.
  unfold outcome, after, encrypt, decrypt, _enc_dec_rsa.
  rewrite (bind_ok _ _ _ _ _ _ _ (padding_enum_supported L p w Hp)).
  destruct (Cryptography_HAS_PKEY_CTX L) eqn:Hflag.
  - destruct Hlib as (Hne & Hnd & Hie & Hid & Hpe & Hpd & Hse & Hsd & Hk
                      & Hrt).
    specialize (Hrt m Hm). cbv zeta in Hrt.
    destruct Hrt as (Hres & Holen & Hblen & Hres' & Holen' & rest & Hbuf).
    apply Z.ltb_lt in Hpe, Hpd. pose proof Hk as Hkb. apply Z.ltb_lt in Hkb.
    apply Z.leb_gt in Hres, Hres'.
    assert (Henc :
              _enc_dec_rsa_pkey_ctx L (PublicKey pub) m (padding_enum_of L p) w
              = (Ok (out_buf (Cryptography_EVP_PKEY_encrypt L
                       (set_rsa_padding
                          (set_op (new_ctx (pub_evp_pkey pub)) OpEncrypt)
                          (padding_enum_of L p))
                       (ceil_div8 (priv_key_size priv)) m)),
                 snd (_enc_dec_rsa_pkey_ctx L (PublicKey pub) m
                        (padding_enum_of L p) w))).
    { unfold _enc_dec_rsa_pkey_ctx. cbv zeta. cbn [is_public _evp_pkey].
      repeat first [ rewrite bind_call | rewrite bind_call_out
                   | rewrite bind_ret | rewrite bind_assert_true
                   | rewrite Hne | rewrite Hie | rewrite Z.eqb_refl
                   | rewrite Hpe | rewrite Hse | rewrite Hkb ].
      rewrite Hres. unfold when. rewrite bind_ret.
      rewrite Holen, (Hslice _ Hblen). reflexivity. }
    eexists. split.
    + rewrite Henc. reflexivity.
    + rewrite Henc. cbn [fst snd]. rewrite Hblen, Z.eqb_refl.
      cbn [negb].
      rewrite (bind_ok _ _ (enc_dec_padding_enum L (Padding p)) _ _ _ _
                 (padding_enum_supported L p _ Hp)).
      cbv beta iota. unfold _enc_dec_rsa_pkey_ctx at 1. cbv zeta.
      cbn [is_public _evp_pkey].
      repeat first [ rewrite bind_call | rewrite bind_call_out
                   | rewrite bind_ret | rewrite bind_assert_true
                   | rewrite Hnd | rewrite Hid | rewrite Z.eqb_refl
                   | rewrite Hpd | rewrite Hsd | rewrite Hkb ].
      rewrite Hres'. unfold when. rewrite bind_ret. cbn [fst ret].
      rewrite Holen', Hbuf, (Hback rest Hbound). reflexivity.
  - destruct Hlib as (Hse & Hsd & Hk & Hrt).
    specialize (Hrt m Hm). cbv zeta in Hrt.
    destruct Hrt as (Hres & Hblen & Hres' & rest & Hbuf).
    pose proof Hk as Hkb. apply Z.ltb_lt in Hkb.
    assert (Hneg : forall x, 0 <= x -> (x <? 0) = false)
      by (intros; apply Z.ltb_ge; assumption).
    assert (Henc :
              _enc_dec_rsa_098 L (PublicKey pub) m (padding_enum_of L p) w
              = (Ok (out_buf (RSA_public_encrypt L m (pub_rsa_cdata pub)
                                (padding_enum_of L p))),
                 snd (_enc_dec_rsa_098 L (PublicKey pub) m
                        (padding_enum_of L p) w))).
    { unfold _enc_dec_rsa_098. cbn [is_public _rsa_cdata].
      repeat first [ rewrite bind_call | rewrite bind_call_out
                   | rewrite bind_ret | rewrite bind_assert_true
                   | rewrite Hse | rewrite Hkb ].
      rewrite Hres, (Hneg _ (Z.lt_le_incl _ _ Hk)). unfold when.
      rewrite bind_ret.
      rewrite (Hslice _ Hblen). reflexivity. }
    eexists. split.
    + rewrite Henc. reflexivity.
    + rewrite Henc. cbn [fst snd]. rewrite Hblen, Z.eqb_refl.
      cbn [negb].
      rewrite (bind_ok _ _ (enc_dec_padding_enum L (Padding p)) _ _ _ _
                 (padding_enum_supported L p _ Hp)).
      cbv beta iota. unfold _enc_dec_rsa_098 at 1.
      cbn [is_public _rsa_cdata].
      repeat first [ rewrite bind_call | rewrite bind_call_out
                   | rewrite bind_ret | rewrite bind_assert_true
                   | rewrite Hsd | rewrite Hkb ].
      rewrite Hres', (Hneg (len m)) by apply len_nonneg.
      unfold when. rewrite bind_ret. cbn [fst ret].
      rewrite Hbuf, (Hback rest Hbound). reflexivity.
Qed.

(** The reference library meets the contract. *)

Lemma pad_block_len : forall k m,
  len m + 1 <= k -> len (Ref.pad_block k m) = k.
Proof.
  intros k m H. unfold Ref.pad_block.
  rewrite len_app, len_repeat.
  change (Byte.x01 :: m) with ([Byte.x01] ++ m). rewrite len_app.
  change (len [Byte.x01]) with 1. pose proof (len_nonneg m). lia.
Qed.

Lemma unpad_pad_block : forall k m,
  Ref.unpad_block (Ref.pad_block k m) = Some m.
Proof.
  intros k m. unfold Ref.pad_block.
  induction (Z.to_nat (k - len m - 1)) as [| n IH]; [reflexivity |].
  cbn [repeat app Ref.unpad_block]. exact IH.
Qed.

Lemma ref_overhead : forall has1 has2 p k,
  supported_enc_padding p = true ->
  max_message_length k p
  = k - Ref.overhead (padding_enum_of (Ref.lib has1 has2) p).
Proof.
  intros has1 has2 [| o | pss | name] k H; try discriminate H;
    [reflexivity |].
  unfold supported_enc_padding in H.
  destruct (oaep_mgf o); [| discriminate H].
  apply andb_prop in H. destruct H as [_ Ha].
  unfold max_message_length. destruct (oaep_algorithm o); try discriminate Ha.
  change (Ref.overhead (padding_enum_of (Ref.lib has1 has2) (OAEP o)))
    with 42.
  cbn [digest_size]. lia.
Qed.

Lemma ref_public_encrypt : forall m r padding k,
  Ref.size r = k ->
  len m + Ref.overhead padding <= k ->
  Ref.public_encrypt m r padding = mkOut k (Ref.pad_block k m) k [].
Proof.
  intros m r padding k Hk H. unfold Ref.public_encrypt. rewrite Hk.
  apply Z.leb_le in H. rewrite H. reflexivity.
Qed.

Lemma ref_private_decrypt : forall m r padding k,
  Ref.size r = k ->
  len m + 1 <= k ->
  Ref.private_decrypt (Ref.pad_block k m) r padding =
    mkOut (len m) m (len m) [].
Proof.
  intros m r padding k Hk H. unfold Ref.private_decrypt. rewrite Hk.
  rewrite pad_block_len by exact H. rewrite Z.eqb_refl, unpad_pad_block.
  reflexivity.
Qed.

Lemma ref_evp_result : forall r b l e,
  0 <= r -> Ref.evp_result (mkOut r b l e) = mkOut 1 b l e.
Proof.
  intros r b l e H. unfold Ref.evp_result. cbn [out_res].
  apply Z.leb_le in H. rewrite H. reflexivity.
Qed.

Lemma ref_overhead_pos : forall padding, 11 <= Ref.overhead padding.
Proof.
  intros padding. unfold Ref.overhead.
  destruct (padding =? OpenSSL.RSA_PKCS1_OAEP_PADDING); lia.
Qed.

Lemma ref_primitives_invert : forall has1 has2 priv pub p,
  supported_enc_padding p = true ->
  pkey_rsa (priv_evp_pkey priv) = priv_rsa_cdata priv ->
  pkey_rsa (pub_evp_pkey pub) = pub_rsa_cdata pub ->
  Ref.size (priv_rsa_cdata priv) = ceil_div8 (priv_key_size priv) ->
  Ref.size (pub_rsa_cdata pub) = ceil_div8 (priv_key_size priv) ->
  0 < ceil_div8 (priv_key_size priv) ->
  primitives_invert (Ref.lib has1 has2) priv pub
    (padding_enum_of (Ref.lib has1 has2) p)
    (max_message_length (ceil_div8 (priv_key_size priv)) p).
Proof.
  intros has1 has2 priv pub p Hp Hpriv Hpub Hsd Hse Hk.
  rewrite (ref_overhead has1 has2 p _ Hp).
  set (pe := padding_enum_of (Ref.lib has1 has2) p).
  set (k := ceil_div8 (priv_key_size priv)) in *.
  pose proof (ref_overhead_pos pe) as Hov.
  assert (Hrt : forall m,
             len m <= k - Ref.overhead pe ->
             len (Ref.pad_block k m) = k
             /\ Ref.public_encrypt m (pub_rsa_cdata pub) pe
                = mkOut k (Ref.pad_block k m) k []
             /\ Ref.private_decrypt (Ref.pad_block k m) (priv_rsa_cdata priv)
                                    pe
                = mkOut (len m) m (len m) []).
  { intros m Hm.
    assert (Hlen : len (Ref.pad_block k m) = k)
      by (apply pad_block_len; lia).
    split; [exact Hlen |]. split.
    - apply ref_public_encrypt; [exact Hse | lia].
    - apply ref_private_decrypt; [exact Hsd | lia]. }
  unfold primitives_invert.
  destruct has1; cbn [Cryptography_HAS_PKEY_CTX Ref.lib].
  - unfold evp_roundtrip. fold k.
    cbn [Ref.lib EVP_PKEY_CTX_new EVP_PKEY_encrypt_init EVP_PKEY_decrypt_init
         EVP_PKEY_CTX_set_rsa_padding EVP_PKEY_size
         Cryptography_EVP_PKEY_encrypt Cryptography_EVP_PKEY_decrypt].
    rewrite Hpriv, Hpub, Hsd, Hse.
    repeat (split; [first [reflexivity | lia] |]).
    intros m Hm. cbv zeta.
    destruct (Hrt m Hm) as (Hlen & Henc & Hdec).
    unfold Ref.pkey_encrypt, Ref.pkey_decrypt, Ref.padding_of.
    cbn [ctx_pkey ctx_rsa_padding set_rsa_padding set_op new_ctx].
    rewrite Hpriv, Hpub, Henc.
    rewrite (ref_evp_result k) by lia. cbn [out_res out_buf out_len].
    rewrite Hdec.
    rewrite (ref_evp_result (len m)) by apply len_nonneg.
    cbn [out_res out_buf out_len].
    repeat split; try lia; try assumption.
    exists []. symmetry. apply app_nil_r.
  - unfold rsa_roundtrip. fold k.
    cbn [Ref.lib RSA_size RSA_public_encrypt RSA_private_decrypt].
    rewrite Hsd, Hse.
    repeat (split; [first [reflexivity | lia] |]).
    intros m Hm. cbv zeta.
    destruct (Hrt m Hm) as (Hlen & Henc & Hdec).
    rewrite Henc. cbn [out_res out_buf out_len].
    rewrite Hdec. cbn [out_res out_buf out_len].
    repeat split; try lia; try assumption.
    exists []. symmetry. apply app_nil_r.
Qed.

(** Two bytes under OAEP with a 1024-bit key, on the reference library. *)
Lemma decrypt_encrypt_roundtrip_witness :
  exists c,
    outcome (encrypt (Ref.lib true true)
                     (Ref.public_key_of (Ref.private_key 1024))
                     [Byte.x68; Byte.x69]
                     (Padding (OAEP (mkOAEP (MGF1 SHA1) SHA1 None))))
            empty_world = Ok c
    /\ outcome (decrypt (Ref.lib true true) (Ref.private_key 1024) c
                        (Padding (OAEP (mkOAEP (MGF1 SHA1) SHA1 None))))
               (after (encrypt (Ref.lib true true)
                               (Ref.public_key_of (Ref.private_key 1024))
                               [Byte.x68; Byte.x69]
                               (Padding (OAEP (mkOAEP (MGF1 SHA1) SHA1 None))))
                      empty_world)
       = Ok [Byte.x68; Byte.x69].
Proof.
  apply (decrypt_encrypt_roundtrip (Ref.lib true true) (Ref.private_key 1024)
           (Ref.public_key_of (Ref.private_key 1024))
           (OAEP (mkOAEP (MGF1 SHA1) SHA1 None)) [Byte.x68; Byte.x69]
           empty_world empty_world).
  - reflexivity.
  - vm_compute. reflexivity.
  - apply ref_primitives_invert; vm_compute; reflexivity.
  - vm_compute. discriminate.
Defined.

(** ** Life cycle of a context *)

Lemma nth_set_nth_None : forall A (n : nat) (l : list (option A)),
  nth n (set_nth n None l) None = None.
Proof.
  intros A n l. revert n.
  induction l as [| a l IH]; intros [| n]; simpl; auto.
Qed.

(** Once the hash object of a context is finalized, [update] fails with
    [AlreadyFinalized], on a signature context and on a verification
    context alike. *)
Lemma update_after_finalization : forall w,
  (forall self data,
      nth (hash_ref (s_hash_ctx self)) (heap w) None = None ->
      sign_update self data w =
        (Raise (AlreadyFinalized msg_hash_finalized), w))
  /\ (forall self data,
      nth (hash_ref (v_hash_ctx self)) (heap w) None = None ->
      verify_update self data w =
        (Raise (AlreadyFinalized msg_hash_finalized), w)).
Proof.
  intros w. split; intros self data H.
  - unfold sign_update. now apply Hash_update_finalized.
  - unfold verify_update. now apply Hash_update_finalized.
Qed.

(** C3, at the input where the code departs from it.  On a build without
    [EVP_PKEY_CTX], a PSS verification context over a 512-bit key is given
    a signature of 65 bytes, one more than the key has.  [verify] reports
    the signature invalid; after that [update] is accepted, and a second
    [verify] reports the signature invalid once more: the context was never
    finalized. *)
Theorem verify_pss_leaves_context_active :
  exists ctx w1,
    verifier (Ref.lib false false) (Ref.public_key_of (Ref.private_key 512))
             (repeat Byte.x00 65)
             (Padding (PSS (mkPSS (MGF1 SHA1) PSS_MAX_LENGTH))) SHA1
             empty_world = (Ok ctx, w1)
    /\ v_verify_method ctx = verify_pss
    /\ outcome (verify (Ref.lib false false) ctx) w1 = Raise InvalidSignature
    /\ outcome (verify_update ctx [Byte.x41])
               (after (verify (Ref.lib false false) ctx) w1) = Ok tt
    /\ outcome (verify (Ref.lib false false) ctx)
               (after (verify_update ctx [Byte.x41])
                      (after (verify (Ref.lib false false) ctx) w1))
       = Raise InvalidSignature
    /\ fails_with
         (outcome (verify (Ref.lib false false) ctx)
                  (after (verify (Ref.lib false false) ctx) w1))
         AlreadyFinalizedError = false.
Proof.
  eexists. eexists. split; [reflexivity |]. repeat split.
Qed.

(** Case analysis on an innermost test of a hypothesis. *)
Ltac break_match_in H :=
  match type of H with
  | context [match ?x with _ => _ end] =>
      lazymatch x with
      | context [match _ with _ => _ end] => fail
      | _ => destruct x eqn:?
      end
  end.

Ltac unfold_contexts :=
  unfold finalize, _finalize_pkey_ctx, _finalize_pkcs1, _finalize_pss,
         verify, _verify_pkey_ctx, _verify_pkcs1, _verify_pss,
         pkey_ctx_set_pss, get_digest, get_padding_enum, as_pss,
         raise_invalid_signature, Hash_finalize, hash__ctx, set_hash__ctx,
         _get_rsa_pss_salt_length, nonempty in *.

Ltac lifecycle_cases H tac :=
  repeat (cbn [fst snd err_queue heap trace finalize_concluded
               verify_concluded negb] in *;
          first [ discriminate H
                | tac
                | break_match_in H ]).

Lemma finalize_finalizes : forall L self w,
  finalize_concluded (outcome (finalize L self) w) = true ->
  nth (hash_ref (s_hash_ctx self)) (heap (after (finalize L self) w)) None
    = None.
Proof.
  intros L self w H. unfold_contexts. run.
  lifecycle_cases H ltac:(apply nth_set_nth_None).
Qed.

Lemma finalize_again : forall L self w w',
  finalize_concluded (outcome (finalize L self) w) = true ->
  nth (hash_ref (s_hash_ctx self)) (heap w') None = None ->
  exists m, outcome (finalize L self) w' = Raise (AlreadyFinalized m).
Proof.
  intros L self w w' H Hn. unfold_contexts. run.
  lifecycle_cases H ltac:(first [rewrite Hn | solve [eexists; reflexivity]]).
Qed.

Lemma verify_finalizes : forall L self w,
  verify_concluded (outcome (verify L self) w) = true ->
  (v_verify_method self = verify_pss ->
   out_res (RSA_public_decrypt L (v_signature self)
              (pub_rsa_cdata (v_public_key self)) (RSA_NO_PADDING L))
   = v_pkey_size self) ->
  nth (hash_ref (v_hash_ctx self)) (heap (after (verify L self) w)) None
    = None.
Proof.
  intros L self w H Hsize. unfold_contexts. run.
  destruct (v_verify_method self);
    [ clear Hsize | clear Hsize | rewrite (Hsize eq_refl), Z.eqb_refl in * ];
    lifecycle_cases H ltac:(apply nth_set_nth_None).
Qed.

Lemma verify_again : forall L self w w',
  verify_concluded (outcome (verify L self) w) = true ->
  (v_verify_method self = verify_pss ->
   out_res (RSA_public_decrypt L (v_signature self)
              (pub_rsa_cdata (v_public_key self)) (RSA_NO_PADDING L))
   = v_pkey_size self) ->
  nth (hash_ref (v_hash_ctx self)) (heap w') None = None ->
  exists m, outcome (verify L self) w' = Raise (AlreadyFinalized m).
Proof.
  intros L self w w' H Hsize Hn. unfold_contexts. run.
  destruct (v_verify_method self);
    [ clear Hsize | clear Hsize | rewrite (Hsize eq_refl), Z.eqb_refl in * ];
    lifecycle_cases H
      ltac:(first [rewrite Hn | solve [eexists; reflexivity]]).
Qed.

(** A signature context is single-use: once [finalize] has returned a
    signature, or has reported that the key cannot hold the digest or the
    salt, [update] and a second [finalize] fail with [AlreadyFinalized]. *)
Theorem signature_context_single_use : forall L self w,
  finalize_concluded (outcome (finalize L self) w) = true ->
  (forall data,
      outcome (sign_update self data) (after (finalize L self) w) =
        Raise (AlreadyFinalized msg_hash_finalized))
  /\ (exists m,
      outcome (finalize L self) (after (finalize L self) w) =
        Raise (AlreadyFinalized m)).
Proof.
  intros L self w H.
  pose proof (finalize_finalizes L self w H) as Hn. split.
  - intros data. unfold outcome.
    now rewrite (proj1 (update_after_finalization _) self data Hn).
  - exact (finalize_again L self w _ H Hn).
Qed.

(** A verification context is single-use in the same way once [verify] has
    accepted the signature or reported it invalid, provided that on the PSS
    path of builds without [EVP_PKEY_CTX] the call of [RSA_public_decrypt]
    returns the key size. *)
Theorem verification_context_single_use : forall L self w,
  verify_concluded (outcome (verify L self) w) = true ->
  (v_verify_method self = verify_pss ->
   out_res (RSA_public_decrypt L (v_signature self)
              (pub_rsa_cdata (v_public_key self)) (RSA_NO_PADDING L))
   = v_pkey_size self) ->
  (forall data,
      outcome (verify_update self data) (after (verify L self) w) =
        Raise (AlreadyFinalized msg_hash_finalized))
  /\ (exists m,
      outcome (verify L self) (after (verify L self) w) =
        Raise (AlreadyFinalized m)).
Proof.
  intros L self w H Hsize.
  pose proof (verify_finalizes L self w H Hsize) as Hn. split.
  - intros data. unfold outcome.
    now rewrite (proj2 (update_after_finalization _) self data Hn).
  - exact (verify_again L self w _ H Hsize Hn).
Qed.

(** A verification that reports an invalid signature leaves the hash object
    finalized, except on the PSS path of builds without [EVP_PKEY_CTX] when
    [RSA_public_decrypt] does not return the key size: there the store's
    hash objects are as they were. *)
Theorem invalid_signature_finalization : forall L self w,
  outcome (verify L self) w = Raise InvalidSignature ->
  nth (hash_ref (v_hash_ctx self)) (heap (after (verify L self) w)) None
    = None
  \/ (v_verify_method self = verify_pss
      /\ (out_res (RSA_public_decrypt L (v_signature self)
                     (pub_rsa_cdata (v_public_key self)) (RSA_NO_PADDING L))
          =? v_pkey_size self) = false
      /\ heap (after (verify L self) w) = heap w).
Proof.
  intros L self w H. unfold_contexts. run.
  repeat (cbn [fst snd err_queue heap trace] in *;
          first [ discriminate H
                | solve [left; apply nth_set_nth_None]
                | solve [right; split;
                         [reflexivity
                         | split; [apply negb_true_iff; assumption
                                  | reflexivity]]]
                | break_match_in H ]).
Qed.

(** A PSS signature with a 1024-bit key on the path of OpenSSL 0.9.8. *)
Lemma signature_context_single_use_witness :
  exists m,
    outcome
      (finalize (Ref.lib false false)
         (mkSignatureContext (Ref.private_key 1024) 128 finalize_pss None
            (PSS (mkPSS (MGF1 SHA1) PSS_MAX_LENGTH)) SHA1 (mkHash SHA1 0)))
      (after
         (finalize (Ref.lib false false)
            (mkSignatureContext (Ref.private_key 1024) 128 finalize_pss None
               (PSS (mkPSS (MGF1 SHA1) PSS_MAX_LENGTH)) SHA1 (mkHash SHA1 0)))
         (mkWorld [] [Some (mkHashCtx SHA1 [])] []))
    = Raise (AlreadyFinalized m).
Proof.
  eapply (signature_context_single_use (Ref.lib false false)).
  vm_compute. reflexivity.
Defined.

(** A valid PKCS#1 v1.5 signature of the empty message. *)
Lemma verification_context_single_use_witness :
  exists m,
    outcome
      (verify (Ref.lib true true)
         (mkVerificationContext (Ref.public_key_of (Ref.private_key 1024))
            (Ref.pad_block 128 (Ref.digest SHA1 []))
            128 verify_pkey_ctx (Some OpenSSL.RSA_PKCS1_PADDING) PKCS1v15
            SHA1 (mkHash SHA1 0)))
      (after
         (verify (Ref.lib true true)
            (mkVerificationContext (Ref.public_key_of (Ref.private_key 1024))
               (Ref.pad_block 128 (Ref.digest SHA1 []))
               128 verify_pkey_ctx (Some OpenSSL.RSA_PKCS1_PADDING) PKCS1v15
               SHA1 (mkHash SHA1 0)))
         (mkWorld [] [Some (mkHashCtx SHA1 [])] []))
    = Raise (AlreadyFinalized m).
Proof.
  eapply (verification_context_single_use (Ref.lib true true)).
  - vm_compute. reflexivity.
  - intros H. discriminate H.
Defined.

(** A one-byte signature on the PKCS#1 v1.5 path of OpenSSL 0.9.8. *)
Lemma invalid_signature_finalization_witness :
  nth 0
    (heap
       (after
          (verify (Ref.lib false false)
             (mkVerificationContext
                (Ref.public_key_of (Ref.private_key 1024)) [Byte.x00]
                128 verify_pkcs1 None PKCS1v15 SHA1 (mkHash SHA1 0)))
          (mkWorld [] [Some (mkHashCtx SHA1 [])] [])))
    None = None
  \/ (verify_pkcs1 = verify_pss
      /\ (out_res (RSA_public_decrypt (Ref.lib false false) [Byte.x00]
                     (pub_rsa_cdata (Ref.public_key_of (Ref.private_key 1024)))
                     (RSA_NO_PADDING (Ref.lib false false)))
          =? 128) = false
      /\ heap
           (after
              (verify (Ref.lib false false)
                 (mkVerificationContext
                    (Ref.public_key_of (Ref.private_key 1024)) [Byte.x00]
                    128 verify_pkcs1 None PKCS1v15 SHA1 (mkHash SHA1 0)))
              (mkWorld [] [Some (mkHashCtx SHA1 [])] []))
         = [Some (mkHashCtx SHA1 [])]).
Proof.
  apply (invalid_signature_finalization (Ref.lib false false)
           (mkVerificationContext
              (Ref.public_key_of (Ref.private_key 1024)) [Byte.x00]
              128 verify_pkcs1 None PKCS1v15 SHA1 (mkHash SHA1 0))
           (mkWorld [] [Some (mkHashCtx SHA1 [])] [])).
  vm_compute. reflexivity.
Defined.

(** ** Encryption of a message that is too long *)

Lemma handle_data_too_large : forall L self w e q,
  err_queue w = e :: q ->
  err_lib e = ERR_LIB_RSA L ->
  err_reason e = RSA_R_DATA_TOO_LARGE_FOR_KEY_SIZE L ->
  outcome (_handle_rsa_enc_dec_error L (PublicKey self)) w =
    Raise (ValueError msg_data_too_long).
Proof.
  intros L self w e q Hq Hlib Hreason.
  unfold _handle_rsa_enc_dec_error. run. rewrite Hq.
  cbn -[mem decoding_errors].
  rewrite Hlib, Z.eqb_refl. cbn -[mem decoding_errors].
  rewrite Hreason, Z.eqb_refl. reflexivity.
Qed.

(** An encryption that reaches the library and fails there with, first in
    the queue, the error of the RSA library for data too large for the key
    size raises the [ValueError] for data too long (the specification's
    [MessageTooLong]), with PKCS#1 v1.5 and with OAEP. *)
Theorem encrypt_message_too_long :
  forall L self data p w o e q,
    supported_enc_padding p = true ->
    encryption_fails L self data (padding_enum_of L p) o ->
    err_queue w ++ out_errors o = e :: q ->
    err_lib e = ERR_LIB_RSA L ->
    err_reason e = RSA_R_DATA_TOO_LARGE_FOR_KEY_SIZE L ->
    outcome (encrypt L self data (Padding p)) w =
      Raise (ValueError msg_data_too_long).
Proof.
  intros L self data p w o e q Hp Hfail Hq Hlib Hreason.
  assert (Hx : outcome (_handle_rsa_enc_dec_error L (PublicKey self))
                       (mkWorld (e :: q) (heap w) (trace w))
               = Raise (ValueError msg_data_too_long))
    by (apply (handle_data_too_large L self _ e q);
        [reflexivity | assumption ..]).
  unfold outcome at 1, encrypt, _enc_dec_rsa.
  rewrite (bind_ok _ _ _ _ _ _ _ (padding_enum_supported L p w Hp)).
  unfold encryption_fails in Hfail.
  destruct (Cryptography_HAS_PKEY_CTX L).
  - destruct Hfail as (Hnew & Hinit & Hpad & Hsize & Ho & Hres).
    unfold _enc_dec_rsa_pkey_ctx. cbv zeta. cbn [is_public _evp_pkey].
    apply Z.ltb_lt in Hpad, Hsize. apply Z.leb_le in Hres.
    repeat first [ rewrite bind_call | rewrite bind_call_out
                 | rewrite bind_ret | rewrite bind_assert_true
                 | rewrite Hnew | rewrite Hinit | rewrite Z.eqb_refl
                 | rewrite Hpad | rewrite Hsize ].
    rewrite <- Ho, Hres.
    apply (when_handle_error_raise L (PublicKey self) (ret _)).
    rewrite <- Hx. apply handle_error_queue. cbn [err_queue with_trace].
    exact Hq.
  - destruct Hfail as (Hsize & Ho & Hres).
    unfold _enc_dec_rsa_098. cbn [is_public _rsa_cdata].
    apply Z.ltb_lt in Hsize, Hres.
    repeat first [ rewrite bind_call | rewrite bind_call_out
                 | rewrite bind_ret | rewrite bind_assert_true
                 | rewrite Hsize ].
    rewrite <- Ho, Hres.
    apply (when_handle_error_raise L (PublicKey self) (ret _)).
    rewrite <- Hx. apply handle_error_queue. cbn [err_queue with_trace].
    exact Hq.
Qed.

(** 87 bytes under OAEP with a 1024-bit key, one more than the 86 the
    scheme can take. *)
Lemma encrypt_message_too_long_witness :
  outcome (encrypt (Ref.lib true true)
                   (Ref.public_key_of (Ref.private_key 1024))
                   (repeat Byte.x41 87)
                   (Padding (OAEP (mkOAEP (MGF1 SHA1) SHA1 None))))
          empty_world
  = Raise (ValueError msg_data_too_long).
Proof.
  apply (encrypt_message_too_long (Ref.lib true true)
           (Ref.public_key_of (Ref.private_key 1024)) (repeat Byte.x41 87)
           (OAEP (mkOAEP (MGF1 SHA1) SHA1 None)) empty_world
           (Ref.failed (-1) OpenSSL.RSA_R_DATA_TOO_LARGE_FOR_KEY_SIZE)
           (Ref.err OpenSSL.RSA_R_DATA_TOO_LARGE_FOR_KEY_SIZE) []).
  - reflexivity.
  - vm_compute. repeat split; try reflexivity; discriminate.
  - reflexivity.
  - reflexivity.
  - reflexivity.
Defined.

(** ** The public half of a private key *)

(** [public_key()] builds its key from copies of the modulus and of the
    public exponent only, and gives it the bit length of the modulus as its
    size. *)
Theorem public_key_snapshot : forall L self w pub,
  outcome (public_key L self) w = Ok pub ->
  rsa_n (pub_rsa_cdata pub) = rsa_n (priv_rsa_cdata self)
  /\ rsa_e (pub_rsa_cdata pub) = rsa_e (priv_rsa_cdata self)
  /\ rsa_d (pub_rsa_cdata pub) = None
  /\ rsa_p (pub_rsa_cdata pub) = None
  /\ rsa_q (pub_rsa_cdata pub) = None
  /\ pkey_rsa (pub_evp_pkey pub) = pub_rsa_cdata pub
  /\ pub_key_size pub = BN_num_bits L (rsa_n (priv_rsa_cdata self)).
Proof.
  intros L self w pub H.
  unfold public_key, new_RSAPublicKey, key_init in H. run.
  repeat (cbn [fst snd err_queue heap trace] in H;
          first [ discriminate H | break_match_in H ]).
  inversion H. subst pub. cbn. repeat split.
Qed.

(** The public half of a 512-bit key of the reference library. *)
Lemma public_key_snapshot_witness :
  pub_key_size (Ref.public_key_of (Ref.private_key 512)) = 512.
Proof.
  apply (public_key_snapshot (Ref.lib true true) (Ref.private_key 512)
           empty_world (Ref.public_key_of (Ref.private_key 512))).
  vm_compute. reflexivity.
Defined.

(** ** A signature verifies *)

Lemma nth_length_app : forall A (l : list A) x d,
  nth (List.length l) (l ++ [x]) d = x.
Proof.
  intros A l x d. rewrite app_nth2 by lia. now rewrite Nat.sub_diag.
Qed.

Lemma set_nth_length_app : forall A (l : list A) x y,
  set_nth (List.length l) y (l ++ [x]) = l ++ [y].
Proof.
  intros A l x y. induction l as [| a l IH]; [reflexivity |].
  cbn. now rewrite IH.
Qed.

Lemma Hash_update_active : forall h data hc w,
  nth (hash_ref h) (heap w) None = Some hc ->
  Hash_update h data w =
    (Ok tt,
     mkWorld (err_queue w)
       (set_nth (hash_ref h)
          (Some (mkHashCtx (hc_algorithm hc) (hc_data hc ++ data))) (heap w))
       (trace w ++ ["Hash.update"%string])).
Proof.
  intros * H. unfold Hash_update, hash__ctx, set_hash__ctx. run.
  rewrite H. reflexivity.
Qed.

(** A context fresh from [__init__], after one [update]: its hash object
    holds the data. *)
Lemma update_new_hash : forall alg data w,
  Hash_update (mkHash alg (List.length (heap w))) data (with_hash w alg) =
    (Ok tt,
     mkWorld (err_queue w) (heap w ++ [Some (mkHashCtx alg data)])
       (((trace w ++ ["EVP_PKEY_size"%string]) ++ ["hashes.Hash"%string])
        ++ ["Hash.update"%string])).
Proof.
  intros alg data w.
  rewrite (Hash_update_active _ data (mkHashCtx alg [])).
  - unfold with_hash. cbn [hash_ref err_queue heap trace hc_algorithm hc_data].
    now rewrite set_nth_length_app.
  - unfold with_hash. cbn [hash_ref heap]. apply nth_length_app.
Qed.

Lemma pkey_ctx_set_pss_configured : forall L pkey op md pe p ks h w,
  let saltlen := salt_setting p ks (digest_size (algorithm h)) in
  let mgf1_md := mgf1_md_setting L p in
  pss_resolves L p saltlen mgf1_md ->
  (forall s,
      saltlen = Some s ->
      0 < EVP_PKEY_CTX_set_rsa_pss_saltlen L
            (mkCTX pkey (Some op) (Some md) (Some pe) None None) s) ->
  (forall m,
      mgf1_md = Some m ->
      0 < EVP_PKEY_CTX_set_rsa_mgf1_md L
            (mkCTX pkey (Some op) (Some md) (Some pe) saltlen None) m) ->
  outcome (pkey_ctx_set_pss L
             (mkCTX pkey (Some op) (Some md) (Some pe) None None) p ks h) w
  = Ok (configured pkey op md pe saltlen mgf1_md).
Proof.
  intros L pkey op md pe p ks h w saltlen mgf1_md Hres Hsalt Hmgf.
  subst saltlen mgf1_md.
  unfold pkey_ctx_set_pss, configured, pss_resolves, salt_setting,
         mgf1_md_setting, get_digest in *.
  destruct p as [| o | pss | name]; try reflexivity.
  destruct Hres as [[s Hs] Hm].
  destruct (_get_rsa_pss_salt_length pss ks (digest_size (algorithm h)))
    as [s' | e]; [| discriminate Hs].
  inversion Hs; subst s'. clear Hs.
  specialize (Hsalt s eq_refl). apply Z.ltb_lt in Hsalt.
  run. rewrite Hsalt. cbn [fst snd].
  destruct (Cryptography_HAS_MGF1_MD L); [| reflexivity].
  destruct (Hm eq_refl) as [m Hm'].
  destruct (pss_mgf pss) as [hm |]; [| discriminate Hm'].
  rewrite Hm'. cbn [fst snd err_queue heap trace].
  specialize (Hmgf m Hm'). apply Z.ltb_lt in Hmgf.
  unfold set_rsa_pss_saltlen in *. cbn in Hmgf |- *. rewrite Hmgf.
  reflexivity.
Qed.

Ltac ctx_fields :=
  unfold set_op, set_signature_md, set_rsa_padding, new_ctx in *;
  cbn [ctx_pkey ctx_op ctx_signature_md ctx_rsa_padding ctx_rsa_pss_saltlen
       ctx_rsa_mgf1_md] in *.

Lemma finalize_pkey_ctx_signs : forall L self w md pe hc,
  s_finalize_method self = finalize_pkey_ctx ->
  s_padding_enum self = Some pe ->
  EVP_get_digestbyname L (hash_name (s_algorithm self)) = Some md ->
  nth (hash_ref (s_hash_ctx self)) (heap w) None = Some hc ->
  let pkey := priv_evp_pkey (s_private_key self) in
  let saltlen := salt_setting (s_padding self)
                   (priv_key_size (s_private_key self))
                   (digest_size (algorithm (s_hash_ctx self))) in
  let mgf1_md := mgf1_md_setting L (s_padding self) in
  let dgst := hash_digest L (hc_algorithm hc) (hc_data hc) in
  let cs := configured pkey OpSign md pe saltlen mgf1_md in
  let o0 := EVP_PKEY_sign L cs false 0 dgst in
  let o := EVP_PKEY_sign L cs true (out_len o0) dgst in
  pss_resolves L (s_padding self) saltlen mgf1_md ->
  EVP_PKEY_sign_init L (new_ctx pkey) = 1 ->
  accepts_settings L pkey OpSign md pe saltlen mgf1_md ->
  out_res o0 = 1 ->
  out_res o = 1 ->
  outcome (finalize L self) w = Ok (buffer (out_len o0) (out_buf o)).
Proof.
  intros L self w md pe hc Hm Hpe Hmd Hh pkey saltlen mgf1_md dgst cs o0 o
         Hpss Hinit (Hnew & Hsmd & Hpad & Hsalt & Hmgf) Hres0 Hres.
  unfold outcome, finalize.
  rewrite (bind_ok _ _ _ _ _ _ _ (get_digest_found _ _ _ _ Hmd)).
  rewrite Hm. unfold _finalize_pkey_ctx, get_padding_enum. cbv zeta.
  fold pkey. apply Z.ltb_lt in Hsmd, Hpad. rewrite Hpe.
  ctx_fields.
  repeat first [ rewrite bind_call | rewrite bind_ret
               | rewrite bind_assert_true
               | rewrite Hnew | rewrite Hinit | rewrite Z.eqb_refl
               | rewrite Hsmd | rewrite Hpad ].
  match goal with
  | |- context [bind (pkey_ctx_set_pss L ?c ?p ?k ?h) ?f ?W] =>
      pose proof (pkey_ctx_set_pss_configured L pkey OpSign md pe p k h W
                    Hpss Hsalt Hmgf) as Hc;
      pose proof (pkey_ctx_set_pss_store L c p k h W) as [Hq Hhp];
      unfold outcome, after in Hc, Hq, Hhp; unfold bind at 1;
      destruct (pkey_ctx_set_pss L c p k h W) as [r W'] eqn:E
  end.
  cbn [fst snd] in Hc, Hq, Hhp. subst r.
  unfold with_trace in Hq, Hhp. cbn [err_queue heap trace] in Hq, Hhp.
  fold saltlen mgf1_md cs.
  unfold Hash_finalize, hash__ctx, set_hash__ctx. run.
  rewrite Hhp, Hh. cbn [fst snd err_queue heap trace]. fold dgst. fold o0.
  rewrite Hres0. cbn [Z.eqb Pos.eqb fst snd err_queue heap trace].
  fold o. rewrite Hres. reflexivity.
Qed.

Lemma verify_pkey_ctx_accepts : forall L self w md pe hc,
  v_verify_method self = verify_pkey_ctx ->
  v_padding_enum self = Some pe ->
  EVP_get_digestbyname L (hash_name (v_algorithm self)) = Some md ->
  nth (hash_ref (v_hash_ctx self)) (heap w) None = Some hc ->
  let pkey := pub_evp_pkey (v_public_key self) in
  let saltlen := salt_setting (v_padding self)
                   (pub_key_size (v_public_key self))
                   (digest_size (algorithm (v_hash_ctx self))) in
  let mgf1_md := mgf1_md_setting L (v_padding self) in
  let dgst := hash_digest L (hc_algorithm hc) (hc_data hc) in
  let cv := configured pkey OpVerify md pe saltlen mgf1_md in
  pss_resolves L (v_padding self) saltlen mgf1_md ->
  EVP_PKEY_verify_init L (new_ctx pkey) = 1 ->
  accepts_settings L pkey OpVerify md pe saltlen mgf1_md ->
  0 < out_res (EVP_PKEY_verify L cv (v_signature self) dgst) ->
  outcome (verify L self) w = Ok tt.
Proof.
  intros L self w md pe hc Hm Hpe Hmd Hh pkey saltlen mgf1_md dgst cv
         Hpss Hinit (Hnew & Hsmd & Hpad & Hsalt & Hmgf) Hres.
  unfold outcome, verify.
  rewrite (bind_ok _ _ _ _ _ _ _ (get_digest_found _ _ _ _ Hmd)).
  rewrite Hm. unfold _verify_pkey_ctx, get_padding_enum. cbv zeta.
  fold pkey. apply Z.ltb_lt in Hsmd, Hpad. rewrite Hpe.
  ctx_fields.
  repeat first [ rewrite bind_call | rewrite bind_ret
               | rewrite bind_assert_true
               | rewrite Hnew | rewrite Hinit | rewrite Z.eqb_refl
               | rewrite Hsmd | rewrite Hpad ].
  match goal with
  | |- context [bind (pkey_ctx_set_pss L ?c ?p ?k ?h) ?f ?W] =>
      pose proof (pkey_ctx_set_pss_configured L pkey OpVerify md pe p k h W
                    Hpss Hsalt Hmgf) as Hc;
      pose proof (pkey_ctx_set_pss_store L c p k h W) as [Hq Hhp];
      unfold outcome, after in Hc, Hq, Hhp; unfold bind at 1;
      destruct (pkey_ctx_set_pss L c p k h W) as [r W'] eqn:E
  end.
  cbn [fst snd] in Hc, Hq, Hhp. subst r.
  unfold with_trace in Hq, Hhp. cbn [err_queue heap trace] in Hq, Hhp.
  fold saltlen mgf1_md cv.
  unfold Hash_finalize, hash__ctx, set_hash__ctx. run.
  rewrite Hhp, Hh. cbn [fst snd err_queue heap trace]. fold dgst.
  assert (H0 : (0 <=? out_res (EVP_PKEY_verify L cv (v_signature self) dgst))
               = true) by (apply Z.leb_le; lia).
  assert (H1 : (out_res (EVP_PKEY_verify L cv (v_signature self) dgst) =? 0)
               = false) by (apply Z.eqb_neq; lia).
  rewrite H0. cbn [fst snd]. rewrite H1. reflexivity.
Qed.

Lemma slice_buffer_written : forall k b,
  len b <= k -> slice_to (buffer k b) (len b) = b.
Proof.
  intros k b H. rewrite <- (app_nil_r b) at 1.
  now apply slice_buffer_start.
Qed.

Lemma finalize_pkcs1_signs : forall L self w md hc,
  s_finalize_method self = finalize_pkcs1 ->
  EVP_get_digestbyname L (hash_name (s_algorithm self)) = Some md ->
  nth (hash_ref (s_hash_ctx self)) (heap w) None = Some hc ->
  let o := EVP_SignFinal L hc (priv_evp_pkey (s_private_key self)) in
  out_res o <> 0 ->
  outcome (finalize L self) w =
    Ok (slice_to (buffer (s_pkey_size self) (out_buf o)) (out_len o)).
Proof.
  intros L self w md hc Hm Hmd Hh o Hres.
  unfold outcome, finalize.
  rewrite (bind_ok _ _ _ _ _ _ _ (get_digest_found _ _ _ _ Hmd)).
  rewrite Hm. unfold _finalize_pkcs1, Hash_finalize, hash__ctx, set_hash__ctx.
  run. cbn [with_trace heap err_queue trace]. rewrite Hh. fold o.
  cbn [fst snd err_queue heap trace]. rewrite ?Hh.
  cbn [fst snd err_queue heap trace].
  apply Z.eqb_neq in Hres. rewrite Hres. reflexivity.
Qed.

Lemma verify_pkcs1_accepts : forall L self w md hc,
  v_verify_method self = verify_pkcs1 ->
  EVP_get_digestbyname L (hash_name (v_algorithm self)) = Some md ->
  nth (hash_ref (v_hash_ctx self)) (heap w) None = Some hc ->
  0 < out_res (EVP_VerifyFinal L hc (v_signature self)
                 (pub_evp_pkey (v_public_key self))) ->
  outcome (verify L self) w = Ok tt.
Proof.
  intros L self w md hc Hm Hmd Hh Hres.
  unfold outcome, verify.
  rewrite (bind_ok _ _ _ _ _ _ _ (get_digest_found _ _ _ _ Hmd)).
  rewrite Hm. unfold _verify_pkcs1, Hash_finalize, hash__ctx, set_hash__ctx.
  run. cbn [with_trace heap err_queue trace]. rewrite Hh.
  cbn [fst snd err_queue heap trace]. rewrite ?Hh.
  cbn [fst snd err_queue heap trace].
  set (r := out_res _) in *.
  assert (H0 : (0 <=? r) = true) by (apply Z.leb_le; lia).
  assert (H1 : (r =? 0) = false) by (apply Z.eqb_neq; lia).
  rewrite H0. cbn [fst snd]. rewrite H1. reflexivity.
Qed.

Lemma finalize_pss_signs : forall L self w md hc pss s,
  s_finalize_method self = finalize_pss ->
  s_padding self = PSS pss ->
  EVP_get_digestbyname L (hash_name (s_algorithm self)) = Some md ->
  nth (hash_ref (s_hash_ctx self)) (heap w) None = Some hc ->
  let rsa := priv_rsa_cdata (s_private_key self) in
  let dgst := hash_digest L (hc_algorithm hc) (hc_data hc) in
  let o1 := RSA_padding_add_PKCS1_PSS L rsa dgst md s in
  let o2 := RSA_private_encrypt L (s_pkey_size self)
              (buffer (s_pkey_size self) (out_buf o1)) rsa
              (RSA_NO_PADDING L) in
  _get_rsa_pss_salt_length pss (priv_key_size (s_private_key self))
                           (len dgst) = Ok s ->
  out_res o1 = 1 ->
  out_res o2 <> -1 ->
  outcome (finalize L self) w =
    Ok (slice_to (buffer (s_pkey_size self) (out_buf o2)) (out_res o2)).
Proof.
  intros L self w md hc pss s Hm Hp Hmd Hh rsa dgst o1 o2 Hsalt Hres1 Hres2.
  unfold outcome, finalize.
  rewrite (bind_ok _ _ _ _ _ _ _ (get_digest_found _ _ _ _ Hmd)).
  rewrite Hm. unfold _finalize_pss.
  rewrite (bind_ok _ _ _ _ _ _ _
             (Hash_finalize_active L _ hc (with_trace w _) Hh)).
  rewrite Hp. unfold as_pss. run. fold rsa dgst. rewrite Hsalt. fold o1.
  rewrite Hres1. cbn [Z.eqb Pos.eqb negb fst snd err_queue heap trace].
  fold o2. apply Z.eqb_neq in Hres2. rewrite Hres2. reflexivity.
Qed.

Lemma verify_pss_accepts : forall L self w md hc pss s,
  v_verify_method self = verify_pss ->
  v_padding self = PSS pss ->
  EVP_get_digestbyname L (hash_name (v_algorithm self)) = Some md ->
  nth (hash_ref (v_hash_ctx self)) (heap w) None = Some hc ->
  let rsa := pub_rsa_cdata (v_public_key self) in
  let dgst := hash_digest L (hc_algorithm hc) (hc_data hc) in
  let o := RSA_public_decrypt L (v_signature self) rsa (RSA_NO_PADDING L) in
  out_res o = v_pkey_size self ->
  _get_rsa_pss_salt_length pss (pub_key_size (v_public_key self)) (len dgst)
    = Ok s ->
  out_res (RSA_verify_PKCS1_PSS L rsa dgst md
             (buffer (v_pkey_size self) (out_buf o)) s) = 1 ->
  outcome (verify L self) w = Ok tt.
Proof.
  intros L self w md hc pss s Hm Hp Hmd Hh rsa dgst o Hres Hsalt Hres'.
  unfold outcome, verify.
  rewrite (bind_ok _ _ _ _ _ _ _ (get_digest_found _ _ _ _ Hmd)).
  rewrite Hm. unfold _verify_pss, Hash_finalize, hash__ctx, set_hash__ctx,
                as_pss.
  run. cbn [with_trace heap err_queue trace]. fold rsa. fold o.
  rewrite Hres, Z.eqb_refl. cbn [negb fst snd err_queue heap trace].
  rewrite Hh. cbn [fst snd err_queue heap trace]. rewrite Hp. fold dgst.
  rewrite Hsalt. rewrite Hres'. reflexivity.
Qed.

Lemma constructed_private_key : forall L rsa_cdata w priv,
  outcome (new_RSAPrivateKey L rsa_cdata) w = Ok priv ->
  priv_rsa_cdata priv = rsa_cdata
  /\ priv_evp_pkey priv = mkPKEY rsa_cdata
  /\ priv_key_size priv = BN_num_bits L (rsa_n rsa_cdata).
Proof.
  intros L rsa_cdata w priv H.
  unfold new_RSAPrivateKey, key_init in H. run.
  repeat (cbn [fst snd err_queue heap trace] in H;
          first [ discriminate H | break_match_in H ]).
  inversion H. subst priv. cbn. repeat split.
Qed.

Lemma public_key_size : forall L self w pub,
  outcome (public_key L self) w = Ok pub ->
  pub_key_size pub = BN_num_bits L (rsa_n (priv_rsa_cdata self)).
Proof.
  intros L self w pub H.
  unfold public_key, new_RSAPublicKey, key_init in H. run.
  repeat (cbn [fst snd err_queue heap trace] in H;
          first [ discriminate H | break_match_in H ]).
  inversion H. subst pub. reflexivity.
Qed.

Lemma pss_check_message : forall L k pss alg m m',
  pss_check L k pss alg m = None -> pss_check L k pss alg m' = None.
Proof.
  intros L k pss alg m m'. unfold pss_check.
  repeat break_match; intros H; first [discriminate H | reflexivity].
Qed.

(** A signature verifies.  A private key is built from an RSA structure
    and its public key taken from it; the library gives both keys the same
    size in bytes and verifies what it signs for the padding, the hash and
    the data.  Then a signature context made by [signer], fed the data and
    finalized, returns a signature, and a verification context made by
    [verifier] for that signature with the same padding and hash, fed the
    same data, accepts it. *)
Theorem sign_verify_roundtrip :
  forall L rsa_cdata priv pub p alg data w0 w1 w sctx ws,
    outcome (new_RSAPrivateKey L rsa_cdata) w0 = Ok priv ->
    outcome (public_key L priv) w1 = Ok pub ->
    EVP_PKEY_size L (pub_evp_pkey pub) = EVP_PKEY_size L (priv_evp_pkey priv) ->
    signing_inverts L priv pub p alg data ->
    signer L priv (Padding p) alg w = (Ok sctx, ws) ->
    exists sig,
      outcome (sign_update sctx data ;; finalize L sctx) ws = Ok sig
      /\ forall w', exists vctx wv,
           verifier L pub sig (Padding p) alg w' = (Ok vctx, wv)
           /\ outcome (verify_update vctx data ;; verify L vctx) wv = Ok tt.
Proof.
  intros L rsa_cdata priv pub p alg data w0 w1 w sctx ws Hpriv Hpub Hsize
         Hinv Hsigner.
  destruct (constructed_private_key _ _ _ _ Hpriv) as (Hrsa & _ & Hbits).
  pose proof (public_key_size _ _ _ _ Hpub) as Hpbits.
  assert (Hks : pub_key_size pub = priv_key_size priv)
    by (rewrite Hpbits, Hbits, Hrsa; reflexivity).
  clear Hpriv Hpub Hrsa Hbits Hpbits.
  unfold signing_inverts in Hinv.
  destruct p as [| o | pss | name].
  - (* PKCS#1 v1.5 *)
    rewrite signer_pkcs1 in Hsigner. inversion Hsigner. subst sctx ws.
    clear Hsigner.
    destruct (Cryptography_HAS_PKEY_CTX L) eqn:Hflag.
    + destruct Hinv as (md & Hmd & Hres & Hsi & Hvi & Has & Hav & Hr0 & Hr
                        & Hlen & Hver).
      eexists. split.
      * unfold outcome, sign_update. cbn [s_hash_ctx].
        rewrite (bind_ok _ _ _ _ _ _ _ (update_new_hash alg data w)).
        apply (finalize_pkey_ctx_signs L _ _ md (RSA_PKCS1_PADDING L)
                 (mkHashCtx alg data));
          try reflexivity; try assumption.
        cbn [s_hash_ctx hash_ref heap]. apply nth_length_app.
      * intros w'. eexists. eexists. split.
        { rewrite verifier_pkcs1, Hflag. reflexivity. }
        unfold outcome, verify_update. cbn [v_hash_ctx].
        rewrite (bind_ok _ _ _ _ _ _ _ (update_new_hash alg data w')).
        apply (verify_pkey_ctx_accepts L _ _ md (RSA_PKCS1_PADDING L)
                 (mkHashCtx alg data));
          try reflexivity; try assumption.
        { cbn [v_hash_ctx hash_ref heap]. apply nth_length_app. }
        cbn [v_padding v_public_key v_hash_ctx v_signature algorithm
             hc_algorithm hc_data].
        rewrite buffer_exact by exact Hlen. exact Hver.
    + destruct Hinv as (md & Hmd & Hres & Hlen & Hle & Hver).
      eexists. split.
      * unfold outcome, sign_update. cbn [s_hash_ctx].
        rewrite (bind_ok _ _ _ _ _ _ _ (update_new_hash alg data w)).
        apply (finalize_pkcs1_signs L _ _ md (mkHashCtx alg data));
          try reflexivity; try assumption.
        cbn [s_hash_ctx hash_ref heap]. apply nth_length_app.
      * intros w'. eexists. eexists. split.
        { rewrite verifier_pkcs1, Hflag. reflexivity. }
        unfold outcome, verify_update. cbn [v_hash_ctx].
        rewrite (bind_ok _ _ _ _ _ _ _ (update_new_hash alg data w')).
        apply (verify_pkcs1_accepts L _ _ md (mkHashCtx alg data));
          try reflexivity.
        { exact Hmd. }
        { cbn [v_hash_ctx hash_ref heap]. apply nth_length_app. }
        cbn [v_signature v_public_key s_pkey_size s_private_key].
        rewrite <- Hlen.
        rewrite slice_buffer_written by (rewrite Hlen; exact Hle).
        exact Hver.
  - (* OAEP *)
    rewrite signer_unsupported in Hsigner by reflexivity. discriminate Hsigner.
  - (* PSS *)
    rewrite signer_pss in Hsigner.
    destruct (pss_check L (EVP_PKEY_size L (priv_evp_pkey priv)) pss alg
                msg_digest_too_large) eqn:Hcheck; [discriminate Hsigner |].
    inversion Hsigner. subst sctx ws. clear Hsigner.
    assert (Hcheck' : pss_check L (EVP_PKEY_size L (pub_evp_pkey pub)) pss alg
                        msg_digest_too_large_verify = None)
      by (rewrite Hsize; exact (pss_check_message _ _ _ _ _ _ Hcheck)).
    destruct (Cryptography_HAS_PKEY_CTX L) eqn:Hflag.
    + destruct Hinv as (md & Hmd & Hres & Hsi & Hvi & Has & Hav & Hr0 & Hr
                        & Hlen & Hver).
      eexists. split.
      * unfold outcome, sign_update. cbn [s_hash_ctx].
        rewrite (bind_ok _ _ _ _ _ _ _ (update_new_hash alg data w)).
        apply (finalize_pkey_ctx_signs L _ _ md (RSA_PKCS1_PSS_PADDING L)
                 (mkHashCtx alg data));
          try reflexivity; try assumption.
        cbn [s_hash_ctx hash_ref heap]. apply nth_length_app.
      * intros w'. eexists. eexists. split.
        { rewrite verifier_pss, Hcheck', Hflag. reflexivity. }
        unfold outcome, verify_update. cbn [v_hash_ctx].
        rewrite (bind_ok _ _ _ _ _ _ _ (update_new_hash alg data w')).
        apply (verify_pkey_ctx_accepts L _ _ md (RSA_PKCS1_PSS_PADDING L)
                 (mkHashCtx alg data));
          try reflexivity;
          cbn [v_padding v_public_key v_hash_ctx v_signature algorithm
               hc_algorithm hc_data s_padding s_private_key s_hash_ctx];
          rewrite ?Hks; try assumption.
        { cbn [hash_ref heap]. apply nth_length_app. }
        rewrite buffer_exact by exact Hlen. exact Hver.
    + destruct Hinv as (md & s & Hmd & Hsalt & Hr1 & Hl1 & Hr2 & Hl2 & Hr3
                        & Hl3 & Hver).
      eexists. split.
      * unfold outcome, sign_update. cbn [s_hash_ctx].
        rewrite (bind_ok _ _ _ _ _ _ _ (update_new_hash alg data w)).
        apply (finalize_pss_signs L _ _ md (mkHashCtx alg data) pss s);
          try reflexivity; try assumption;
          cbn [s_pkey_size s_private_key hc_algorithm hc_data].
        { cbn [s_hash_ctx hash_ref heap]. apply nth_length_app. }
        rewrite buffer_exact by exact Hl1. rewrite Hr2.
        pose proof (len_nonneg
                      (out_buf (RSA_padding_add_PKCS1_PSS L
                                  (priv_rsa_cdata priv)
                                  (hash_digest L alg data) md s))).
        lia.
      * intros w'. eexists. eexists. split.
        { rewrite verifier_pss, Hcheck', Hflag. reflexivity. }
        unfold outcome, verify_update. cbn [v_hash_ctx].
        rewrite (bind_ok _ _ _ _ _ _ _ (update_new_hash alg data w')).
        cbn [s_pkey_size s_private_key hc_algorithm hc_data].
        rewrite (buffer_exact _ _ Hl1), Hr2.
        rewrite (buffer_exact _ _ Hl2).
        rewrite (slice_to_len _ _ Hl2).
        apply (verify_pss_accepts L _ _ md (mkHashCtx alg data) pss s);
          try reflexivity;
          cbn [v_padding v_public_key v_hash_ctx v_signature v_pkey_size
               algorithm hc_algorithm hc_data];
          rewrite ?Hks, ?Hsize; try assumption.
        { cbn [hash_ref heap]. apply nth_length_app. }
        rewrite (buffer_exact _ _ Hl3). exact Hver.
  - (* another padding *)
    rewrite signer_unsupported in Hsigner by reflexivity. discriminate Hsigner.
Qed.

(** A PSS signature over SHA-256 with a 1024-bit key of the reference
    library, on a build with [EVP_PKEY_CTX]. *)
Lemma sign_verify_roundtrip_witness :
  exists sig,
    outcome
      (sign_update
         (mkSignatureContext (Ref.private_key 1024) 128 finalize_pkey_ctx
            (Some OpenSSL.RSA_PKCS1_PSS_PADDING)
            (PSS (mkPSS (MGF1 SHA256) PSS_MAX_LENGTH)) SHA256
            (mkHash SHA256 0)) [Byte.x41; Byte.x42] ;;
       finalize (Ref.lib true true)
         (mkSignatureContext (Ref.private_key 1024) 128 finalize_pkey_ctx
            (Some OpenSSL.RSA_PKCS1_PSS_PADDING)
            (PSS (mkPSS (MGF1 SHA256) PSS_MAX_LENGTH)) SHA256
            (mkHash SHA256 0)))
      (with_hash empty_world SHA256) = Ok sig
    /\ forall w', exists vctx wv,
         verifier (Ref.lib true true)
           (Ref.public_key_of (Ref.private_key 1024)) sig
           (Padding (PSS (mkPSS (MGF1 SHA256) PSS_MAX_LENGTH))) SHA256 w'
         = (Ok vctx, wv)
         /\ outcome (verify_update vctx [Byte.x41; Byte.x42] ;;
                     verify (Ref.lib true true) vctx) wv = Ok tt.
Proof.
  apply (sign_verify_roundtrip (Ref.lib true true) (Ref.rsa_of_bits 1024)
           (Ref.private_key 1024) (Ref.public_key_of (Ref.private_key 1024))
           (PSS (mkPSS (MGF1 SHA256) PSS_MAX_LENGTH)) SHA256
           [Byte.x41; Byte.x42] empty_world empty_world empty_world).
  - vm_compute. reflexivity.
  - vm_compute. reflexivity.
  - vm_compute. reflexivity.
  - exists (mkMD "sha256"). vm_compute.
    repeat split; intros; try discriminate; eauto.
  - vm_compute. reflexivity.
Defined.

(** ** What a successful operation has obtained from the library *)

Ltac bool_facts :=
  repeat match goal with
    | H : negb _ = true |- _ => apply negb_true_iff in H
    | H : negb _ = false |- _ => apply negb_false_iff in H
    | H : (_ <? _) = true |- _ => apply Z.ltb_lt in H
    | H : (_ <? _) = false |- _ => apply Z.ltb_ge in H
    | H : (_ <=? _) = true |- _ => apply Z.leb_le in H
    | H : (_ <=? _) = false |- _ => apply Z.leb_gt in H
    | H : (_ =? _) = true |- _ => apply Z.eqb_eq in H
    | H : (_ =? _) = false |- _ => apply Z.eqb_neq in H
    end.

Ltac settings_fields :=
  unfold set_op, set_signature_md, set_rsa_padding, set_rsa_pss_saltlen,
         set_rsa_mgf1_md, new_ctx, configured, salt_setting,
         mgf1_md_setting in *;
  cbn [ctx_pkey ctx_op ctx_signature_md ctx_rsa_padding ctx_rsa_pss_saltlen
       ctx_rsa_mgf1_md] in *.

Ltac obtained_from H :=
  bool_facts;
  repeat match goal with
         | |- exists _, _ => eexists
         | |- _ /\ _ => split
         end;
  first [ reflexivity | eassumption | lia
        | solve [inversion H; reflexivity] ].

Ltac output_cases H :=
  repeat (cbn [fst snd err_queue heap trace] in *;
          first [ discriminate H
                | break_match_in H
                | solve [obtained_from H] ]).

(** [verify] accepts a signature only when the library has accepted it:
    when [verify] returns, the hash object was active and the verification
    primitive of the path, called with the signature, the digest of the
    data fed to the context and the settings of the context, has reported
    success. *)
Theorem verify_accepts_what_library_accepts : forall L self w,
  outcome (verify L self) w = Ok tt -> verification_accepted L self w.
Proof.
  intros L self w H. unfold verification_accepted.
  unfold verify, _verify_pkey_ctx, _verify_pkcs1, _verify_pss,
         pkey_ctx_set_pss, get_digest, get_padding_enum, as_pss,
         raise_invalid_signature, Hash_finalize, hash__ctx, set_hash__ctx,
         nonempty in *.
  run. settings_fields.
  destruct (v_verify_method self).
  - output_cases H.
  - output_cases H.
  - output_cases H.
Qed.

(** A valid PKCS#1 v1.5 signature of the empty message. *)
Lemma verify_accepts_what_library_accepts_witness :
  verification_accepted (Ref.lib true true)
    (mkVerificationContext (Ref.public_key_of (Ref.private_key 1024))
       (Ref.pad_block 128 (Ref.digest SHA1 []))
       128 verify_pkey_ctx (Some OpenSSL.RSA_PKCS1_PADDING) PKCS1v15
       SHA1 (mkHash SHA1 0))
    (mkWorld [] [Some (mkHashCtx SHA1 [])] []).
Proof.
  apply verify_accepts_what_library_accepts. vm_compute. reflexivity.
Defined.

(** [finalize] returns only what the library has signed: when it returns
    [sig], the hash object was active, the signing primitive of the path,
    called with the digest of the data fed to the context and the settings
    of the context, has reported success, and [sig] is the content of its
    output buffer. *)
Theorem finalize_returns_library_signature : forall L self w sig,
  outcome (finalize L self) w = Ok sig -> signature_obtained L self w sig.
Proof.
  intros L self w sig H. unfold signature_obtained.
  unfold finalize, _finalize_pkey_ctx, _finalize_pkcs1, _finalize_pss,
         pkey_ctx_set_pss, get_digest, get_padding_enum, as_pss,
         Hash_finalize, hash__ctx, set_hash__ctx, nonempty in *.
  run. settings_fields.
  destruct (s_finalize_method self).
  - output_cases H.
  - output_cases H.
  - output_cases H.
Qed.

(** A PKCS#1 v1.5 signature of the empty message on the path of OpenSSL
    0.9.8. *)
Lemma finalize_returns_library_signature_witness :
  signature_obtained (Ref.lib false false)
    (mkSignatureContext (Ref.private_key 1024) 128 finalize_pkcs1 None
       PKCS1v15 SHA1 (mkHash SHA1 0))
    (mkWorld [] [Some (mkHashCtx SHA1 [])] [])
    (Ref.pad_block 128 (Ref.digest SHA1 [])).
Proof.
  apply finalize_returns_library_signature. vm_compute. reflexivity.
Defined.

Lemma enc_dec_obtained : forall L key data p w out,
  outcome (_enc_dec_rsa L key data (Padding p)) w = Ok out ->
  crypt_obtained L key data p out.
Proof.
  intros L key data p w out H.
  destruct (supported_enc_padding p) eqn:Hp.
  - unfold outcome, _enc_dec_rsa in H.
    rewrite (bind_ok _ _ _ _ _ _ _ (padding_enum_supported L p w Hp)) in H.
    unfold crypt_obtained. split; [exact Hp |]. cbv zeta.
    generalize dependent (padding_enum_of L p). intros pe H.
    unfold _enc_dec_rsa_pkey_ctx, _enc_dec_rsa_098,
           _handle_rsa_enc_dec_error, nonempty in H.
    run. settings_fields.
    destruct (Cryptography_HAS_PKEY_CTX L), key as [k | k];
      cbn [is_public _evp_pkey _rsa_cdata] in *;
      output_cases H.
  - exfalso. unfold outcome, _enc_dec_rsa in H.
    assert (Hr : exists e, enc_dec_padding_enum L (Padding p) w = (Raise e, w)).
    { unfold supported_enc_padding in Hp. unfold enc_dec_padding_enum.
      destruct p as [| o | pss | name]; try discriminate Hp;
        try (eexists; reflexivity).
      destruct (oaep_mgf o) as [h |]; [| eexists; reflexivity].
      run.
      destruct (is_SHA1 h), (has_label (oaep_label o)),
               (is_SHA1 (oaep_algorithm o));
        try discriminate Hp; eexists; reflexivity. }
    destruct Hr as [e Hr].
    rewrite (bind_raise _ _ _ _ _ _ _ Hr) in H. discriminate H.
Qed.

(** [encrypt] and [decrypt] return only what the library has produced:
    when either returns, the padding is one the backend supports, the
    encryption or decryption primitive of the path, called with the data
    and the padding constant, has reported success, and the result is the
    content of its output buffer up to the length it reported.  For
    [decrypt] the ciphertext has the key's length in bytes. *)
Theorem crypt_returns_library_output : forall L,
  (forall self plaintext p w out,
      outcome (encrypt L self plaintext (Padding p)) w = Ok out ->
      crypt_obtained L (PublicKey self) plaintext p out)
  /\ (forall self ciphertext p w out,
      outcome (decrypt L self ciphertext (Padding p)) w = Ok out ->
      len ciphertext = ceil_div8 (priv_key_size self)
      /\ crypt_obtained L (PrivateKey self) ciphertext p out).
Proof.
  intros L. split.
  - intros self plaintext p w out H. unfold encrypt in H.
    exact (enc_dec_obtained _ _ _ _ _ _ H).
  - intros self ct p w out H. unfold decrypt, outcome in H.
    destruct (ceil_div8 (priv_key_size self) =? len ct) eqn:E;
      [| discriminate H].
    apply Z.eqb_eq in E. split; [symmetry; exact E |].
    exact (enc_dec_obtained _ _ _ _ _ _ H).
Qed.

(** One byte encrypted under PKCS#1 v1.5 with a 512-bit key. *)
Lemma crypt_returns_library_output_witness :
  crypt_obtained (Ref.lib true true)
    (PublicKey (Ref.public_key_of (Ref.private_key 512))) [Byte.x41]
    PKCS1v15 (Ref.pad_block 64 [Byte.x41]).
Proof.
  apply (proj1 (crypt_returns_library_output (Ref.lib true true))
           (Ref.public_key_of (Ref.private_key 512)) [Byte.x41] PKCS1v15
           empty_world).
  vm_compute. reflexivity.
Defined.

(** ** Length of the results *)

Lemma buffer_len : forall n b, 0 <= n -> len (buffer n b) = n.
Proof.
  intros n b H. unfold buffer, len.
  rewrite length_firstn, length_app, repeat_length. lia.
Qed.

Lemma slice_to_le : forall b k, len (slice_to b k) <= len b.
Proof.
  intros b k. unfold slice_to, len.
  destruct (0 <=? k); rewrite length_firstn; lia.
Qed.

Lemma slice_buffer_le : forall n b k,
  0 <= n -> len (slice_to (buffer n b) k) <= n.
Proof.
  intros n b k H. pose proof (slice_to_le (buffer n b) k) as Hs.
  rewrite buffer_len in Hs by exact H. exact Hs.
Qed.

(** The result of an encryption or decryption is never longer than the
    buffer the module allocates for it, which has the size of the key in
    bytes as the library gives it ([EVP_PKEY_size], or [RSA_size] on the
    path of OpenSSL 0.9.8).  On that path a signature is never longer than
    the size of the key in bytes either. *)
Theorem results_fit_key_size : forall L,
  (forall key data p w out,
      outcome (_enc_dec_rsa L key data p) w = Ok out ->
      len out <= if Cryptography_HAS_PKEY_CTX L
                 then EVP_PKEY_size L (_evp_pkey key)
                 else RSA_size L (_rsa_cdata key))
  /\ (forall self w sig,
      s_finalize_method self <> finalize_pkey_ctx ->
      outcome (finalize L self) w = Ok sig ->
      len sig <= Z.max 0 (s_pkey_size self)).
Proof.
  intros L. split.
  - intros key data [| p] w out H; [discriminate H |].
    destruct (enc_dec_obtained _ _ _ _ _ _ H) as [_ Ho].
    cbv zeta in Ho.
    destruct (Cryptography_HAS_PKEY_CTX L);
      destruct Ho as (Hn & _ & ->); apply slice_buffer_le; lia.
  - intros self w sig Hm H.
    assert (Hb : forall b k,
               len (slice_to (buffer (s_pkey_size self) b) k)
               <= Z.max 0 (s_pkey_size self)).
    { intros b k. destruct (Z.le_gt_cases 0 (s_pkey_size self)) as [Hk | Hk].
      - pose proof (slice_buffer_le _ b k Hk). lia.
      - pose proof (slice_to_le (buffer (s_pkey_size self) b) k) as Hs.
        unfold buffer in Hs at 2.
        replace (Z.to_nat (s_pkey_size self)) with 0%nat in Hs by lia.
        cbn in Hs. lia. }
    unfold finalize, _finalize_pkey_ctx, _finalize_pkcs1, _finalize_pss,
           pkey_ctx_set_pss, get_digest, get_padding_enum, as_pss,
           Hash_finalize, hash__ctx, set_hash__ctx, nonempty in H.
    run.
    destruct (s_finalize_method self); [congruence | |];
      repeat (cbn [fst snd err_queue heap trace] in H;
              first [ discriminate H
                    | break_match_in H
                    | solve [inversion H; apply Hb] ]).
Qed.

(** ** The error queue after a reported failure *)

Ltac unfold_messages :=
  unfold msg_data_too_long, msg_decryption_failed, msg_oaep_labels,
         msg_ciphertext_length, msg_salt_too_long, msg_digest_too_large
    in *.

Ltac drained H :=
  repeat (cbn [fst snd err_queue heap trace] in *;
          first [ discriminate H
                | reflexivity
                | break_match_in H ]).

Lemma enc_dec_drains : forall L key data p w m,
  m = msg_data_too_long \/ m = msg_decryption_failed ->
  outcome (_enc_dec_rsa L key data p) w = Raise (ValueError m) ->
  err_queue (after (_enc_dec_rsa L key data p) w) = [].
Proof.
  intros L key data p w m Hm H.
  unfold _enc_dec_rsa, enc_dec_padding_enum, _enc_dec_rsa_pkey_ctx,
         _enc_dec_rsa_098, _handle_rsa_enc_dec_error, nonempty in *.
  run. destruct Hm; subst m; unfold_messages; drained H.
Qed.

(** A failure that the module reports from the library leaves OpenSSL's
    error queue empty: the [ValueError] of [encrypt] for data too long and
    of [decrypt] for a failed decryption, any [ValueError] of [finalize]
    (which is one of two: salt too long, digest too large), and the
    [InvalidSignature] of [verify]. *)
Theorem reported_failures_consume_errors : forall L,
  (forall self plaintext p w,
      outcome (encrypt L self plaintext p) w =
        Raise (ValueError msg_data_too_long) ->
      err_queue (after (encrypt L self plaintext p) w) = [])
  /\ (forall self ciphertext p w,
      outcome (decrypt L self ciphertext p) w =
        Raise (ValueError msg_decryption_failed) ->
      err_queue (after (decrypt L self ciphertext p) w) = [])
  /\ (forall self w m,
      outcome (finalize L self) w = Raise (ValueError m) ->
      (m = msg_salt_too_long \/ m = msg_digest_too_large)
      /\ err_queue (after (finalize L self) w) = [])
  /\ (forall self w,
      outcome (verify L self) w = Raise InvalidSignature ->
      err_queue (after (verify L self) w) = []).
Proof.
  intros L. split; [| split; [| split]].
  - intros self plaintext p w H. unfold encrypt in *.
    apply (enc_dec_drains _ _ _ _ _ msg_data_too_long); auto.
  - intros self ct p w H. unfold decrypt, outcome, after in *.
    destruct (negb (ceil_div8 (priv_key_size self) =? len ct)).
    + unfold raise in H. cbn in H. unfold_messages. discriminate H.
    + apply (enc_dec_drains _ _ _ _ _ msg_decryption_failed); auto.
  - intros self w m H.
    unfold finalize, _finalize_pkey_ctx, _finalize_pkcs1, _finalize_pss,
           pkey_ctx_set_pss, get_digest, get_padding_enum, as_pss,
           Hash_finalize, hash__ctx, set_hash__ctx, nonempty,
           _get_rsa_pss_salt_length in *.
    run.
    repeat (cbn [fst snd err_queue heap trace] in *;
            first [ discriminate H
                  | solve [inversion H; auto]
                  | break_match_in H ]).
  - intros self w H.
    unfold verify, _verify_pkey_ctx, _verify_pkcs1, _verify_pss,
           pkey_ctx_set_pss, get_digest, get_padding_enum, as_pss,
           raise_invalid_signature, Hash_finalize, hash__ctx, set_hash__ctx,
           nonempty, _get_rsa_pss_salt_length in *.
    run. drained H.
Qed.

(** ** The two contexts of a key pair *)

(** [signer] and [verifier] make the same checks.  For keys to which the
    library gives the same size in bytes, and the same padding and hash,
    either both contexts are created, on the same path and with the same
    padding constant, or both creations fail, with the same exception up
    to the message for a digest too large for the key. *)
Theorem signer_and_verifier_agree : forall L priv pub sig p alg w w',
  EVP_PKEY_size L (pub_evp_pkey pub) = EVP_PKEY_size L (priv_evp_pkey priv) ->
  match outcome (signer L priv p alg) w,
        outcome (verifier L pub sig p alg) w' with
  | Ok s, Ok v =>
      same_path (s_finalize_method s) (v_verify_method v) = true
      /\ s_padding_enum s = v_padding_enum v
      /\ s_pkey_size s = v_pkey_size v
      /\ s_padding s = v_padding v
      /\ s_algorithm s = v_algorithm v
      /\ algorithm (s_hash_ctx s) = algorithm (v_hash_ctx v)
  | Raise e, Raise e' =>
      e = e'
      \/ (e = ValueError msg_digest_too_large
          /\ e' = ValueError msg_digest_too_large_verify)
  | _, _ => False
  end.
Proof.
  intros L priv pub sig [| p] alg w w' Hsize; [left; reflexivity |].
  unfold outcome. destruct p as [| o | pss | name].
  - rewrite signer_pkcs1, verifier_pkcs1, Hsize. cbn.
    destruct (Cryptography_HAS_PKEY_CTX L); repeat split.
  - rewrite signer_unsupported, verifier_unsupported by reflexivity.
    left. reflexivity.
  - rewrite signer_pss, verifier_pss, Hsize. unfold pss_check.
    destruct (pss_mgf pss) as [h |]; [| left; reflexivity].
    destruct (0 <? EVP_PKEY_size L (priv_evp_pkey priv));
      [| left; reflexivity].
    destruct (EVP_PKEY_size L (priv_evp_pkey priv) - digest_size alg - 2 <? 0);
      [right; split; reflexivity |].
    destruct (_mgf1_hash_supported L h); [| left; reflexivity].
    cbn. destruct (Cryptography_HAS_PKEY_CTX L); repeat split.
  - rewrite signer_unsupported, verifier_unsupported by reflexivity.
    left. reflexivity.
Qed.

(** PSS over SHA-256 for a 1024-bit key of the reference library: both
    contexts are created, on the [EVP_PKEY_CTX] path. *)
Lemma signer_and_verifier_agree_witness :
  match outcome (signer (Ref.lib true true) (Ref.private_key 1024)
                   (Padding (PSS (mkPSS (MGF1 SHA256) PSS_MAX_LENGTH)))
                   SHA256) empty_world,
        outcome (verifier (Ref.lib true true)
                   (Ref.public_key_of (Ref.private_key 1024)) [Byte.x00]
                   (Padding (PSS (mkPSS (MGF1 SHA256) PSS_MAX_LENGTH)))
                   SHA256) empty_world with
  | Ok s, Ok v =>
      same_path (s_finalize_method s) (v_verify_method v) = true
      /\ s_padding_enum s = v_padding_enum v
      /\ s_pkey_size s = v_pkey_size v
      /\ s_padding s = v_padding v
      /\ s_algorithm s = v_algorithm v
      /\ algorithm (s_hash_ctx s) = algorithm (v_hash_ctx v)
  | Raise e, Raise e' =>
      e = e'
      \/ (e = ValueError msg_digest_too_large
          /\ e' = ValueError msg_digest_too_large_verify)
  | _, _ => False
  end.
Proof.
  apply (signer_and_verifier_agree (Ref.lib true true)
           (Ref.private_key 1024)
           (Ref.public_key_of (Ref.private_key 1024)) [Byte.x00]
           (Padding (PSS (mkPSS (MGF1 SHA256) PSS_MAX_LENGTH))) SHA256
           empty_world empty_world).
  reflexivity.
Defined.

(** ** The public key of a private key *)

(** A private key built from an RSA structure and the public key taken
    from it agree: they have the same size in bits, and the public numbers
    of the public key are the public numbers within the private numbers of
    the private key. *)
Theorem public_key_agrees_with_private_key :
  forall L rsa_cdata priv pub w0 w,
    outcome (new_RSAPrivateKey L rsa_cdata) w0 = Ok priv ->
    outcome (public_key L priv) w = Ok pub ->
    pub_key_size pub = priv_key_size priv
    /\ forall _bn_to_int w1 w2 numbers,
         outcome (private_numbers _bn_to_int priv) w1 = Ok numbers ->
         outcome (public_numbers _bn_to_int pub) w2
         = Ok (pn_public_numbers numbers).
Proof.
  intros L rsa_cdata priv pub w0 w Hpriv Hpub.
  destruct (constructed_private_key _ _ _ _ Hpriv) as (Hrsa & _ & Hbits).
  split.
  - rewrite (public_key_size _ _ _ _ Hpub), Hbits, Hrsa. reflexivity.
  - intros conv w1 w2 numbers Hn.
    unfold public_key, new_RSAPublicKey, key_init in Hpub. run.
    repeat (cbn [fst snd err_queue heap trace] in Hpub;
            first [ discriminate Hpub | break_match_in Hpub ]).
    inversion Hpub. subst pub. clear Hpub.
    unfold private_numbers, public_numbers in *. run.
    cbn [pub_rsa_cdata rsa_e rsa_n] in *.
    repeat (cbn [fst snd] in Hn;
            first [ discriminate Hn | break_match_in Hn ]).
    inversion Hn. subst numbers. reflexivity.
Qed.

(** A 1024-bit key of the reference library and its public key. *)
Lemma public_key_agrees_with_private_key_witness :
  pub_key_size (Ref.public_key_of (Ref.private_key 1024))
  = priv_key_size (Ref.private_key 1024)
  /\ forall _bn_to_int w1 w2 numbers,
       outcome (private_numbers _bn_to_int (Ref.private_key 1024)) w1
       = Ok numbers ->
       outcome (public_numbers _bn_to_int
                  (Ref.public_key_of (Ref.private_key 1024))) w2
       = Ok (pn_public_numbers numbers).
Proof.
  apply (public_key_agrees_with_private_key (Ref.lib true true)
           (Ref.rsa_of_bits 1024) (Ref.private_key 1024)
           (Ref.public_key_of (Ref.private_key 1024)) empty_world
           empty_world).
  - vm_compute. reflexivity.
  - vm_compute. reflexivity.
Defined.

(** ** Salt length and key size *)

Lemma pss_check_size : forall L k pss alg m,
  pss_check L k pss alg m = None -> 0 <= k - digest_size alg - 2.
Proof.
  intros L k pss alg m. unfold pss_check.
  destruct (pss_mgf pss); [| discriminate].
  destruct (negb (0 <? k)); [discriminate |].
  destruct (k - digest_size alg - 2 <? 0) eqn:E; [discriminate |].
  intros _. apply Z.ltb_ge in E. exact E.
Qed.

Lemma set_pss_max_length_fails : forall L ctx pss ks h w,
  is_max_length (pss_salt_length pss) = true ->
  ceil_div8 (ks - 1) - digest_size (algorithm h) - 2 < 0 ->
  outcome (pkey_ctx_set_pss L ctx (PSS pss) ks h) w = Raise AssertionError.
Proof.
  intros L ctx pss ks h w Hmax Hneg. unfold pkey_ctx_set_pss.
  rewrite (salt_length_max _ _ _ Hmax).
  apply Z.leb_gt in Hneg. rewrite Hneg. reflexivity.
Qed.

Ltac assertion_steps L pss Hmax Hneg :=
  repeat (cbn [fst snd err_queue heap trace];
          first [ reflexivity
                | match goal with
                  | |- context [pkey_ctx_set_pss L ?c (PSS pss) ?k ?h ?W] =>
                      let Hp := fresh "Hp" in
                      let r := fresh "r" in
                      pose proof (set_pss_max_length_fails L c pss k h W
                                    Hmax Hneg) as Hp;
                      unfold outcome in Hp;
                      destruct (pkey_ctx_set_pss L c (PSS pss) k h W)
                        as [r ?];
                      cbn [fst] in Hp; subst r
                  end
                | match goal with
                  | |- context [match ?x with _ => _ end] =>
                      lazymatch x with
                      | context [match _ with _ => _ end] => fail
                      | context [pkey_ctx_set_pss] => fail
                      | _ => destruct x eqn:?
                      end
                  end ]).

(** The check at creation is on the size of the key in bytes, the
    resolution of [MAX_LENGTH] on the bit length less one, and the two can
    differ.  On a build with [EVP_PKEY_CTX], a PSS context with a
    [MAX_LENGTH] salt that has been created for a key and a hash with
    [ceil((key_size - 1) / 8) - digest_size - 2 < 0] passed the check at
    creation, and every [finalize] or [verify] on it stops on a failed
    assertion. *)
Theorem max_length_assertion_after_creation : forall L pss alg,
  Cryptography_HAS_PKEY_CTX L = true ->
  is_max_length (pss_salt_length pss) = true ->
  (forall priv w sctx ws,
      signer L priv (Padding (PSS pss)) alg w = (Ok sctx, ws) ->
      ceil_div8 (priv_key_size priv - 1) - digest_size alg - 2 < 0 ->
      0 <= s_pkey_size sctx - digest_size alg - 2
      /\ forall w', outcome (finalize L sctx) w' = Raise AssertionError)
  /\ (forall pub sig w vctx wv,
      verifier L pub sig (Padding (PSS pss)) alg w = (Ok vctx, wv) ->
      ceil_div8 (pub_key_size pub - 1) - digest_size alg - 2 < 0 ->
      0 <= v_pkey_size vctx - digest_size alg - 2
      /\ forall w', outcome (verify L vctx) w' = Raise AssertionError).
Proof.
  intros L pss alg Hflag Hmax. split.
  - intros priv w sctx ws Hs Hneg. rewrite signer_pss in Hs.
    destruct (pss_check L (EVP_PKEY_size L (priv_evp_pkey priv)) pss alg
                msg_digest_too_large) eqn:Hcheck; [discriminate Hs |].
    rewrite Hflag in Hs. inversion Hs. subst sctx ws. clear Hs.
    cbn [s_pkey_size]. split; [exact (pss_check_size _ _ _ _ _ Hcheck) |].
    intros w'.
    unfold finalize, _finalize_pkey_ctx, get_digest, get_padding_enum.
    cbn [s_finalize_method s_padding_enum s_padding s_private_key
         s_hash_ctx s_algorithm].
    cbv zeta.
    unfold outcome, assert_, call, log, bind, ret, raise.
    cbn [fst snd err_queue heap trace].
    assertion_steps L pss Hmax Hneg.
  - intros pub sig w vctx wv Hv Hneg. rewrite verifier_pss in Hv.
    destruct (pss_check L (EVP_PKEY_size L (pub_evp_pkey pub)) pss alg
                msg_digest_too_large_verify) eqn:Hcheck; [discriminate Hv |].
    rewrite Hflag in Hv. inversion Hv. subst vctx wv. clear Hv.
    cbn [v_pkey_size]. split; [exact (pss_check_size _ _ _ _ _ Hcheck) |].
    intros w'.
    unfold verify, _verify_pkey_ctx, get_digest, get_padding_enum.
    cbn [v_verify_method v_padding_enum v_padding v_public_key
         v_hash_ctx v_algorithm].
    cbv zeta.
    unfold outcome, assert_, call, log, bind, ret, raise.
    cbn [fst snd err_queue heap trace].
    assertion_steps L pss Hmax Hneg.
Qed.

(** A 521-bit key with SHA-512: the size in bytes is 66 and the check at
    creation passes ([66 - 64 - 2 = 0]); the salt length would be
    [65 - 64 - 2 = -1]. *)
Lemma max_length_assertion_after_creation_witness :
  0 <= 66 - digest_size SHA512 - 2
  /\ forall w',
       outcome
         (finalize (Ref.lib true true)
            (mkSignatureContext (Ref.private_key 521) 66 finalize_pkey_ctx
               (Some OpenSSL.RSA_PKCS1_PSS_PADDING)
               (PSS (mkPSS (MGF1 SHA1) PSS_MAX_LENGTH)) SHA512
               (mkHash SHA512 0))) w'
       = Raise AssertionError.
Proof.
  apply (proj1 (max_length_assertion_after_creation (Ref.lib true true)
                  (mkPSS (MGF1 SHA1) PSS_MAX_LENGTH) SHA512 eq_refl eq_refl)
           (Ref.private_key 521) empty_world
           (mkSignatureContext (Ref.private_key 521) 66 finalize_pkey_ctx
              (Some OpenSSL.RSA_PKCS1_PSS_PADDING)
              (PSS (mkPSS (MGF1 SHA1) PSS_MAX_LENGTH)) SHA512
              (mkHash SHA512 0))
           (with_hash empty_world SHA512)).
  - vm_compute. reflexivity.
  - vm_compute. reflexivity.
Defined.

(** ** The salt of [MAX_LENGTH] and the size of the key *)

(** The salt length that [MAX_LENGTH] resolves to fills the encoded message
    of [ceil((key_size - 1) / 8)] bytes: with the digest and two more bytes
    it is exactly that long.  That is the size of the key in bytes,
    [ceil(key_size / 8)], or one byte less, and one byte less exactly when
    the size in bits is one more than a multiple of eight. *)
Theorem max_length_salt_fills_key : forall pss key_size dsize salt,
  is_max_length (pss_salt_length pss) = true ->
  _get_rsa_pss_salt_length pss key_size dsize = Ok salt ->
  0 <= salt
  /\ salt + dsize + 2 = ceil_div8 (key_size - 1)
  /\ ceil_div8 key_size - 1 <= salt + dsize + 2 <= ceil_div8 key_size
  /\ (salt + dsize + 2 = ceil_div8 key_size - 1 <-> key_size mod 8 = 1).
Proof.
  intros pss key_size dsize salt Hmax H.
  rewrite (salt_length_max _ _ _ Hmax) in H.
  destruct (0 <=? ceil_div8 (key_size - 1) - dsize - 2) eqn:E;
    [| discriminate H].
  inversion H. subst salt. clear H. apply Z.leb_le in E.
  pose proof (ceil_div8_spec key_size) as Hk.
  pose proof (ceil_div8_spec (key_size - 1)) as Hk1.
  unfold is_ceil8 in Hk, Hk1.
  pose proof (Z.div_mod key_size 8 ltac:(lia)) as Hdm.
  pose proof (Z.mod_pos_bound key_size 8 ltac:(lia)) as Hb.
  repeat split; try lia.
Qed.

(** A 2048-bit key with SHA-256: the salt has 222 bytes, and with the 32
    bytes of the digest and two more that makes 256, the size of the key
    in bytes. *)
Lemma max_length_salt_fills_key_witness :
  0 <= 222
  /\ 222 + 32 + 2 = ceil_div8 (2048 - 1)
  /\ ceil_div8 2048 - 1 <= 222 + 32 + 2 <= ceil_div8 2048
  /\ (222 + 32 + 2 = ceil_div8 2048 - 1 <-> 2048 mod 8 = 1).
Proof.
  apply (max_length_salt_fills_key (mkPSS (MGF1 SHA256) PSS_MAX_LENGTH)
           2048 32 222).
  - reflexivity.
  - reflexivity.
Defined.

(** ** Failure of a signature *)

(** A signature that fails in the library is reported from the oldest
    error in the queue, which must be one of the RSA library.  On the
    [EVP_PKEY_CTX] path the reason for data too large for the key size is
    reported as a salt that is too long and the reason for a digest too big
    for the key as a digest too large; on the paths of OpenSSL 0.9.8
    PKCS#1 v1.5 knows the second only and PSS the first only.  Any other
    reason stops [finalize] on a failed assertion. *)
Theorem finalize_reports_signing_failure : forall L self w e q,
  signing_fails L self w (e :: q) ->
  err_lib e = ERR_LIB_RSA L ->
  outcome (finalize L self) w =
    Raise (signing_failure L (s_finalize_method self) (err_reason e)).
Proof.
  intros L self w e q (md & hc & Hmd & Hh & H) Hlib.
  unfold outcome, finalize.
  rewrite (bind_ok _ _ _ _ _ _ _ (get_digest_found _ _ _ _ Hmd)).
  cbv zeta in H. unfold signing_failure.
  destruct (s_finalize_method self).
  - destruct H as (pe & Hpe & Hpss & Hinit & (Hnew & Hsmd & Hpad & Hsalt
                   & Hmgf) & Hres0 & Hres & Hq).
    unfold _finalize_pkey_ctx, get_padding_enum. cbv zeta.
    apply Z.ltb_lt in Hsmd, Hpad. rewrite Hpe.
    ctx_fields.
    repeat first [ rewrite bind_call | rewrite bind_ret
                 | rewrite bind_assert_true
                 | rewrite Hnew | rewrite Hinit | rewrite Z.eqb_refl
                 | rewrite Hsmd | rewrite Hpad ].
    match goal with
    | |- context [bind (pkey_ctx_set_pss L ?c ?p ?k ?h) ?f ?W] =>
        pose proof (pkey_ctx_set_pss_configured L _ OpSign md pe p k h W
                      Hpss Hsalt Hmgf) as Hc;
        pose proof (pkey_ctx_set_pss_store L c p k h W) as [Hqs Hhp];
        unfold outcome, after in Hc, Hqs, Hhp; unfold bind at 1;
        destruct (pkey_ctx_set_pss L c p k h W) as [r W'] eqn:E
    end.
    cbn [fst snd] in Hc, Hqs, Hhp. subst r.
    unfold with_trace in Hqs, Hhp. cbn [err_queue heap trace] in Hqs, Hhp.
    unfold Hash_finalize, hash__ctx, set_hash__ctx. run.
    rewrite Hhp, Hh. cbn [fst snd err_queue heap trace].
    rewrite Hres0. cbn [Z.eqb Pos.eqb fst snd err_queue heap trace].
    apply Z.eqb_neq in Hres. rewrite Hres.
    cbn [negb fst snd err_queue heap trace].
    rewrite Hqs, <- Hq. cbn [fst snd]. rewrite Hlib, Z.eqb_refl.
    cbn [fst snd].
    destruct (err_reason e =? RSA_R_DATA_TOO_LARGE_FOR_KEY_SIZE L);
      [reflexivity |].
    destruct (err_reason e =? RSA_R_DIGEST_TOO_BIG_FOR_RSA_KEY L);
      reflexivity.
  - destruct H as (Hres & Hq).
    unfold _finalize_pkcs1, Hash_finalize, hash__ctx, set_hash__ctx.
    run. cbn [with_trace heap err_queue trace]. rewrite Hh.
    cbn [fst snd err_queue heap trace]. rewrite ?Hh.
    cbn [fst snd err_queue heap trace].
    rewrite Hres. cbn [Z.eqb fst snd err_queue heap trace].
    rewrite <- Hq. cbn [fst snd]. rewrite Hlib, Z.eqb_refl. cbn [fst snd].
    destruct (err_reason e =? RSA_R_DIGEST_TOO_BIG_FOR_RSA_KEY L);
      reflexivity.
  - destruct H as (pss & salt & Hp & Hsalt & Hres & Hq).
    unfold _finalize_pss.
    rewrite (bind_ok _ _ _ _ _ _ _
               (Hash_finalize_active L _ hc (with_trace w _) Hh)).
    rewrite Hp. unfold as_pss. run. rewrite Hsalt.
    apply Z.eqb_neq in Hres. rewrite Hres.
    cbn [negb fst snd err_queue heap trace].
    rewrite <- Hq. cbn [fst snd]. rewrite Hlib, Z.eqb_refl. cbn [fst snd].
    destruct (err_reason e =? RSA_R_DATA_TOO_LARGE_FOR_KEY_SIZE L);
      reflexivity.
Qed.

(** A fixed salt length of 1000 bytes with a 1024-bit key, on a build with
    [EVP_PKEY_CTX]. *)
Lemma finalize_reports_signing_failure_witness :
  outcome
    (finalize (Ref.lib true true)
       (mkSignatureContext (Ref.private_key 1024) 128 finalize_pkey_ctx
          (Some OpenSSL.RSA_PKCS1_PSS_PADDING)
          (PSS (mkPSS (MGF1 SHA1) (SaltInt 1000))) SHA1 (mkHash SHA1 0)))
    (mkWorld [] [Some (mkHashCtx SHA1 [])] [])
  = Raise (ValueError msg_salt_too_long).
Proof.
  apply (finalize_reports_signing_failure (Ref.lib true true)
           (mkSignatureContext (Ref.private_key 1024) 128 finalize_pkey_ctx
              (Some OpenSSL.RSA_PKCS1_PSS_PADDING)
              (PSS (mkPSS (MGF1 SHA1) (SaltInt 1000))) SHA1 (mkHash SHA1 0))
           (mkWorld [] [Some (mkHashCtx SHA1 [])] [])
           (Ref.err OpenSSL.RSA_R_DATA_TOO_LARGE_FOR_KEY_SIZE) []).
  - exists (mkMD "sha1"), (mkHashCtx SHA1 []).
    split; [reflexivity |]. split; [reflexivity |].
    exists OpenSSL.RSA_PKCS1_PSS_PADDING. vm_compute.
    repeat split; intros; try discriminate; eauto.
  - reflexivity.
Defined.

(** ** An error left in the queue *)

(** The failure of a decryption is reported from the oldest error in the
    queue, not from the errors of the failing call.  When an earlier
    operation has left an error of another library in the queue, a
    decryption that fails in the library stops on a failed assertion
    instead of reporting a failed decryption, whatever errors the call
    queues. *)
Theorem stale_error_masks_decryption_failure :
  forall L self ct p padding_enum w o e q,
    is_ceil8 (priv_key_size self) (len ct) ->
    outcome (enc_dec_padding_enum L p) w = Ok padding_enum ->
    decryption_fails L self ct padding_enum o ->
    err_queue w = e :: q ->
    err_lib e <> ERR_LIB_RSA L ->
    outcome (decrypt L self ct p) w = Raise AssertionError.
Proof.
  intros L self ct p pe w o e q Hlen Hp Hfail Hq Hlib.
  apply (decrypt_reported_failure L self ct p pe w o e (q ++ out_errors o));
    try assumption.
  - rewrite Hq. reflexivity.
  - unfold _handle_rsa_enc_dec_error. run.
    apply Z.eqb_neq in Hlib. cbn -[mem decoding_errors].
    rewrite Hlib. reflexivity.
Qed.

(** A block that does not decode under PKCS#1 v1.5, with an error of
    library 6 left in the queue. *)
Lemma stale_error_masks_decryption_failure_witness :
  outcome (decrypt (Ref.lib true true) (Ref.private_key 512)
                   (repeat Byte.x02 64) (Padding PKCS1v15))
          (mkWorld [mkError 6 0 100] [] [])
  = Raise AssertionError.
Proof.
  apply (stale_error_masks_decryption_failure (Ref.lib true true)
           (Ref.private_key 512) (repeat Byte.x02 64) (Padding PKCS1v15)
           OpenSSL.RSA_PKCS1_PADDING (mkWorld [mkError 6 0 100] [] [])
           (Ref.decoding_failed OpenSSL.RSA_PKCS1_PADDING)
           (mkError 6 0 100) []).
  - unfold is_ceil8. vm_compute. split; [reflexivity | discriminate].
  - reflexivity.
  - vm_compute. repeat split; try reflexivity; discriminate.
  - reflexivity.
  - vm_compute. discriminate.
Defined.

(** ** Attributes of a created context *)

Ltac attribute_cases :=
  repeat (cbn [fst snd err_queue heap trace is_attribute_error];
          first [ reflexivity | break_match ]).

(** [__init__] sets [_padding_enum] on the [EVP_PKEY_CTX] path only, and
    the methods read it on that path only; the PSS methods read the salt
    length and the MGF of a PSS padding only.  So on a context that
    [signer] or [verifier] has created, no [finalize] or [verify] fails for
    an attribute that is not there. *)
Theorem created_contexts_have_their_attributes : forall L p alg,
  (forall priv w sctx ws,
      signer L priv p alg w = (Ok sctx, ws) ->
      forall w', is_attribute_error (outcome (finalize L sctx) w') = false)
  /\ (forall pub sig w vctx wv,
      verifier L pub sig p alg w = (Ok vctx, wv) ->
      forall w', is_attribute_error (outcome (verify L vctx) w') = false).
Proof.
  intros L [| p] alg; [split; intros; discriminate |].
  split.
  - intros priv w sctx ws Hs w'.
    destruct p as [| o | pss | name].
    + rewrite signer_pkcs1 in Hs. inversion Hs. subst sctx ws. clear Hs.
      unfold finalize, _finalize_pkey_ctx, _finalize_pkcs1, _finalize_pss,
             pkey_ctx_set_pss, get_digest, get_padding_enum, as_pss,
             Hash_finalize, hash__ctx, set_hash__ctx, nonempty.
      run. cbn [s_finalize_method s_padding_enum s_padding].
      destruct (Cryptography_HAS_PKEY_CTX L); attribute_cases.
    + rewrite signer_unsupported in Hs by reflexivity. discriminate Hs.
    + rewrite signer_pss in Hs. unfold pss_check in Hs.
      destruct (pss_mgf pss) as [h |] eqn:Hmgf; [| discriminate Hs].
      repeat (break_match_in Hs; try discriminate Hs).
      all: inversion Hs; subst sctx ws; clear Hs.
      all: unfold finalize, _finalize_pkey_ctx, _finalize_pkcs1,
             _finalize_pss, pkey_ctx_set_pss, get_digest, get_padding_enum,
             as_pss, Hash_finalize, hash__ctx, set_hash__ctx, nonempty,
             _get_rsa_pss_salt_length.
      all: run; cbn [s_finalize_method s_padding_enum s_padding].
      all: rewrite ?Hmgf; attribute_cases.
    + rewrite signer_unsupported in Hs by reflexivity. discriminate Hs.
  - intros pub sig w vctx wv Hv w'.
    destruct p as [| o | pss | name].
    + rewrite verifier_pkcs1 in Hv. inversion Hv. subst vctx wv. clear Hv.
      unfold verify, _verify_pkey_ctx, _verify_pkcs1, _verify_pss,
             pkey_ctx_set_pss, get_digest, get_padding_enum, as_pss,
             raise_invalid_signature, Hash_finalize, hash__ctx,
             set_hash__ctx, nonempty.
      run. cbn [v_verify_method v_padding_enum v_padding].
      destruct (Cryptography_HAS_PKEY_CTX L); attribute_cases.
    + rewrite verifier_unsupported in Hv by reflexivity. discriminate Hv.
    + rewrite verifier_pss in Hv. unfold pss_check in Hv.
      destruct (pss_mgf pss) as [h |] eqn:Hmgf; [| discriminate Hv].
      repeat (break_match_in Hv; try discriminate Hv).
      all: inversion Hv; subst vctx wv; clear Hv.
      all: unfold verify, _verify_pkey_ctx, _verify_pkcs1, _verify_pss,
             pkey_ctx_set_pss, get_digest, get_padding_enum, as_pss,
             raise_invalid_signature, Hash_finalize, hash__ctx,
             set_hash__ctx, nonempty, _get_rsa_pss_salt_length.
      all: run; cbn [v_verify_method v_padding_enum v_padding].
      all: rewrite ?Hmgf; attribute_cases.
    + rewrite verifier_unsupported in Hv by reflexivity. discriminate Hv.
Qed.
